(** * arxiv_hydra: batch orchestration of research-profile runs

  A shallow embedding of [arxiv_hydra.py]: the keyword normalizer
  ([_filter_keywords]), the configuration merger ([merge_configs]), the
  profile runner ([process_single_config]), the batch aggregator
  ([process_all_configs]) and the statistics pass of the summary notifier
  ([send_batch_summary_notification]), with the properties the
  specification states about them. *)

From Stdlib Require Import ZArith NArith Ascii String List Bool Lia.
From stdpp Require Import base option list gmap.
Import ListNotations.

Local Open Scope list_scope.

(** ** Python strings

  A Python [str] is a sequence of Unicode code points. *)

Module PyStr.

Definition pystr := list N.

(** An ASCII literal as a Python string. *)
Definition py (s : string) : pystr :=
  List.map N_of_ascii (list_ascii_of_string s).

(** Truthiness of a string: [bool(s)]. *)
Definition truthy (s : pystr) : bool :=
  match s with [] => false | _ :: _ => true end.

(** [c.isspace()] for one code point: the characters Python's [str.strip]
    removes when called without argument. *)
Definition is_space (c : N) : bool :=
  ((9 <=? c) && (c <=? 13) || (28 <=? c) && (c <=? 32)
   || (c =? 133) || (c =? 160) || (c =? 5760)
   || (8192 <=? c) && (c <=? 8202)
   || (c =? 8232) || (c =? 8233) || (c =? 8239) || (c =? 8287)
   || (c =? 12288))%N.

Fixpoint lstrip (s : pystr) : pystr :=
  match s with
  | [] => []
  | c :: t => if is_space c then lstrip t else s
  end.

Definition rstrip (s : pystr) : pystr := rev (lstrip (rev s)).

(** [s.strip()] *)
Definition strip (s : pystr) : pystr := rstrip (lstrip s).

(** [s.startswith(p)] *)
Fixpoint startswith (s p : pystr) : bool :=
  match p, s with
  | [], _ => true
  | _ :: _, [] => false
  | a :: p', b :: s' => (a =? b)%N && startswith s' p'
  end.

(** The scan of [s.replace(old, new)] for a non-empty [old]: occurrences are
    found left to right and do not overlap; [skip] counts the characters of
    the occurrence just replaced that are still to be passed over. *)
Fixpoint replace_scan (old new : pystr) (skip : nat) (s : pystr) : pystr :=
  match s with
  | [] => []
  | c :: t =>
      match skip with
      | S k => replace_scan old new k t
      | O =>
          if startswith s old
          then new ++ replace_scan old new (Nat.pred (length old)) t
          else c :: replace_scan old new O t
      end
  end.

(** [s.replace(old, new)]; with an empty [old] Python puts [new] before
    every character and at the end. *)
Definition replace (old new s : pystr) : pystr :=
  match old with
  | [] => new ++ List.concat (List.map (fun c => c :: new) s)
  | _ :: _ => replace_scan old new O s
  end.

(** [a or b] on strings. *)
Definition or_else (a b : pystr) : pystr := if truthy a then a else b.

(** The fixed texts of the source that are not ASCII, by code point: the
    researcher suffix removed from a profile name (U+7814 U+7A76 U+5458), the
    table suffix (U+8BBA U+6587 U+8868), and the two error messages of the
    runner (the document does not exist, with a colon and a space before the
    path; a date-range search needs a start date). *)
Definition researcher_token : pystr := [30740; 31350; 21592]%N.
Definition table_token : pystr := [35770; 25991; 34920]%N.
Definition msg_config_missing : pystr :=
  [37197; 32622; 25991; 20214; 19981; 23384; 22312; 58; 32]%N.
Definition msg_start_date_needed : pystr :=
  [26085; 26399; 33539; 22260; 25628; 32034; 38656; 35201; 25351; 23450;
   24320; 22987; 26085; 26399]%N.

(** Entries that are empty or consist of whitespace only. *)
Definition blank (s : pystr) : bool := forallb is_space s.

Lemma lstrip_nil_iff s : lstrip s = [] <-> blank s = true.
Proof.
  induction s as [|c t IH]; simpl; [tauto|].
  destruct (is_space c); simpl; [exact IH|].
  split; discriminate.
Qed.

Lemma lstrip_head s c t : lstrip s = c :: t -> is_space c = false.
Proof.
  induction s as [|a s IH]; simpl; [discriminate|].
  destruct (is_space a) eqn:E; [exact IH|].
  intros [= <- _]. exact E.
Qed.

Lemma lstrip_idem s : lstrip (lstrip s) = lstrip s.
Proof.
  destruct (lstrip s) as [|c t] eqn:E; [reflexivity|].
  simpl. now rewrite (lstrip_head _ _ _ E).
Qed.

Lemma lstrip_snoc s c : is_space c = false -> lstrip (s ++ [c]) = lstrip s ++ [c].
Proof.
  intros Hc. induction s as [|a s IH]; simpl.
  - now rewrite Hc.
  - destruct (is_space a); [exact IH|reflexivity].
Qed.

Lemma rstrip_cons c t : is_space c = false -> rstrip (c :: t) = c :: rstrip t.
Proof.
  intros Hc. unfold rstrip. simpl.
  rewrite lstrip_snoc by exact Hc.
  now rewrite rev_app_distr.
Qed.

Lemma rstrip_idem s : rstrip (rstrip s) = rstrip s.
Proof. unfold rstrip. now rewrite rev_involutive, lstrip_idem. Qed.

Lemma blank_rev s : blank (rev s) = blank s.
Proof.
  unfold blank. induction s as [|c t IH]; [reflexivity|].
  simpl. rewrite forallb_app, IH. simpl. rewrite andb_true_r. apply andb_comm.
Qed.

Lemma rstrip_nil_iff s : rstrip s = [] <-> blank s = true.
Proof.
  unfold rstrip. rewrite <- blank_rev, <- lstrip_nil_iff.
  split; intros H.
  - apply (f_equal (@rev N)) in H. now rewrite rev_involutive in H.
  - now rewrite H.
Qed.

(** The trimmed form of a string neither starts nor ends with whitespace:
    trimming it again changes nothing. *)
Lemma strip_idem s : strip (strip s) = strip s.
Proof.
  unfold strip.
  destruct (lstrip s) as [|c t] eqn:E; [reflexivity|].
  pose proof (lstrip_head _ _ _ E) as Hc.
  rewrite (rstrip_cons _ _ Hc). simpl. rewrite Hc.
  rewrite <- (rstrip_cons _ _ Hc). apply rstrip_idem.
Qed.

Lemma blank_lstrip s : blank (lstrip s) = blank s.
Proof.
  induction s as [|c t IH]; [reflexivity|].
  simpl. destruct (is_space c) eqn:E; simpl; [exact IH|now rewrite E].
Qed.

Lemma strip_nil_iff s : strip s = [] <-> blank s = true.
Proof. unfold strip. now rewrite rstrip_nil_iff, blank_lstrip. Qed.

Lemma blank_truthy_strip s : blank s = negb (truthy (strip s)).
Proof.
  destruct (blank s) eqn:B.
  - apply strip_nil_iff in B. now rewrite B.
  - destruct (strip s) eqn:E; [|reflexivity].
    apply strip_nil_iff in E. congruence.
Qed.

(** The string operations on the values Python gives. *)
Example strip_example :
  strip ([32; 12288] ++ py "ab c" ++ [9; 10])%N = py "ab c".
Proof. reflexivity. Qed.

Example replace_example :
  replace (py "sync_") [] (py "sync_sync_x_sync_") = py "x_" /\
  replace (py "aa") (py "b") (py "aaa") = py "ba" /\
  replace [] (py "-") (py "ab") = py "-a-b-".
Proof. repeat split. Qed.

Lemma startswith_self s : startswith s s = true.
Proof.
  induction s as [|a s IH]; [reflexivity|].
  simpl. now rewrite N.eqb_refl.
Qed.

(** While characters are being passed over nothing is written. *)
Lemma replace_scan_skip old new s : forall skip,
  length s <= skip -> replace_scan old new skip s = [].
Proof.
  induction s as [|a s IH]; intros skip Hlen; [reflexivity|].
  destruct skip as [|k]; simpl in *; [lia|]. apply IH. lia.
Qed.

(** Before the first occurrence of the first character of [old] nothing is
    replaced: a string that ends with [old] and has that character nowhere
    else loses exactly this suffix. *)
Lemma replace_suffix c old base :
  c ∉ base ->
  replace (c :: old) [] (base ++ c :: old) = base.
Proof.
  unfold replace. induction base as [|b base IH]; intros Hc.
  - cbn [app replace_scan startswith]. rewrite N.eqb_refl.
    rewrite startswith_self. cbn [andb app length Nat.pred].
    apply replace_scan_skip. reflexivity.
  - apply not_elem_of_cons in Hc. destruct Hc as [Hne Hc].
    cbn [app replace_scan startswith].
    destruct (N.eqb_spec c b) as [->|_]; [congruence|].
    cbn [andb]. now rewrite IH.
Qed.

End PyStr.

Export PyStr.

(** ** Keyword normalizer *)

Module Normalizer.

(** One turn of the loop of [_filter_keywords] over the list [filtered]
    built so far. *)
Definition filter_step (filtered : list pystr) (keyword : pystr) : list pystr :=
  if negb (truthy keyword) || negb (truthy (strip keyword)) then filtered
  else if startswith (strip keyword) (py "#") then filtered
  else filtered ++ [strip keyword].

(** [_filter_keywords(keywords)]; an absent list ([None]) and an empty one
    are both falsy and give the empty list. *)
Definition _filter_keywords (keywords : option (list pystr)) : list pystr :=
  match keywords with
  | None => []
  | Some [] => []
  | Some kws => fold_left filter_step kws []
  end.

(** The entries the normalizer keeps. *)
Definition kept (keyword : pystr) : bool :=
  negb (blank keyword) && negb (startswith (strip keyword) (py "#")).

Lemma filter_step_kept filtered keyword :
  filter_step filtered keyword =
  filtered ++ (if kept keyword then [strip keyword] else []).
Proof.
  unfold filter_step, kept. rewrite (blank_truthy_strip keyword).
  destruct keyword as [|c t].
  - simpl. now rewrite app_nil_r.
  - cbn [truthy negb orb]. destruct (truthy (strip (c :: t))); simpl.
    + destruct (startswith _ _); simpl; [now rewrite app_nil_r|reflexivity].
    + now rewrite app_nil_r.
Qed.

Lemma fold_filter_step kws : forall filtered,
  fold_left filter_step kws filtered =
  filtered ++ List.map strip (List.filter kept kws).
Proof.
  induction kws as [|k kws IH]; intros filtered; simpl.
  - now rewrite app_nil_r.
  - rewrite IH, filter_step_kept, <- app_assoc.
    destruct (kept k); reflexivity.
Qed.

Lemma filter_keywords_spec kws :
  _filter_keywords (Some kws) = List.map strip (List.filter kept kws).
Proof.
  destruct kws as [|k kws]; [reflexivity|].
  unfold _filter_keywords. now rewrite fold_filter_step.
Qed.

Lemma kept_strip k : kept k = true -> kept (strip k) = true.
Proof.
  unfold kept. rewrite !blank_truthy_strip, strip_idem. tauto.
Qed.

Lemma filter_kept_normalized kws :
  List.filter kept (List.map strip (List.filter kept kws)) =
  List.map strip (List.filter kept kws).
Proof.
  induction kws as [|k kws IH]; [reflexivity|].
  simpl. destruct (kept k) eqn:K; [|exact IH].
  simpl. rewrite (kept_strip _ K). now rewrite IH.
Qed.

Lemma map_strip_normalized kws :
  List.map strip (List.map strip (List.filter kept kws)) =
  List.map strip (List.filter kept kws).
Proof.
  rewrite List.map_map. apply List.map_ext. intros k. apply strip_idem.
Qed.

(** C6: the normalizer never fails; an absent or empty list gives the empty
    list; the result is the list of trimmed forms of exactly the entries
    that are neither blank nor comments, in input order and with repeated
    entries kept; and normalizing a normalized list changes nothing. *)
Theorem filter_keywords_normalizes :
  _filter_keywords None = [] /\
  _filter_keywords (Some []) = [] /\
  (forall kws,
     _filter_keywords (Some kws) = List.map strip (List.filter kept kws)) /\
  (forall k, kept k = true <->
     k <> [] /\ blank k = false /\ startswith (strip k) (py "#") = false) /\
  (forall keywords,
     _filter_keywords (Some (_filter_keywords keywords)) = _filter_keywords keywords).
Proof.
  split; [reflexivity|]. split; [reflexivity|].
  split; [exact filter_keywords_spec|]. split.
  - intros k. unfold kept. rewrite andb_true_iff, !negb_true_iff.
    split; [|tauto]. intros [B C]. repeat split; trivial.
    intros ->. discriminate.
  - intros [kws|]; [|reflexivity].
    rewrite !filter_keywords_spec.
    now rewrite filter_kept_normalized, map_strip_normalized.
Qed.

End Normalizer.

(** ** Python values and exceptions *)

Module Py.

(** The exceptions of class [Exception] the model tells apart: the three
    the library calls of the source raise by themselves, and any other with
    its message. The exceptions outside that class, which [except
    Exception] does not catch, are a way out of their own in [Control]
    below. *)
Inductive exn :=
| TypeError
| ValueError
| AttributeError
| Failure (msg : pystr).

(** The text of an [error] field: a message of the runner's own, or [str(e)]
    for the exception [e] it caught. *)
Inductive error_text :=
| Message (s : pystr)
| StrOf (e : exn).

(** The outcome of a call that may raise. *)
Inductive res (A : Type) :=
| Ok (a : A)
| Raise (e : exn).
Arguments Ok {A} a.
Arguments Raise {A} e.

Definition res_bind {A B} (r : res A) (f : A -> res B) : res B :=
  match r with
  | Ok a => f a
  | Raise e => Raise e
  end.

(** A configuration document as [yaml.safe_load] builds it: scalars,
    sequences, and mappings from string keys, kept in insertion order. A
    float is kept as the decimal [m * 10^e] that wrote it. *)
#[local] Unset Elimination Schemes.
Inductive value :=
| VNull
| VBool (b : bool)
| VInt (z : Z)
| VFloat (m e : Z)
| VStr (s : pystr)
| VList (l : list value)
| VDict (d : list (pystr * value)).
#[local] Set Elimination Schemes.

Definition dict := list (pystr * value).

(** [d[k]] when present. *)
Fixpoint assoc {V} (k : pystr) (d : list (pystr * V)) : option V :=
  match d with
  | [] => None
  | (k', v) :: t => if decide (k = k') then Some v else assoc k t
  end.

(** [k in d], [hasattr(cfg, k)]. *)
Definition has_key {V} (k : pystr) (d : list (pystr * V)) : bool :=
  match assoc k d with Some _ => true | None => false end.

(** [d[k] = v]: the value is replaced where the key stands, a new key goes
    to the end. *)
Fixpoint set_key {V} (k : pystr) (v : V) (d : list (pystr * V)) : list (pystr * V) :=
  match d with
  | [] => [(k, v)]
  | (k', v') :: t => if decide (k = k') then (k, v) :: t else (k', v') :: set_key k v t
  end.

Definition is_dict (v : value) : bool :=
  match v with VDict _ => true | _ => false end.

(** The value found by following a path of keys through nested mappings. *)
Fixpoint get_path (path : list pystr) (v : value) : option value :=
  match path with
  | [] => Some v
  | k :: p =>
      match v with
      | VDict d => match assoc k d with Some x => get_path p x | None => None end
      | _ => None
      end
  end.

(** Truthiness of a document value: [bool(v)]. *)
Definition value_truthy (v : value) : bool :=
  match v with
  | VNull => false
  | VBool b => b
  | VInt z => negb (z =? 0)%Z
  | VFloat m _ => negb (m =? 0)%Z
  | VStr s => truthy s
  | VList l => match l with [] => false | _ => true end
  | VDict d => match d with [] => false | _ => true end
  end.

(** Mappings have distinct keys, at every depth. *)
Fixpoint wf (v : value) : Prop :=
  match v with
  | VList l => (fix all (l : list value) : Prop :=
                  match l with [] => True | x :: t => wf x /\ all t end) l
  | VDict d => NoDup (d.*1) /\
               (fix all (d : list (pystr * value)) : Prop :=
                  match d with [] => True | (_, x) :: t => wf x /\ all t end) d
  | _ => True
  end.

(** Induction over documents, with the hypothesis for every element of a
    sequence and every value of a mapping. *)
Lemma value_induction (P : value -> Prop) :
  P VNull ->
  (forall b, P (VBool b)) ->
  (forall z, P (VInt z)) ->
  (forall m e, P (VFloat m e)) ->
  (forall s, P (VStr s)) ->
  (forall l, Forall P l -> P (VList l)) ->
  (forall d, Forall (fun kv => P (snd kv)) d -> P (VDict d)) ->
  forall v, P v.
Proof.
  intros HN HB HI HF HS HL HD.
  fix IH 1. intros [ | b | z | m e | s | l | d ].
  - exact HN.
  - apply HB.
  - apply HI.
  - apply HF.
  - apply HS.
  - apply HL. induction l as [|x l IHl]; constructor; [apply IH|exact IHl].
  - apply HD. induction d as [|[k x] d IHd]; constructor; [apply IH|exact IHd].
Qed.

Lemma wf_dict d :
  wf (VDict d) <-> NoDup (d.*1) /\ Forall (fun kv => wf (snd kv)) d.
Proof.
  simpl. split; intros [H1 H2]; split; trivial.
  - induction d as [|[k x] d IHd]; constructor.
    + apply H2.
    + apply IHd; [now inversion H1|apply H2].
  - induction d as [|[k x] d IHd]; [exact I|].
    inversion H2; subst. split; [assumption|].
    apply IHd; [now inversion H1|assumption].
Qed.

Lemma assoc_in {V} k (x : V) d : assoc k d = Some x -> (k, x) ∈ d.
Proof.
  induction d as [|[k' v] d IH]; simpl; [discriminate|].
  destruct (decide (k = k')) as [->|].
  - intros [= ->]. apply list_elem_of_here.
  - intros H. apply list_elem_of_further. auto.
Qed.

(** In a mapping with distinct keys every entry is the one its key finds. *)
Lemma assoc_nodup {V} k (x : V) d :
  NoDup (d.*1) -> (k, x) ∈ d -> assoc k d = Some x.
Proof.
  induction d as [|[k' v] d IH]; simpl.
  - intros _ H. now apply elem_of_nil in H.
  - rewrite NoDup_cons, elem_of_cons. intros [Hnotin Hnd] [E|Hin].
    + injection E as <- <-. destruct (decide (k = k)); [reflexivity|congruence].
    + destruct (decide (k = k')) as [->|]; [|auto].
      exfalso. apply Hnotin. apply list_elem_of_fmap. now exists (k', x).
Qed.

Lemma assoc_set_key_eq {V} k (v : V) d : assoc k (set_key k v d) = Some v.
Proof.
  induction d as [|[k' v'] d IH]; simpl.
  - destruct (decide (k = k)); [reflexivity|congruence].
  - destruct (decide (k = k')) as [->|Hne]; simpl.
    + destruct (decide (k' = k')); [reflexivity|congruence].
    + destruct (decide (k = k')); [congruence|exact IH].
Qed.

Lemma assoc_set_key_ne {V} k k' (v : V) d :
  k <> k' -> assoc k' (set_key k v d) = assoc k' d.
Proof.
  intros Hne. induction d as [|[k0 v0] d IH]; simpl.
  - destruct (decide (k' = k)) as [->|]; [congruence|reflexivity].
  - destruct (decide (k = k0)) as [->|Hne0]; simpl.
    + destruct (decide (k' = k0)); [congruence|reflexivity].
    + destruct (decide (k' = k0)); [reflexivity|exact IH].
Qed.

End Py.

Export Py.

(** ** Ways out of a computation *)

Module Control.

(** A Python computation returns, raises an exception of class [Exception],
    or is left by an exception outside that class ([KeyboardInterrupt],
    [SystemExit], [GeneratorExit]). [except Exception] catches the second
    kind only; a bare [except] catches both; [finally] runs on every way
    out. [Interrupt] is the type of the exceptions outside class
    [Exception]. *)
Inductive ending (Interrupt A : Type) :=
| Returns (a : A)
| Raises (e : exn)
| Leaves (b : Interrupt).
Arguments Returns {Interrupt A} a.
Arguments Raises {Interrupt A} e.
Arguments Leaves {Interrupt A} b.

(** An outcome without an exception outside class [Exception]. *)
Definition of_res {Interrupt A} (r : res A) : ending Interrupt A :=
  match r with
  | Ok a => Returns a
  | Raise e => Raises e
  end.

(** Where no exception outside class [Exception] exists, a computation
    returns or raises. *)
Definition to_res {A} (r : ending Empty_set A) : res A :=
  match r with
  | Returns a => Ok a
  | Raises e => Raise e
  | Leaves b => match b with end
  end.

Section Computation.

Context {Interrupt S : Type}.

(** A computation over the state [S]. *)
Definition run (A : Type) : Type := S -> ending Interrupt A * S.

Definition ret {A} (a : A) : run A := fun st => (Returns a, st).

Definition bind {A B} (m : run A) (f : A -> run B) : run B :=
  fun st =>
    match m st with
    | (Returns a, st') => f a st'
    | (Raises e, st') => (Raises e, st')
    | (Leaves b, st') => (Leaves b, st')
    end.

(** A library call of the code's own that may raise. *)
Definition lift {A} (r : res A) : run A := fun st => (of_res r, st).

(** [try: m except Exception as e: h e] *)
Definition try_except {A} (m : run A) (h : exn -> run A) : run A :=
  fun st =>
    match m st with
    | (Raises e, st') => h e st'
    | other => other
    end.

(** [try: m except: h] *)
Definition try_bare {A} (m : run A) (h : run A) : run A :=
  fun st =>
    match m st with
    | (Returns a, st') => (Returns a, st')
    | (_, st') => h st'
    end.

(** [try: m finally: f]: [f] runs on every way out of [m]; when [f] does not
    return, its exception replaces the outcome of [m]. *)
Definition try_finally {A} (m : run A) (f : run unit) : run A :=
  fun st =>
    match m st with
    | (r, st') =>
        match f st' with
        | (Returns _, st'') => (r, st'')
        | (Raises e, st'') => (Raises e, st'')
        | (Leaves b, st'') => (Leaves b, st'')
        end
    end.

End Computation.

End Control.

(** ** Configuration merger *)

Module Merger.

(** Modelled from the spec: [OmegaConf.merge] is library code outside the
    repository. Section 4.2 describes it as a recursive key-wise merge: a key
    present on both sides whose two values are mappings is merged
    recursively, otherwise the override value replaces the base value; keys
    only in the base are kept, keys only in the override are added. The
    library replaces a sequence by the overriding sequence and refuses to
    merge a mapping with a sequence ([TypeError]).

    [merge_node dest src] is the merge of the value [src] into the value
    [dest] stored under the same key. *)
Fixpoint merge_node (dest src : value) {struct dest} : res value :=
  match dest, src with
  | VDict d, VDict s =>
      let fix entries (d : list (pystr * value)) : res (list (pystr * value)) :=
        match d with
        | [] => Ok []
        | (k, x) :: t =>
            res_bind (match assoc k s with
                      | Some y => merge_node x y
                      | None => Ok x
                      end)
              (fun x' => res_bind (entries t) (fun t' => Ok ((k, x') :: t')))
        end in
      res_bind (entries d)
        (fun d' => Ok (VDict (d' ++ List.filter (fun kv => negb (has_key (fst kv) d)) s)))
  | VList _, VList l => Ok (VList l)
  | VDict _, VList _ => Raise TypeError
  | VList _, VDict _ => Raise TypeError
  | _, _ => Ok src
  end.

(** The entries of the base mapping [d] after the merge of [s] into it. *)
Fixpoint merge_entries (s d : list (pystr * value)) : res (list (pystr * value)) :=
  match d with
  | [] => Ok []
  | (k, x) :: t =>
      res_bind (match assoc k s with
                | Some y => merge_node x y
                | None => Ok x
                end)
        (fun x' => res_bind (merge_entries s t) (fun t' => Ok ((k, x') :: t')))
  end.

(** The entries of the override [s] whose keys the base [d] does not have. *)
Definition new_entries (d s : list (pystr * value)) : list (pystr * value) :=
  List.filter (fun kv => negb (has_key (fst kv) d)) s.

(** [OmegaConf.merge(a, b)] on two configuration nodes: both are mappings or
    both are sequences; anything else is refused. *)
Definition omegaconf_merge (a b : value) : res value :=
  match a, b with
  | VDict _, VDict _ => merge_node a b
  | VList _, VList _ => merge_node a b
  | VDict _, VList _ => Raise TypeError
  | VList _, VDict _ => Raise TypeError
  | _, _ => Raise ValueError
  end.

(** The first legacy section of [merge_configs]: [search_config] is merged
    into [merged_cfg.search], which is read without a test for presence. *)
Definition merge_search_config (keyword_cfg merged_cfg : dict) : res dict :=
  match assoc (py "search_config") keyword_cfg with
  | Some legacy =>
      match assoc (py "search") merged_cfg with
      | Some section =>
          res_bind (omegaconf_merge section legacy)
            (fun r => Ok (set_key (py "search") r merged_cfg))
      | None => Raise AttributeError
      end
  | None => Ok merged_cfg
  end.

(** [config_mappings], in the order the loop visits it. *)
Definition config_mappings : list (pystr * pystr) :=
  [ (py "intelligent_matching_config", py "intelligent_matching");
    (py "download_config", py "download");
    (py "display_config", py "display");
    (py "output_config", py "output") ].

(** One turn of the loop over [config_mappings]. *)
Definition merge_mapped_config (keyword_cfg : dict) (merged_cfg : res dict)
    (m : pystr * pystr) : res dict :=
  let '(config_key, global_key) := m in
  res_bind merged_cfg (fun merged_cfg =>
    match assoc config_key keyword_cfg with
    | Some legacy =>
        let merged_cfg :=
          if has_key global_key merged_cfg then merged_cfg
          else set_key global_key (VDict []) merged_cfg in
        match assoc global_key merged_cfg with
        | Some section =>
            res_bind (omegaconf_merge section legacy)
              (fun r => Ok (set_key global_key r merged_cfg))
        | None => Raise AttributeError
        end
    | None => Ok merged_cfg
    end).

(** [merge_configs(global_cfg, keyword_cfg)] *)
Definition merge_configs (global_cfg keyword_cfg : dict) : res dict :=
  res_bind (omegaconf_merge (VDict global_cfg) (VDict keyword_cfg)) (fun merged =>
    match merged with
    | VDict merged_cfg =>
        fold_left (merge_mapped_config keyword_cfg) config_mappings
          (merge_search_config keyword_cfg merged_cfg)
    | _ => Raise TypeError
    end).

(** The five legacy sections with the canonical section each is merged into. *)
Definition legacy_sections : list (pystr * pystr) :=
  (py "search_config", py "search") :: config_mappings.

(** A document with none of the legacy sections. *)
Definition no_legacy (c : dict) : Prop :=
  Forall (fun m => assoc (fst m) c = None) legacy_sections.

(** [carries v v']: the value [v'] carries the value [v]. A value that is
    not a mapping is carried by itself alone; a mapping is carried by a
    mapping that has each of its fields with a value that carries the
    field's value. *)
#[local] Unset Elimination Schemes.
Inductive carries : value -> value -> Prop :=
| carries_leaf v :
    is_dict v = false -> carries v v
| carries_dict d d' :
    (forall k x, assoc k d = Some x ->
                 exists x', assoc k d' = Some x' /\ carries x x') ->
    carries (VDict d) (VDict d').
#[local] Set Elimination Schemes.

(** A document with a canonical and a legacy search section. *)
Definition doc_with_legacy : dict :=
  [ (py "search", VDict [ (py "days", VInt 7) ]);
    (py "search_config", VDict [ (py "days", VInt 3) ]) ].

(** A document of the extended shape without legacy sections. *)
Definition doc_without_legacy : dict :=
  [ (py "user_profile", VDict [ (py "name", VStr (py "Robotics")) ]);
    (py "search", VDict [ (py "days", VInt 7); (py "field", VStr (py "all")) ]);
    (py "interest_keywords", VList [ VStr (py "robot"); VStr (py "grasping") ]) ].

(** *** The generic merge *)

Lemma merge_node_dict d s :
  merge_node (VDict d) (VDict s) =
  res_bind (merge_entries s d) (fun d' => Ok (VDict (d' ++ new_entries d s))).
Proof.
  cbn [merge_node]. unfold new_entries.
  match goal with
  | |- res_bind (?f d) _ = _ =>
      assert (E : forall t, f t = merge_entries s t)
  end.
  { induction t as [|[k x] t IH]; [reflexivity|].
    cbn [merge_entries]. rewrite <- IH. reflexivity. }
  now rewrite E.
Qed.

Lemma merge_node_leaf dest src r :
  is_dict src = false -> merge_node dest src = Ok r -> r = src.
Proof.
  destruct dest, src; simpl; intros Hs H; try discriminate; congruence.
Qed.

(** What a key of the override finds in the merged entries of the base. *)
Lemma merge_entries_assoc s k : forall d d',
  merge_entries s d = Ok d' ->
  match assoc k d with
  | Some x =>
      match assoc k s with
      | Some y => exists x', merge_node x y = Ok x' /\ assoc k d' = Some x'
      | None => assoc k d' = Some x
      end
  | None => assoc k d' = None
  end.
Proof.
  induction d as [|[k0 x0] d IH]; intros d'; cbn [merge_entries assoc].
  - now intros [= <-].
  - destruct (match assoc k0 s with Some y => merge_node x0 y | None => Ok x0 end)
      as [x0'|] eqn:E0; [|discriminate].
    cbn [res_bind]. destruct (merge_entries s d) as [t'|] eqn:Et; [|discriminate].
    cbn [res_bind]. intros [= <-]. cbn [assoc].
    destruct (decide (k = k0)) as [->|Hne].
    + destruct (assoc k0 s); [eauto|congruence].
    + now apply IH.
Qed.

Lemma assoc_app {V} k (a b : list (pystr * V)) :
  assoc k (a ++ b) = match assoc k a with Some x => Some x | None => assoc k b end.
Proof.
  induction a as [|[k' v] a IH]; simpl; [reflexivity|].
  now destruct (decide (k = k')).
Qed.

Lemma assoc_new_entries k d s :
  assoc k d = None -> assoc k (new_entries d s) = assoc k s.
Proof.
  intros Hd. unfold new_entries.
  induction s as [|[k' v] s IH]; simpl; [reflexivity|].
  unfold has_key at 1. simpl.
  destruct (assoc k' d) eqn:E; simpl.
  - destruct (decide (k = k')) as [->|]; [congruence|exact IH].
  - destruct (decide (k = k')); [reflexivity|exact IH].
Qed.


Lemma carries_refl v : carries v v.
Proof.
  induction v as [ | b | z | m e | s | l IH | d IH ] using value_induction;
    try (now apply carries_leaf).
  apply carries_dict. intros k x Hk. exists x. split; [exact Hk|].
  rewrite Forall_forall in IH. exact (IH (k, x) (assoc_in _ _ _ Hk)).
Qed.

(** The merged value carries the overriding value. *)
Lemma merge_node_carries src : forall dest r,
  merge_node dest src = Ok r -> carries src r.
Proof.
  induction src as [ | b | z | m e | s | l IH | s IH ] using value_induction;
    intros dest r Hm;
    try (apply merge_node_leaf in Hm; [subst r; now apply carries_leaf|reflexivity]).
  destruct dest as [ | | | | | l | d ];
    try (simpl in Hm; injection Hm as <-; apply carries_refl).
  - simpl in Hm. discriminate.
  - rewrite merge_node_dict in Hm.
    destruct (merge_entries s d) as [d'|] eqn:Ed; [|discriminate].
    injection Hm as <-. apply carries_dict. intros k x Hk.
    rewrite assoc_app.
    pose proof (merge_entries_assoc s k _ _ Ed) as H. rewrite Hk in H.
    rewrite Forall_forall in IH.
    destruct (assoc k d) as [y|] eqn:Ek.
    + destruct H as (x' & Hx & ->). exists x'. split; [reflexivity|].
      exact (IH (k, x) (assoc_in _ _ _ Hk) _ _ Hx).
    + rewrite H, (assoc_new_entries _ _ _ Ek), Hk.
      exists x. split; [reflexivity|apply carries_refl].
Qed.

Lemma merge_entries_self s : forall d,
  (forall k x, (k, x) ∈ d -> assoc k s = Some x /\ merge_node x x = Ok x) ->
  merge_entries s d = Ok d.
Proof.
  induction d as [|[k x] d IH]; intros H; [reflexivity|].
  cbn [merge_entries].
  destruct (H k x) as [-> ->]; [apply list_elem_of_here|].
  cbn [res_bind]. rewrite IH; [reflexivity|].
  intros k' x' Hin. apply H. now apply list_elem_of_further.
Qed.

Lemma new_entries_nil d s :
  (forall kv, kv ∈ s -> has_key (fst kv) d = true) -> new_entries d s = [].
Proof.
  unfold new_entries. induction s as [|kv s IH]; intros H; [reflexivity|].
  simpl. rewrite (H kv) by apply list_elem_of_here. simpl.
  apply IH. intros kv' Hin. apply H. now apply list_elem_of_further.
Qed.

(** Merging a document into itself gives the document back. *)
Lemma merge_node_self v : wf v -> merge_node v v = Ok v.
Proof.
  induction v as [ | b | z | m e | s | l IH | d IH ] using value_induction;
    intros Hwf; try reflexivity.
  apply wf_dict in Hwf. destruct Hwf as [Hnd Hall].
  rewrite merge_node_dict, merge_entries_self.
  - cbn [res_bind]. rewrite new_entries_nil; [now rewrite app_nil_r|].
    intros [k x] Hin. unfold has_key. simpl.
    now rewrite (assoc_nodup _ _ _ Hnd Hin).
  - intros k x Hin. split; [now apply assoc_nodup|].
    rewrite Forall_forall in IH, Hall.
    apply (IH (k, x) Hin). apply (Hall (k, x) Hin).
Qed.

(** *** [merge_configs] *)

(** Without legacy sections [merge_configs] is the generic merge. *)
Lemma merge_configs_no_legacy global_cfg keyword_cfg :
  no_legacy keyword_cfg ->
  merge_configs global_cfg keyword_cfg =
  res_bind (merge_node (VDict global_cfg) (VDict keyword_cfg))
    (fun merged => match merged with VDict m => Ok m | _ => Raise TypeError end).
Proof.
  unfold no_legacy, legacy_sections, config_mappings.
  rewrite !Forall_cons. cbn [fst]. intros (H1 & H2 & H3 & H4 & H5 & _).
  unfold merge_configs. cbn [omegaconf_merge].
  destruct (merge_node (VDict global_cfg) (VDict keyword_cfg)) as [[ | | | | | |m]|];
    try reflexivity.
  cbn [res_bind]. unfold merge_search_config. rewrite H1.
  unfold config_mappings. cbn [fold_left merge_mapped_config res_bind].
  now rewrite H2, H3, H4, H5.
Qed.



Lemma fold_mapped_raise keyword_cfg l e :
  fold_left (merge_mapped_config keyword_cfg) l (Raise e) = Raise e.
Proof. induction l as [|[ck gk] l IH]; [reflexivity|exact IH]. Qed.

(** A turn of the loop leaves every other section as it was. *)
Lemma merge_mapped_other keyword_cfg m m' ck gk key :
  merge_mapped_config keyword_cfg (Ok m) (ck, gk) = Ok m' ->
  key <> gk ->
  assoc key m' = assoc key m.
Proof.
  cbn [merge_mapped_config res_bind]. intros H Hne.
  destruct (assoc ck keyword_cfg) as [legacy|]; [|now injection H as <-].
  destruct (has_key gk m).
  - destruct (assoc gk m) as [section|]; [|discriminate].
    destruct (omegaconf_merge section legacy) as [r|]; [|discriminate].
    injection H as <-. apply assoc_set_key_ne. congruence.
  - rewrite assoc_set_key_eq in H.
    destruct (omegaconf_merge (VDict []) legacy) as [r|]; [|discriminate].
    injection H as <-. rewrite !assoc_set_key_ne by congruence. reflexivity.
Qed.


Lemma fold_mapped_other keyword_cfg key : forall l m m',
  fold_left (merge_mapped_config keyword_cfg) l (Ok m) = Ok m' ->
  key ∉ l.*2 ->
  assoc key m' = assoc key m.
Proof.
  induction l as [|[ck gk] l IH]; intros m m' H Hnotin.
  - now injection H as <-.
  - cbn [fold_left] in H. cbn [fmap list_fmap snd] in Hnotin.
    apply not_elem_of_cons in Hnotin. destruct Hnotin as [Hne Hnotin].
    destruct (merge_mapped_config keyword_cfg (Ok m) (ck, gk)) as [m1|e] eqn:E.
    + rewrite (IH _ _ H Hnotin). eapply merge_mapped_other; eauto.
    + now rewrite fold_mapped_raise in H.
Qed.


Lemma legacy_sections_nodup : NoDup (legacy_sections.*2).
Proof. compute_done. Qed.

(** ** The claims on the merger *)

(** C2, as the code has it: merging a document without legacy sections
    against itself gives the document back. *)
Theorem merge_configs_self_without_legacy (c : dict) :
  wf (VDict c) -> no_legacy c -> merge_configs c c = Ok c.
Proof.
  intros Hwf Hno. rewrite merge_configs_no_legacy by exact Hno.
  now rewrite merge_node_self.
Qed.

Lemma merge_configs_self_without_legacy_witness :
  wf (VDict doc_without_legacy) /\ no_legacy doc_without_legacy /\
  merge_configs doc_without_legacy doc_without_legacy = Ok doc_without_legacy.
Proof.
  assert (Hwf : wf (VDict doc_without_legacy)).
  { simpl. repeat split; compute_done. }
  assert (Hno : no_legacy doc_without_legacy).
  { unfold no_legacy, legacy_sections, config_mappings.
    repeat constructor. }
  split; [exact Hwf|]. split; [exact Hno|].
  apply (merge_configs_self_without_legacy doc_without_legacy Hwf Hno).
Defined.

(** C2 as stated fails on a document with a legacy section: merged against
    itself, [search.days] takes the value of [search_config.days]. *)
Lemma merge_configs_self_legacy_changes :
  wf (VDict doc_with_legacy) /\
  get_path [py "search"; py "days"] (VDict doc_with_legacy) = Some (VInt 7) /\
  merge_configs doc_with_legacy doc_with_legacy =
    Ok [ (py "search", VDict [ (py "days", VInt 3) ]);
         (py "search_config", VDict [ (py "days", VInt 3) ]) ] /\
  merge_configs doc_with_legacy doc_with_legacy <> Ok doc_with_legacy.
Proof.
  split; [simpl; repeat split; compute_done|].
  split; [reflexivity|]. split; [reflexivity|]. discriminate.
Qed.


(** ** Further properties of the merger *)

Lemma merge_entries_nil_override : forall d, merge_entries [] d = Ok d.
Proof.
  induction d as [|[k x] d IH]; [reflexivity|].
  cbn [merge_entries assoc res_bind]. now rewrite IH.
Qed.

Lemma new_entries_of_nil s : new_entries [] s = s.
Proof.
  unfold new_entries. induction s as [|[k x] s IH]; [reflexivity|].
  cbn [List.filter fst has_key assoc negb]. now f_equal.
Qed.

(** Merging a mapping into an empty one gives the mapping. *)
Lemma omegaconf_merge_into_empty s :
  omegaconf_merge (VDict []) (VDict s) = Ok (VDict s).
Proof.
  cbn [omegaconf_merge]. rewrite merge_node_dict.
  cbn [merge_entries res_bind app]. now rewrite new_entries_of_nil.
Qed.

(** What a key finds after the generic merge of two documents. *)
Lemma generic_merge_assoc global_cfg keyword_cfg merged k :
  omegaconf_merge (VDict global_cfg) (VDict keyword_cfg) = Ok merged ->
  exists m0,
    merged = VDict m0 /\
    match assoc k global_cfg, assoc k keyword_cfg with
    | Some x, Some y => exists x', merge_node x y = Ok x' /\ assoc k m0 = Some x'
    | Some x, None => assoc k m0 = Some x
    | None, o => assoc k m0 = o
    end.
Proof.
  cbn [omegaconf_merge]. rewrite merge_node_dict.
  destruct (merge_entries keyword_cfg global_cfg) as [d'|] eqn:Ed; [|discriminate].
  intros [= <-]. eexists. split; [reflexivity|].
  pose proof (merge_entries_assoc keyword_cfg k _ _ Ed) as H.
  rewrite assoc_app.
  destruct (assoc k global_cfg) as [x|] eqn:Ex.
  - destruct (assoc k keyword_cfg) as [y|].
    + destruct H as (x' & Hx & ->). eauto.
    + now rewrite H.
  - rewrite H. now apply assoc_new_entries.
Qed.

(** A key that is not the canonical name of a legacy section of the override
    is left alone by the legacy steps. *)
Definition untouched_by_legacy (keyword_cfg : dict) (k : pystr) : Prop :=
  forall legacy_key, (legacy_key, k) ∈ legacy_sections ->
                     assoc legacy_key keyword_cfg = None.

(** A test that decides [untouched_by_legacy]. *)
Lemma untouched_by_test (keyword_cfg : dict) (k : pystr) :
  forallb (fun m => negb (bool_decide (snd m = k))
                    || negb (has_key (fst m) keyword_cfg))
    legacy_sections = true ->
  untouched_by_legacy keyword_cfg k.
Proof.
  intros H legacy_key Hin. rewrite forallb_forall in H.
  apply list_elem_of_In in Hin. specialize (H _ Hin). cbn [fst snd] in H.
  rewrite bool_decide_eq_true_2 in H by reflexivity. cbn [negb orb] in H.
  apply negb_true_iff in H. unfold has_key in H.
  now destruct (assoc legacy_key keyword_cfg).
Qed.

Lemma fold_mapped_untouched keyword_cfg k : forall l m m',
  fold_left (merge_mapped_config keyword_cfg) l (Ok m) = Ok m' ->
  (forall ck, (ck, k) ∈ l -> assoc ck keyword_cfg = None) ->
  assoc k m' = assoc k m.
Proof.
  induction l as [|[ck gk] l IH]; intros m m' H Hk.
  - now injection H as <-.
  - cbn [fold_left] in H.
    destruct (merge_mapped_config keyword_cfg (Ok m) (ck, gk)) as [m1|e] eqn:E;
      [|now rewrite fold_mapped_raise in H].
    rewrite (IH _ _ H).
    + destruct (decide (k = gk)) as [->|Hne].
      * cbn [merge_mapped_config res_bind] in E.
        rewrite (Hk ck) in E by apply list_elem_of_here. now injection E as <-.
      * eapply merge_mapped_other; eauto.
    + intros ck' Hin. apply Hk. now apply list_elem_of_further.
Qed.

Lemma legacy_steps_untouched keyword_cfg m0 merged k :
  fold_left (merge_mapped_config keyword_cfg) config_mappings
    (merge_search_config keyword_cfg m0) = Ok merged ->
  untouched_by_legacy keyword_cfg k ->
  assoc k merged = assoc k m0.
Proof.
  intros H Hk.
  destruct (merge_search_config keyword_cfg m0) as [m1|e] eqn:E1;
    [|now rewrite fold_mapped_raise in H].
  rewrite (fold_mapped_untouched _ k _ _ _ H).
  - unfold merge_search_config in E1.
    destruct (assoc (py "search_config") keyword_cfg) as [legacy|] eqn:El;
      [|now injection E1 as <-].
    destruct (assoc (py "search") m0) as [section|]; [|discriminate].
    destruct (omegaconf_merge section legacy) as [r|]; [|discriminate].
    injection E1 as <-. apply assoc_set_key_ne. intros <-.
    rewrite (Hk (py "search_config")) in El; [discriminate|].
    apply list_elem_of_here.
  - intros ck Hin. apply Hk. now apply list_elem_of_further.
Qed.

Lemma set_key_has_key {V} k k' (v : V) d :
  has_key k d = true -> has_key k (set_key k' v d) = true.
Proof.
  unfold has_key. destruct (decide (k' = k)) as [->|Hne].
  - now rewrite assoc_set_key_eq.
  - now rewrite assoc_set_key_ne.
Qed.

Lemma fold_mapped_has_key keyword_cfg k : forall l m m',
  fold_left (merge_mapped_config keyword_cfg) l (Ok m) = Ok m' ->
  has_key k m = true -> has_key k m' = true.
Proof.
  induction l as [|[ck gk] l IH]; intros m m' H Hk.
  - now injection H as <-.
  - cbn [fold_left] in H.
    destruct (merge_mapped_config keyword_cfg (Ok m) (ck, gk)) as [m1|e] eqn:E;
      [|now rewrite fold_mapped_raise in H].
    apply (IH _ _ H). cbn [merge_mapped_config res_bind] in E.
    destruct (assoc ck keyword_cfg) as [legacy|]; [|now injection E as <-].
    match type of E with
    | match ?t with _ => _ end = _ => destruct t as [section|]; [|discriminate]
    end.
    destruct (omegaconf_merge section legacy) as [r|]; [|discriminate].
    cbn [res_bind] in E. injection E as <-. apply set_key_has_key.
    destruct (has_key gk m); [exact Hk|now apply set_key_has_key].
Qed.

(** X1: every key of the base is a key of the merged result: the base
    defaults fill what a profile leaves out and no section of the base is
    lost. *)
Theorem merge_configs_keeps_base_keys
    (global_cfg keyword_cfg merged : dict) (k : pystr) :
  merge_configs global_cfg keyword_cfg = Ok merged ->
  has_key k global_cfg = true ->
  has_key k merged = true.
Proof.
  unfold merge_configs. intros H Hk.
  destruct (omegaconf_merge (VDict global_cfg) (VDict keyword_cfg))
    as [m|] eqn:Em; [|discriminate].
  destruct (generic_merge_assoc _ _ _ k Em) as (m0 & -> & Hm0).
  cbn [res_bind] in H.
  assert (Hk0 : has_key k m0 = true).
  { unfold has_key in *. destruct (assoc k global_cfg) as [x|]; [|discriminate].
    destruct (assoc k keyword_cfg).
    - destruct Hm0 as (x' & _ & ->). reflexivity.
    - now rewrite Hm0. }
  destruct (merge_search_config keyword_cfg m0) as [m1|e] eqn:E1;
    [|now rewrite fold_mapped_raise in H].
  apply (fold_mapped_has_key _ _ _ _ _ H).
  unfold merge_search_config in E1.
  destruct (assoc (py "search_config") keyword_cfg) as [legacy|];
    [|now injection E1 as <-].
  destruct (assoc (py "search") m0) as [section|]; [|discriminate].
  destruct (omegaconf_merge section legacy) as [r|]; [|discriminate].
  injection E1 as <-. now apply set_key_has_key.
Qed.

(** X2: a key the base has and the override has not, and which is not the
    canonical name of a legacy section of the override, keeps the value of
    the base. *)
Theorem merge_configs_keeps_base_only_values
    (global_cfg keyword_cfg merged : dict) (k : pystr) (v : value) :
  merge_configs global_cfg keyword_cfg = Ok merged ->
  assoc k global_cfg = Some v ->
  assoc k keyword_cfg = None ->
  untouched_by_legacy keyword_cfg k ->
  assoc k merged = Some v.
Proof.
  unfold merge_configs. intros H Hb Ho Hk.
  destruct (omegaconf_merge (VDict global_cfg) (VDict keyword_cfg))
    as [m|] eqn:Em; [|discriminate].
  destruct (generic_merge_assoc _ _ _ k Em) as (m0 & -> & Hm0).
  cbn [res_bind] in H. rewrite Hb, Ho in Hm0.
  now rewrite (legacy_steps_untouched _ _ _ _ H Hk).
Qed.

(** X3: outside the canonical sections that a legacy section of the override
    is merged into, the override wins: a key of the override is a key of the
    result with a value that carries the override's, which is the override's
    value itself when that is not a mapping; when the base has no such key,
    it is the override's value whatever it is. *)
Theorem merge_configs_override_wins
    (global_cfg keyword_cfg merged : dict) (k : pystr) (v : value) :
  merge_configs global_cfg keyword_cfg = Ok merged ->
  assoc k keyword_cfg = Some v ->
  untouched_by_legacy keyword_cfg k ->
  exists v',
    assoc k merged = Some v' /\
    carries v v' /\
    (is_dict v = false -> v' = v) /\
    (assoc k global_cfg = None -> v' = v).
Proof.
  unfold merge_configs. intros H Ho Hk.
  destruct (omegaconf_merge (VDict global_cfg) (VDict keyword_cfg))
    as [m|] eqn:Em; [|discriminate].
  destruct (generic_merge_assoc _ _ _ k Em) as (m0 & -> & Hm0).
  cbn [res_bind] in H. rewrite Ho in Hm0.
  rewrite (legacy_steps_untouched _ _ _ _ H Hk).
  destruct (assoc k global_cfg) as [x|].
  - destruct Hm0 as (x' & Hx & ->). exists x'. split; [reflexivity|].
    split; [now apply merge_node_carries with (dest := x)|].
    split; [|discriminate]. intros Hleaf. now apply merge_node_leaf with (dest := x).
  - exists v. split; [exact Hm0|]. split; [apply carries_refl|]. now split.
Qed.

(** X4: an override without any key changes nothing: the merge of the empty
    document into a base is the base. *)
Theorem merge_configs_empty_override (global_cfg : dict) :
  merge_configs global_cfg [] = Ok global_cfg.
Proof.
  unfold merge_configs. cbn [omegaconf_merge]. rewrite merge_node_dict.
  rewrite merge_entries_nil_override. cbn [res_bind]. unfold new_entries.
  cbn [List.filter]. rewrite app_nil_r. reflexivity.
Qed.

(** X5: [search_config] needs a [search] section: when the override has
    [search_config] and neither document has [search], [merge_configs]
    raises instead of returning a result. *)
Theorem merge_configs_search_config_without_search
    (global_cfg keyword_cfg : dict) (legacy : value) :
  assoc (py "search_config") keyword_cfg = Some legacy ->
  assoc (py "search") global_cfg = None ->
  assoc (py "search") keyword_cfg = None ->
  exists e, merge_configs global_cfg keyword_cfg = Raise e.
Proof.
  intros Hl Hb Ho. unfold merge_configs.
  destruct (omegaconf_merge (VDict global_cfg) (VDict keyword_cfg))
    as [m|e] eqn:Em; [|now exists e].
  destruct (generic_merge_assoc _ _ _ (py "search") Em) as (m0 & -> & Hm0).
  rewrite Hb, Ho in Hm0. cbn [res_bind]. unfold merge_search_config.
  rewrite Hl, Hm0. exists AttributeError. apply fold_mapped_raise.
Qed.

Lemma fold_mapped_creates keyword_cfg ck gk s : forall l m m',
  fold_left (merge_mapped_config keyword_cfg) l (Ok m) = Ok m' ->
  NoDup (l.*2) ->
  (ck, gk) ∈ l ->
  assoc ck keyword_cfg = Some (VDict s) ->
  assoc gk m = None ->
  assoc gk m' = Some (VDict s).
Proof.
  induction l as [|[ck0 gk0] l IH]; intros m m' H Hnd Hin Hleg Habs.
  - now apply elem_of_nil in Hin.
  - cbn [fold_left] in H. cbn [fmap list_fmap snd] in Hnd.
    apply NoDup_cons in Hnd. destruct Hnd as [Hnotin Hnd].
    destruct (merge_mapped_config keyword_cfg (Ok m) (ck0, gk0)) as [m1|e] eqn:E;
      [|now rewrite fold_mapped_raise in H].
    apply elem_of_cons in Hin. destruct Hin as [Heq|Hin].
    + injection Heq as -> ->.
      rewrite (fold_mapped_other _ _ _ _ _ H Hnotin).
      cbn [merge_mapped_config res_bind] in E. rewrite Hleg in E.
      unfold has_key in E. rewrite Habs in E.
      rewrite assoc_set_key_eq, omegaconf_merge_into_empty in E.
      cbn [res_bind] in E. injection E as <-. apply assoc_set_key_eq.
    + apply (IH _ _ H Hnd Hin Hleg).
      assert (Hne : gk <> gk0).
      { intros ->. apply Hnotin. apply list_elem_of_fmap. now exists (ck, gk0). }
      now rewrite (merge_mapped_other _ _ _ _ _ _ E Hne).
Qed.

(** X6: the four other legacy sections do not need their canonical section:
    when neither document has it, the canonical section of the result is the
    legacy mapping itself. *)
Theorem merge_configs_creates_missing_section
    (global_cfg keyword_cfg merged : dict) (legacy_key canonical_key : pystr)
    (s : dict) :
  merge_configs global_cfg keyword_cfg = Ok merged ->
  (legacy_key, canonical_key) ∈ config_mappings ->
  assoc legacy_key keyword_cfg = Some (VDict s) ->
  assoc canonical_key global_cfg = None ->
  assoc canonical_key keyword_cfg = None ->
  assoc canonical_key merged = Some (VDict s).
Proof.
  unfold merge_configs. intros H Hin Hl Hb Ho.
  destruct (omegaconf_merge (VDict global_cfg) (VDict keyword_cfg))
    as [m|] eqn:Em; [|discriminate].
  destruct (generic_merge_assoc _ _ _ canonical_key Em) as (m0 & -> & Hm0).
  rewrite Hb, Ho in Hm0. cbn [res_bind] in H.
  pose proof legacy_sections_nodup as Hnd.
  unfold legacy_sections in Hnd. cbn [fmap list_fmap snd] in Hnd.
  apply NoDup_cons in Hnd. destruct Hnd as [Hsearch Hnd].
  destruct (merge_search_config keyword_cfg m0) as [m1|e] eqn:E1;
    [|now rewrite fold_mapped_raise in H].
  apply (fold_mapped_creates _ _ _ _ _ _ _ H Hnd Hin Hl).
  unfold merge_search_config in E1.
  destruct (assoc (py "search_config") keyword_cfg) as [legacy|];
    [|now injection E1 as <-].
  destruct (assoc (py "search") m0) as [section|]; [|discriminate].
  destruct (omegaconf_merge section legacy) as [r|]; [|discriminate].
  injection E1 as <-. rewrite assoc_set_key_ne; [exact Hm0|].
  intros <-. apply Hsearch. apply list_elem_of_fmap.
  now exists (legacy_key, py "search").
Qed.

End Merger.

(** ** The orchestration engine: runner, aggregator, notifier *)

Module Engine.

(** Python integers as the runner's counters hold them: [bool] is a subclass
    of [int], so a counter may hold [True] or [False]. *)
Inductive pyint :=
| PInt (z : Z)
| PBool (b : bool).

(** The number a counter stands for in arithmetic and comparisons. *)
Definition int_val (n : pyint) : Z :=
  match n with
  | PInt z => z
  | PBool b => Z.b2z b
  end.

(** [max(a, b)]: the first argument unless the second is greater. *)
Definition py_max (a b : pyint) : pyint :=
  if (int_val a <? int_val b)%Z then b else a.

(** [isinstance(v, int)], with the integer the value then is. *)
Definition as_int (v : value) : option pyint :=
  match v with
  | VInt z => Some (PInt z)
  | VBool b => Some (PBool b)
  | _ => None
  end.

(** [v is True] *)
Definition is_True (v : value) : bool :=
  match v with
  | VBool true => true
  | _ => false
  end.

(** [len(l)] *)
Definition len {A} (l : list A) : Z := Z.of_nat (length l).

(** Truthiness of a list: [bool(l)]. *)
Definition truthy_list {A} (l : list A) : bool :=
  match l with [] => false | _ :: _ => true end.

(** [os.path.join(a, b)] on a POSIX system. *)
Definition path_join (a b : pystr) : pystr :=
  if startswith b (py "/") then b
  else if negb (truthy a) || startswith (rev a) (py "/") then a ++ b
  else a ++ py "/" ++ b.

(** [os.path.basename(p)] on a POSIX system: what follows the last slash. *)
Fixpoint basename (p : pystr) : pystr :=
  match p with
  | [] => []
  | c :: t => if existsb (N.eqb 47) t then basename t
              else if (c =? 47)%N then t else p
  end.

(** Reading a configuration. [cfg.get(k, default)] gives whatever the
    document holds under [k], [None] included; the next operation of the
    code on that value decides which values go through and which raise. *)

Notation "x <~ r ;; k" := (res_bind r (fun x => k))
  (at level 62, r at next level, right associativity).

(** [cfg.get(k, default)] on a mapping. *)
Definition get (k : pystr) (default : value) (cfg : dict) : value :=
  match assoc k cfg with
  | Some v => v
  | None => default
  end.

(** The mapping a value is where the code calls its [get] with a key:
    [None] and the scalars have no [get] ([AttributeError]); the [get] of a
    sequence takes an index and refuses a key, an error of the configuration
    library of class [ValueError]. *)
Definition mapping_of (v : value) : res dict :=
  match v with
  | VDict d => Ok d
  | VList _ => Raise ValueError
  | _ => Raise AttributeError
  end.

(** [v.get(k, default)] *)
Definition py_get (k : pystr) (default : value) (v : value) : res value :=
  d <~ mapping_of v ;; Ok (get k default d).

(** The exception of a call [v.m(...)] on a value that has no method [m]:
    [AttributeError]; the attributes of a mapping are its keys, so a mapping
    with the key [m] gives a value there, which cannot be called
    ([TypeError]). *)
Definition no_method (m : pystr) (v : value) : exn :=
  match v with
  | VDict d => if has_key m d then TypeError else AttributeError
  | _ => AttributeError
  end.

(** The string a value is where the code calls its string method [m]. *)
Definition str_of (m : pystr) (v : value) : res pystr :=
  match v with
  | VStr s => Ok s
  | other => Raise (no_method m other)
  end.

(** [f] on every element in turn, up to the first that raises. *)
Fixpoint each {A B} (f : A -> res B) (l : list A) : res (list B) :=
  match l with
  | [] => Ok []
  | x :: t => y <~ f x ;; t' <~ each f t ;; Ok (y :: t')
  end.

(** One entry of a keyword list as the loop of [_filter_keywords] reads it:
    an entry that is false is skipped, as the empty string is; [strip] is
    called on every other entry. *)
Definition keyword_entry (keyword : value) : res pystr :=
  if value_truthy keyword then str_of (py "strip") keyword else Ok [].

(** The entries [_filter_keywords] goes through for the value it is given:
    none for a value that is false; the elements of a sequence; the
    characters of a string; the keys of a mapping; any other value cannot be
    iterated ([TypeError]). *)
Definition keyword_entries (keywords : value) : res (option (list pystr)) :=
  if negb (value_truthy keywords) then Ok None
  else
    match keywords with
    | VList l => kws <~ each keyword_entry l ;; Ok (Some kws)
    | VStr s => Ok (Some (List.map (fun c => [c]) s))
    | VDict d => Ok (Some (List.map fst d))
    | _ => Raise TypeError
    end.

(** [_filter_keywords(keywords)] on a value of a document. *)
Definition _filter_keywords (keywords : value) : res (list pystr) :=
  kws <~ keyword_entries keywords ;; Ok (Normalizer._filter_keywords kws).

(** [list(raw)] for a node of the configuration ([hasattr(raw, "_content")]):
    a sequence gives its elements and a mapping its keys; any other value is
    left as it is. *)
Definition listed (raw : value) : value :=
  match raw with
  | VDict d => VList (List.map (fun kv => VStr (fst kv)) d)
  | other => other
  end.

(** The base defaults [process_single_config] builds for a document of the
    extended shape. *)
Definition base_cfg : dict :=
  [ (py "search",
      VDict [ (py "days", VInt 7); (py "max_results", VInt 300);
              (py "max_display", VInt 10); (py "min_score", VFloat 1 (-1));
              (py "field", VStr (py "all")) ]);
    (py "download",
      VDict [ (py "enabled", VBool false); (py "max_downloads", VInt 10);
              (py "download_dir", VStr (py "downloads")) ]);
    (py "intelligent_matching",
      VDict [ (py "enabled", VBool false);
              (py "score_weights",
                VDict [ (py "base", VFloat 10 (-1)); (py "semantic", VFloat 3 (-1)) ]) ]);
    (py "display",
      VDict [ (py "show_ranking", VBool true); (py "show_scores", VBool true);
              (py "show_breakdown", VBool false); (py "stats", VBool true) ]);
    (py "output",
      VDict [ (py "save", VBool true); (py "save_keywords", VBool false);
              (py "include_scores", VBool true);
              (py "format", VStr (py "markdown")) ]) ].

(** [load_keywords_from_config(cfg)]: the normalized interest and exclude
    lists, the raw interest list and the required-keyword block. *)
Definition load_keywords_from_config (cfg : dict)
  : res (list pystr * list pystr * value * value) :=
  source <~ (if has_key (py "keywords") cfg
             then mapping_of (get (py "keywords") VNull cfg)
             else Ok cfg) ;;
  let raw_interest_keywords :=
    listed (get (py "interest_keywords") (VList []) source) in
  let raw_exclude_keywords :=
    listed (get (py "exclude_keywords") (VList []) source) in
  interest_keywords <~ _filter_keywords raw_interest_keywords ;;
  exclude_keywords <~ _filter_keywords raw_exclude_keywords ;;
  Ok (interest_keywords, exclude_keywords, raw_interest_keywords,
      get (py "required_keywords") (VDict []) cfg).

(** One element of the sequence [dict] is called on: it must have two
    elements itself. *)
Definition pair_like (x : value) : res unit :=
  match x with
  | VList [_; _] | VStr [_; _] | VDict [_; _] => Ok tt
  | VList _ | VStr _ | VDict _ => Raise ValueError
  | _ => Raise TypeError
  end.

(** [dict(v)]: a mapping is copied; a sequence must be one of pairs, and a
    string is the sequence of its characters; any other value cannot be
    iterated. The mapping built is given by the value it is built from. *)
Definition dict_of (v : value) : res value :=
  match v with
  | VDict _ => Ok v
  | VList l => _ <~ each pair_like l ;; Ok v
  | VStr [] => Ok v
  | VStr _ => Raise ValueError
  | _ => Raise TypeError
  end.

(** [config_name.replace("sync_", "")] *)
Definition area_of_name (config_name : pystr) : pystr :=
  replace (py "sync_") [] config_name.

(** [final_cfg.get("user_profile", {})] *)
Definition user_profile_of (final_cfg : dict) : value :=
  get (py "user_profile") (VDict []) final_cfg.

(** The research area a document holds, when it holds one. *)
Definition area_entry (cfg : dict) : option value :=
  match assoc (py "user_profile") cfg with
  | Some (VDict user_profile) => assoc (py "research_area") user_profile
  | _ => None
  end.

Definition text_or_absent (v : option value) : bool :=
  match v with
  | Some (VStr _) | None => true
  | Some _ => false
  end.

(** A profile document as the engine handles it. The research area of a
    result is a string (section 3 of the specification), and the runner
    copies it from the document as it stands there: the documents are those
    whose research area, when they hold one, is a string. *)
Record document := mk_document {
  body :> dict;
  area_typed : text_or_absent (area_entry body) = true
}.

(** The merge keeps the user profile of the override: the base defaults of
    the runner have none, and no legacy section is merged into it. *)
Lemma merged_user_profile (cfg merged : dict) :
  Merger.merge_configs base_cfg cfg = Ok merged ->
  assoc (py "user_profile") merged = assoc (py "user_profile") cfg.
Proof.
  unfold Merger.merge_configs. intros H.
  destruct (Merger.omegaconf_merge (VDict base_cfg) (VDict cfg)) as [m|] eqn:Em;
    [|discriminate].
  destruct (Merger.generic_merge_assoc _ _ _ (py "user_profile") Em)
    as (m0 & -> & Hm0).
  cbn [res_bind] in H.
  rewrite (Merger.legacy_steps_untouched _ _ _ _ H).
  - exact Hm0.
  - now apply Merger.untouched_by_test.
Qed.

Lemma merged_area_typed (cfg : document) (merged : dict) :
  Merger.merge_configs base_cfg cfg = Ok merged ->
  text_or_absent (area_entry merged) = true.
Proof.
  intros H. unfold area_entry. rewrite (merged_user_profile _ _ H).
  apply area_typed.
Qed.

(** [merge_configs(base_cfg, cfg)] on a profile document. *)
Definition merge_document (cfg : document) : res document :=
  match Merger.merge_configs base_cfg cfg as merged
        return (forall m, merged = Ok m -> text_or_absent (area_entry m) = true) ->
               res document with
  | Ok merged => fun typed => Ok (mk_document merged (typed merged eq_refl))
  | Raise e => fun _ => Raise e
  end (merged_area_typed cfg).

(** The string a value of a document is, for a value that is one. *)
Definition text (v : value) : pystr :=
  match v with
  | VStr s => s
  | _ => []
  end.

(** The research area of a result built from a loaded configuration:
    [final_cfg.get("user_profile", {}).get("research_area", default)] with
    the default made from the profile name. In a document the value read is
    a string ([research_area_is_read] below). *)
Definition research_area_of (final_cfg : document) (config_name : pystr)
  : res pystr :=
  research_area <~ py_get (py "research_area") (VStr (area_of_name config_name))
                     (user_profile_of final_cfg) ;;
  Ok (text research_area).

(** [final_cfg.get("user_profile", {}).get("name", "").replace(researcher, "")],
    where [researcher] is the suffix [researcher_token]. *)
Definition profile_name_of (final_cfg : dict) : res pystr :=
  name <~ py_get (py "name") (VStr []) (user_profile_of final_cfg) ;;
  name <~ str_of (py "replace") name ;;
  Ok (replace researcher_token [] name).

(** The table name of the two early results: the profile name without the
    researcher suffix, then the table suffix. *)
Definition table_name_early (final_cfg : dict) : res pystr :=
  name <~ profile_name_of final_cfg ;; Ok (name ++ table_token).

(** The table name of the two final results, which also trim the name. *)
Definition table_name_of (final_cfg : dict) : res pystr :=
  name <~ profile_name_of final_cfg ;; Ok (strip name ++ table_token).

(** Whether the name of the profile can be read for a table name. *)
Definition labels_readable (cfg : dict) : bool :=
  match profile_name_of cfg with
  | Ok _ => true
  | Raise _ => false
  end.

(** The key under which the process-wide toggle is kept in [os.environ]. *)
Definition BATCH_MODE : pystr := py "BATCH_MODE".

(** What the engine calls outside itself. *)
Inductive callee :=
| c_exists
| c_glob
| c_load_yaml
| c_ArxivAPI
| c_PaperRanker
| c_get_papers_by_date_range
| c_get_recent_papers
| c_filter_and_rank_papers
| c_sync_papers_to_feishu
| c_create_chat_notifier
| c_generate_table_link
| c_notify_paper_updates.

(** What the engine does, in the order it does it: its writes to
    [os.environ], its calls outside with the way each ended (for the sync
    call with the value returned), and the entries of the runner and of the
    summary notifier. [EvLeft] stands for a call that an exception outside
    class [Exception] left. *)
Inductive event :=
| EvSetEnv (k v : pystr)
| EvPopEnv (k : pystr)
| EvCall (c : callee) (outcome : res (option value))
| EvLeft (c : callee)
| EvRun (config_name : pystr)
| EvNotify.

Section Orchestration.

(** The papers, and whatever lies outside the process (the file system, the
    paper archive, the remote tables, the chat), are those of the
    collaborators. *)
Context {Paper World : Type}.

(** The state the engine runs in: [os.environ], the outside world, and the
    record of what the engine has done so far. *)
Record state := mk_state {
  environ : gmap pystr pystr;
  world : World;
  trace : list event
}.

(** A computation of the engine among collaborators that return or raise an
    exception of class [Exception]: it returns or raises one, and leaves a
    state. The engine among collaborators that an exception outside that
    class may leave is [Interruptible], below. *)
Definition M (A : Type) : Type := state -> res A * state.

(** A collaborator: it sees and may change [os.environ] and the world, and
    returns or raises an exception of class [Exception]. *)
Definition ext (A : Type) : Type :=
  gmap pystr pystr -> World -> res A * gmap pystr pystr * World.

Definition ret {A} (a : A) : M A := fun st => (Ok a, st).

Definition bind {A B} (m : M A) (f : A -> M B) : M B :=
  fun st =>
    match m st with
    | (Ok a, st') => f a st'
    | (Raise e, st') => (Raise e, st')
    end.

(** A library call of the engine's own code that may raise. *)
Definition lift {A} (r : res A) : M A := fun st => (r, st).

(** [try: m except Exception as e: h e] *)
Definition try_except {A} (m : M A) (h : exn -> M A) : M A :=
  fun st =>
    match m st with
    | (Ok a, st') => (Ok a, st')
    | (Raise e, st') => h e st'
    end.

Definition emit (ev : event) : M unit :=
  fun st => (Ok tt, mk_state (environ st) (world st) (trace st ++ [ev])).

(** [os.environ[k] = v] *)
Definition setenv (k v : pystr) : M unit :=
  fun st =>
    (Ok tt, mk_state (<[k := v]> (environ st)) (world st) (trace st ++ [EvSetEnv k v])).

(** [os.environ.pop(k, None)] *)
Definition popenv (k : pystr) : M unit :=
  fun st =>
    (Ok tt, mk_state (delete k (environ st)) (world st) (trace st ++ [EvPopEnv k])).

(** A call of a collaborator; [view] says what of a returned value the
    record keeps. *)
Definition call_with {A} (view : A -> option value) (c : callee) (f : ext A) : M A :=
  fun st =>
    match f (environ st) (world st) with
    | (r, env', w') =>
        (r, mk_state env' w'
              (trace st ++ [EvCall c (match r with
                                      | Ok a => Ok (view a)
                                      | Raise e => Raise e
                                      end)]))
    end.

Definition call {A} (c : callee) (f : ext A) : M A :=
  call_with (fun _ => None) c f.

Notation "x <- m ;; k" := (bind m (fun x => k))
  (at level 62, m at next level, right associativity).

(** *** Every way out of a call

    The computations above return or raise an exception of class
    [Exception]. The ones below may also be left by an exception outside
    that class, of the type [Interrupt]. *)
Definition G (Interrupt A : Type) : Type := Control.run (Interrupt := Interrupt) (S := state) A.

(** A collaborator that may end in each of the three ways. *)
Definition gext (Interrupt A : Type) : Type :=
  gmap pystr pystr -> World -> Control.ending Interrupt A * gmap pystr pystr * World.

(** A computation of the engine among those. *)
Definition total {Interrupt A} (m : M A) : G Interrupt A :=
  fun st => match m st with (r, st') => (Control.of_res r, st') end.

(** A collaborator that returns or raises among those. *)
Definition raising {Interrupt A} (f : ext A) : gext Interrupt A :=
  fun env w => match f env w with (r, env', w') => (Control.of_res r, env', w') end.

(** Where no exception outside class [Exception] exists, a computation is
    one of the engine. *)
Definition settle {A} (m : G Empty_set A) : M A :=
  fun st => match m st with (r, st') => (Control.to_res r, st') end.

(** What the record keeps of a call that ended as [r]. *)
Definition event_of {Interrupt A} (view : A -> option value) (c : callee)
    (r : Control.ending Interrupt A) : event :=
  match r with
  | Control.Returns a => EvCall c (Ok (view a))
  | Control.Raises e => EvCall c (Raise e)
  | Control.Leaves _ => EvLeft c
  end.

(** A call of such a collaborator. *)
Definition call_any {Interrupt A} (view : A -> option value) (c : callee)
    (f : gext Interrupt A) : G Interrupt A :=
  fun st =>
    match f (environ st) (world st) with
    | (r, env', w') => (r, mk_state env' w' (trace st ++ [event_of view c r]))
    end.

(** Lines 180 to 202: the sync step around a sync call [sync] that may end
    in each of the three ways. It gives [synced_count]. *)
Definition sync_step_any {Interrupt} (sync : gext Interrupt value) : G Interrupt pyint :=
  Control.bind (total (setenv BATCH_MODE (py "1"))) (fun _ =>
  Control.try_finally
    (Control.try_except
       (Control.bind (call_any Some c_sync_papers_to_feishu sync) (fun sync_result =>
        Control.ret (match as_int sync_result with
                     | Some n => n
                     | None => if is_True sync_result then PInt 0 else PInt 0
                     end)))
       (fun sync_error => Control.ret (PInt 0)))
    (total (popenv BATCH_MODE))).

(** The collaborators. None of them is part of the engine; each may raise
    an exception of class [Exception]. *)
Variable FEISHU_AVAILABLE : bool.
Variable module_dir : pystr.
Variable path_exists : pystr -> World -> bool.
Variable glob_glob : pystr -> ext (list pystr).
Variable load_yaml : pystr -> ext document.
Variable ArxivAPI : value -> ext unit.
Variable PaperRanker : ext unit.
Variable get_papers_by_date_range :
  value -> value -> value -> value -> value -> ext (list Paper).
Variable get_recent_papers : value -> value -> value -> value -> ext (list Paper).
Variable filter_and_rank_papers :
  list Paper -> list pystr -> list pystr -> value -> value -> option value ->
  value -> value -> ext (list Paper).
Variable sync_papers_to_feishu : list Paper -> dict -> ext value.

(** *** Profile runner *)

(** The record [process_single_config] returns. *)
Record ProfileResult := mk_result {
  config_name : pystr;
  success : bool;
  error : option error_text;
  new_papers : pyint;
  total_papers : Z;
  research_area : pystr;
  table_name : pystr;
  ranked_papers : list Paper
}.

(** Lines 180 to 202 in a run of the engine: the sync step around the sync
    call of the run. *)
Definition sync_step (ranked_papers : list Paper) (final_cfg : dict) : M pyint :=
  settle (sync_step_any (raising (sync_papers_to_feishu ranked_papers final_cfg))).

(** Lines 160 to 225: what follows a retrieval that found papers. The
    labels of a result are read when the result is built, after the sync
    step. *)
Definition rank_and_sync (name : pystr) (final_cfg : document)
    (interest_keywords exclude_keywords : list pystr)
    (raw_interest_keywords required_keywords_config : value)
    (search_cfg : dict) (papers : list Paper) : M ProfileResult :=
  if truthy_list interest_keywords || truthy_list exclude_keywords then
    intelligent_cfg <- lift (mapping_of (get (py "intelligent_matching") (VDict [])
                                           final_cfg)) ;;
    let use_intelligent := get (py "enabled") (VBool false) intelligent_cfg in
    score_weights <- (if value_truthy use_intelligent
                      then weights <- lift (dict_of (get (py "score_weights") (VDict [])
                                                       intelligent_cfg)) ;;
                           ret (Some weights)
                      else ret None) ;;
    ranked_papers <- call c_filter_and_rank_papers
                       (filter_and_rank_papers papers interest_keywords exclude_keywords
                          (get (py "min_score") (VFloat 1 (-1)) search_cfg)
                          use_intelligent score_weights
                          raw_interest_keywords required_keywords_config) ;;
    synced_count <- (if truthy_list ranked_papers && FEISHU_AVAILABLE
                     then sync_step ranked_papers final_cfg
                     else ret (PInt 0)) ;;
    research_area <- lift (research_area_of final_cfg name) ;;
    table_name <- lift (table_name_of final_cfg) ;;
    ret {| config_name := name;
           success := true;
           error := None;
           new_papers := py_max synced_count (PInt 0);
           total_papers := len ranked_papers;
           research_area := research_area;
           table_name := table_name;
           ranked_papers := take 1 ranked_papers |}
  else
    research_area <- lift (research_area_of final_cfg name) ;;
    table_name <- lift (table_name_of final_cfg) ;;
    ret {| config_name := name;
           success := true;
           error := None;
           new_papers := PInt 0;
           total_papers := len papers;
           research_area := research_area;
           table_name := table_name;
           ranked_papers := [] |}.

(** Lines 147 to 158, then the rest: a retrieval without papers is a
    success with zero counts. *)
Definition after_retrieval (name : pystr) (final_cfg : document)
    (interest_keywords exclude_keywords : list pystr)
    (raw_interest_keywords required_keywords_config : value)
    (search_cfg : dict) (papers : list Paper) : M ProfileResult :=
  if negb (truthy_list papers) then
    research_area <- lift (research_area_of final_cfg name) ;;
    table_name <- lift (table_name_early final_cfg) ;;
    ret {| config_name := name;
           success := true;
           error := None;
           new_papers := PInt 0;
           total_papers := 0;
           research_area := research_area;
           table_name := table_name;
           ranked_papers := [] |}
  else
    rank_and_sync name final_cfg interest_keywords exclude_keywords
      raw_interest_keywords required_keywords_config search_cfg papers.

(** Lines 93 to 145: the components, the keywords and the retrieval. A
    section is read with [final_cfg.get(k, {})]; the first [get] on what was
    read raises unless it is a mapping. *)
Definition retrieve_and_rank (name : pystr) (final_cfg : document) : M ProfileResult :=
  download_cfg <- lift (mapping_of (get (py "download") (VDict []) final_cfg)) ;;
  let download_dir := get (py "download_dir") (VStr (py "downloads")) download_cfg in
  _ <- call c_ArxivAPI (ArxivAPI download_dir) ;;
  _ <- call c_PaperRanker PaperRanker ;;
  keywords <- lift (load_keywords_from_config final_cfg) ;;
  let '(interest_keywords, exclude_keywords, raw_interest_keywords,
        required_keywords_config) := keywords in
  search_cfg <- lift (mapping_of (get (py "search") (VDict []) final_cfg)) ;;
  let batch_processing_cfg := get (py "batch_processing") (VDict []) search_cfg in
  date_range_cfg <- lift (mapping_of (get (py "date_range") (VDict []) search_cfg)) ;;
  if value_truthy (get (py "enabled") (VBool false) date_range_cfg) then
    let start_date := get (py "start_date") (VStr []) date_range_cfg in
    let end_date := get (py "end_date") (VStr []) date_range_cfg in
    if negb (value_truthy start_date) then
      research_area <- lift (research_area_of final_cfg name) ;;
      table_name <- lift (table_name_early final_cfg) ;;
      ret {| config_name := name;
             success := false;
             error := Some (Message msg_start_date_needed);
             new_papers := PInt 0;
             total_papers := 0;
             research_area := research_area;
             table_name := table_name;
             ranked_papers := [] |}
    else
      papers <- call c_get_papers_by_date_range
                  (get_papers_by_date_range start_date end_date
                     (get (py "max_results") (VInt 300) search_cfg)
                     (get (py "field") (VStr (py "all")) search_cfg)
                     batch_processing_cfg) ;;
      after_retrieval name final_cfg interest_keywords exclude_keywords
        raw_interest_keywords required_keywords_config search_cfg papers
  else
    papers <- call c_get_recent_papers
                (get_recent_papers
                   (get (py "days") (VInt 7) search_cfg)
                   (get (py "max_results") (VInt 300) search_cfg)
                   (get (py "field") (VStr (py "all")) search_cfg)
                   batch_processing_cfg) ;;
    after_retrieval name final_cfg interest_keywords exclude_keywords
      raw_interest_keywords required_keywords_config search_cfg papers.

(** The path of a profile document. *)
Definition config_path_of (name : pystr) : pystr :=
  path_join (py "conf") (name ++ py ".yaml").

(** Lines 58 to 67: the result for a profile document that does not exist. *)
Definition not_found_result (name : pystr) : ProfileResult :=
  {| config_name := name;
     success := false;
     error := Some (Message (msg_config_missing ++ config_path_of name));
     new_papers := PInt 0;
     total_papers := 0;
     research_area := [];
     table_name := [];
     ranked_papers := [] |}.

(** Lines 229 to 238: the result the outer handler builds from an exception. *)
Definition exception_result (name : pystr) (e : exn) : ProfileResult :=
  {| config_name := name;
     success := false;
     error := Some (StrOf e);
     new_papers := PInt 0;
     total_papers := 0;
     research_area := area_of_name name;
     table_name := area_of_name name ++ table_token;
     ranked_papers := [] |}.

(** [process_single_config(config_name)] *)
Definition process_single_config (name : pystr) : M ProfileResult :=
  _ <- emit (EvRun name) ;;
  try_except
    (let config_path := config_path_of name in
     found <- call c_exists
                (fun env w => (Ok (path_exists config_path w), env, w)) ;;
     if negb found then ret (not_found_result name)
     else
       cfg <- call c_load_yaml (load_yaml config_path) ;;
       final_cfg <- (if has_key (py "search_config") (body cfg)
                        || has_key (py "user_profile") (body cfg)
                     then lift (merge_document cfg)
                     else ret cfg) ;;
       retrieve_and_rank name final_cfg)
    (fun e => ret (exception_result name e)).

(** *** Summary notifier *)

Variable create_chat_notifier_from_config : dict -> ext unit.
Variable generate_table_link : pystr -> ext (option pystr).

(** One row of [update_stats]. *)
Record TopicStats := mk_stats {
  new_count : pyint;
  total_count : Z;
  stats_table_name : pystr
}.

(** One entry of [papers_by_field]: the papers of the result, or the entry
    made up for a result without papers, kept as the three values its fields
    are formatted from. *)
Inductive representative :=
| FromResult (papers : list Paper)
| MadeUp (field_name config_name : pystr) (new_papers : pyint).

Variable notify_paper_updates :
  gmap pystr TopicStats -> gmap pystr representative -> gmap pystr pystr -> ext bool.

(** The three mappings the notifier builds. *)
Record tables := mk_tables {
  update_stats : gmap pystr TopicStats;
  papers_by_field : gmap pystr representative;
  table_links : gmap pystr pystr
}.

(** The results that enter the summary. *)
Definition qualifies (result : ProfileResult) : bool :=
  success result && (0 <? int_val (new_papers result))%Z.

(** The topic label of a result. *)
Definition field_name_of (result : ProfileResult) : pystr :=
  or_else (strip (replace table_token [] (table_name result)))
          (research_area result).

Definition stats_of (result : ProfileResult) : TopicStats :=
  {| new_count := new_papers result;
     total_count := total_papers result;
     stats_table_name := table_name result |}.

(** One turn of the loop of [send_batch_summary_notification]. *)
Definition summary_step (acc : tables) (result : ProfileResult) : M tables :=
  if qualifies result then
    let field_name := field_name_of result in
    let update_stats := <[field_name := stats_of result]> (update_stats acc) in
    let papers_by_field :=
      <[field_name :=
          if truthy_list (ranked_papers result)
          then FromResult (ranked_papers result)
          else MadeUp field_name (config_name result) (new_papers result)]>
        (papers_by_field acc) in
    table_link <- call c_generate_table_link
                    (generate_table_link (table_name result)) ;;
    ret {| update_stats := update_stats;
           papers_by_field := papers_by_field;
           table_links :=
             match table_link with
             | Some link =>
                 if truthy link then <[field_name := link]> (table_links acc)
                 else table_links acc
             | None => table_links acc
             end |}
  else ret acc.

Fixpoint summary_loop (results : list ProfileResult) (acc : tables) : M tables :=
  match results with
  | [] => ret acc
  | result :: rest => acc' <- summary_step acc result ;; summary_loop rest acc'
  end.

(** [send_batch_summary_notification(results)] *)
Definition send_batch_summary_notification (results : list ProfileResult) : M bool :=
  _ <- emit EvNotify ;;
  try_except
    (if negb FEISHU_AVAILABLE then ret false
     else
       default_cfg <- call c_load_yaml (load_yaml (py "conf/default.yaml")) ;;
       _ <- call c_create_chat_notifier
              (create_chat_notifier_from_config default_cfg) ;;
       t <- summary_loop results (mk_tables ∅ ∅ ∅) ;;
       if bool_decide (update_stats t = ∅) then ret true
       else call c_notify_paper_updates
              (notify_paper_updates (update_stats t) (papers_by_field t)
                 (table_links t)))
    (fun e => ret false).

(** *** Batch aggregator *)

(** [find_sync_configs()] *)
Definition find_sync_configs : M (list pystr) :=
  let conf_dir := path_join module_dir (py "conf") in
  let pattern := path_join conf_dir (py "sync*.yaml") in
  sync_configs <- call c_glob (glob_glob pattern) ;;
  ret (List.map (fun config => replace (py ".yaml") [] (basename config))
         sync_configs).

(** What the loop of [process_all_configs] carries: [all_results],
    [total_new_papers] and [successful_configs]. *)
Definition tally : Type := list ProfileResult * Z * Z.

(** One turn of the loop of [process_all_configs]. *)
Definition batch_step (acc : tally) (name : pystr) : M tally :=
  let '(all_results, total_new_papers, successful_configs) := acc in
  result <- process_single_config name ;;
  let all_results := all_results ++ [result] in
  if success result
  then ret (all_results,
            (total_new_papers + int_val (new_papers result))%Z,
            (successful_configs + 1)%Z)
  else ret (all_results, total_new_papers, successful_configs).

Fixpoint batch_loop (sync_configs : list pystr) (acc : tally) : M tally :=
  match sync_configs with
  | [] => ret acc
  | name :: rest => acc' <- batch_step acc name ;; batch_loop rest acc'
  end.

(** [process_all_configs()] *)
Definition process_all_configs : M bool :=
  try_except
    (sync_configs <- find_sync_configs ;;
     if negb (truthy_list sync_configs) then ret false
     else
       acc <- batch_loop sync_configs ([], 0%Z, 0%Z) ;;
       let '(all_results, total_new_papers, successful_configs) := acc in
       if (0 <? total_new_papers)%Z
       then send_batch_summary_notification all_results
       else ret true)
    (fun e => ret false).

(** *** What a run leaves in the record *)

(** The calls of collaborators other than the sync. *)
Definition plain (ev : event) : Prop :=
  match ev with
  | EvCall c _ => c <> c_sync_papers_to_feishu
  | _ => False
  end.

(** A computation that adds only such calls to the record. *)
Definition plain_m {A} (m : M A) : Prop :=
  forall st, exists r st' new,
    m st = (r, st') /\ trace st' = trace st ++ new /\ Forall plain new.

(** The three events of the sync step around a sync call that ended as
    [outcome]. *)
Definition sync_events (outcome : res (option value)) : list event :=
  [ EvSetEnv BATCH_MODE (py "1");
    EvCall c_sync_papers_to_feishu outcome;
    EvPopEnv BATCH_MODE ].

(** [synced_count] after a sync call that ended as [outcome]. *)
Definition synced_count_of (outcome : res (option value)) : pyint :=
  match outcome with
  | Ok (Some v) =>
      match as_int v with
      | Some n => n
      | None => PInt 0
      end
  | _ => PInt 0
  end.

(** What the record keeps of the way a call ended. *)
Definition outcome_of {A} (view : A -> option value) (r : res A)
  : res (option value) :=
  match r with
  | Ok a => Ok (view a)
  | Raise e => Raise e
  end.

(** The sync call of a run: it ran in an environment where the toggle was
    set to [1], it ended as [outcome], and [st'] holds what it left, without
    the toggle. *)
Definition sync_ran (outcome : res (option value)) (st' : state) : Prop :=
  exists ranked final_cfg env w r env',
    env !! BATCH_MODE = Some (py "1") /\
    sync_papers_to_feishu ranked final_cfg env w = (r, env', world st') /\
    outcome = outcome_of Some r /\
    environ st' = delete BATCH_MODE env'.

(** The two shapes of a run from [st]: only plain calls; or plain calls, then
    the sync step, after which the toggle is not set. *)
Inductive run_shape (st : state) : res ProfileResult -> state -> Prop :=
| shape_plain r st' new :
    trace st' = trace st ++ new ->
    Forall plain new ->
    run_shape st r st'
| shape_synced r st' pre outcome :
    trace st' = trace st ++ pre ++ sync_events outcome ->
    Forall plain pre ->
    sync_ran outcome st' ->
    run_shape st r st'.

Definition shaped (m : M ProfileResult) : Prop :=
  forall st, exists r st', m st = (r, st') /\ run_shape st r st'.

(** What the runner adds to the record after its own entry. *)
Definition run_body (st' : state) (body : list event) : Prop :=
  Forall plain body \/
  exists pre outcome,
    body = pre ++ sync_events outcome /\
    Forall plain pre /\
    sync_ran outcome st'.

(** A computation that leaves the state as it is. *)
Definition pure_m {A} (m : M A) : Prop :=
  forall st, exists r, m st = (r, st).

(** How often the toggle is cleared in a record. *)
Definition clears (l : list event) : nat :=
  length (List.filter
            (fun ev => match ev with
                       | EvPopEnv k => bool_decide (k = BATCH_MODE)
                       | _ => false
                       end) l).

(** The runner entries of a record, in order. *)
Definition runs (l : list event) : list pystr :=
  omap (fun ev => match ev with EvRun name => Some name | _ => None end) l.

(** The sum of [new_papers] over the successful results. *)
Fixpoint sum_new (results : list ProfileResult) : Z :=
  match results with
  | [] => 0
  | r :: rest => (if success r then int_val (new_papers r) else 0) + sum_new rest
  end%Z.

(** The results that enter the summary under the topic [label]. *)
Definition enters (label : pystr) (result : ProfileResult) : bool :=
  qualifies result && bool_decide (field_name_of result = label).

Lemma plain_ret {A} (a : A) : plain_m (ret a).
Proof.
  intros st. exists (Ok a), st, []. rewrite app_nil_r. repeat split. constructor.
Qed.

Lemma plain_lift {A} (r : res A) : plain_m (lift r).
Proof.
  intros st. exists r, st, []. rewrite app_nil_r. repeat split. constructor.
Qed.

Lemma plain_call_with {A} (view : A -> option value) c (f : ext A) :
  c <> c_sync_papers_to_feishu -> plain_m (call_with view c f).
Proof.
  intros Hc st. unfold call_with.
  destruct (f (environ st) (world st)) as [[r env'] w'].
  eexists _, _, [_]. repeat split. constructor; [exact Hc|constructor].
Qed.

Lemma plain_call {A} c (f : ext A) :
  c <> c_sync_papers_to_feishu -> plain_m (call c f).
Proof. apply plain_call_with. Qed.

Lemma plain_bind {A B} (m : M A) (f : A -> M B) :
  plain_m m -> (forall a, plain_m (f a)) -> plain_m (bind m f).
Proof.
  intros Hm Hf st. unfold bind.
  destruct (Hm st) as (r & st1 & new1 & -> & Ht1 & Hp1).
  destruct r as [a|e].
  - destruct (Hf a st1) as (r2 & st2 & new2 & -> & Ht2 & Hp2).
    exists r2, st2, (new1 ++ new2). repeat split.
    + now rewrite Ht2, Ht1, app_assoc.
    + now apply Forall_app.
  - exists (Raise e), st1, new1. repeat split; assumption.
Qed.

Lemma plain_try_except {A} (m : M A) (h : exn -> M A) :
  plain_m m -> (forall e, plain_m (h e)) -> plain_m (try_except m h).
Proof.
  intros Hm Hh st. unfold try_except.
  destruct (Hm st) as (r & st1 & new1 & -> & Ht1 & Hp1).
  destruct r as [a|e].
  - exists (Ok a), st1, new1. repeat split; assumption.
  - destruct (Hh e st1) as (r2 & st2 & new2 & -> & Ht2 & Hp2).
    exists r2, st2, (new1 ++ new2). repeat split.
    + now rewrite Ht2, Ht1, app_assoc.
    + now apply Forall_app.
Qed.

(** The lemmas above decide [plain_m] for the code of the engine. *)
Create HintDb plain.
#[local] Hint Resolve plain_ret plain_lift plain_call plain_bind plain_try_except
  : plain.
#[local] Hint Extern 1 (_ <> c_sync_papers_to_feishu) => discriminate : plain.

Lemma pure_ret {A} (a : A) : pure_m (ret a).
Proof. intros st. now exists (Ok a). Qed.

Lemma pure_lift {A} (r : res A) : pure_m (lift r).
Proof. intros st. now exists r. Qed.

Lemma pure_bind {A B} (m : M A) (f : A -> M B) :
  pure_m m -> (forall a, pure_m (f a)) -> pure_m (bind m f).
Proof.
  intros Hm Hf st. unfold bind. destruct (Hm st) as ([a|e] & ->).
  - apply Hf.
  - now exists (Raise e).
Qed.

Lemma pure_plain {A} (m : M A) : pure_m m -> plain_m m.
Proof.
  intros Hm st. destruct (Hm st) as (r & ->).
  exists r, st, []. rewrite app_nil_r. repeat split. constructor.
Qed.

#[local] Hint Resolve pure_ret pure_lift pure_bind : plain.

Lemma shaped_plain (m : M ProfileResult) : plain_m m -> shaped m.
Proof.
  intros Hm st. destruct (Hm st) as (r & st' & new & -> & Ht & Hp).
  exists r, st'. split; [reflexivity|]. now apply shape_plain with (new := new).
Qed.

Lemma shaped_ret r : shaped (ret r).
Proof. apply shaped_plain, plain_ret. Qed.

Lemma run_shape_prefix st st1 new1 r st2 :
  trace st1 = trace st ++ new1 ->
  Forall plain new1 ->
  run_shape st1 r st2 ->
  run_shape st r st2.
Proof.
  intros Ht1 Hp1 [r' st' new Ht Hp|r' st' pre out Ht Hp Hran].
  - apply shape_plain with (new := new1 ++ new).
    + now rewrite Ht, Ht1, app_assoc.
    + now apply Forall_app.
  - apply shape_synced with (pre := new1 ++ pre) (outcome := out); trivial.
    + now rewrite Ht, Ht1, <- !app_assoc.
    + now apply Forall_app.
Qed.

Lemma shaped_bind {A} (m : M A) (f : A -> M ProfileResult) :
  plain_m m -> (forall a, shaped (f a)) -> shaped (bind m f).
Proof.
  intros Hm Hf st. unfold bind.
  destruct (Hm st) as (r & st1 & new1 & -> & Ht1 & Hp1).
  destruct r as [a|e].
  - destruct (Hf a st1) as (r2 & st2 & -> & Hshape).
    exists r2, st2. split; [reflexivity|].
    eapply run_shape_prefix; eauto.
  - exists (Raise e), st1. split; [reflexivity|].
    now apply shape_plain with (new := new1).
Qed.

(** The sync step never raises: it sets the toggle, calls the sync where the
    toggle is set, clears the toggle, and gives the count the outcome of the
    call stands for. *)
Lemma sync_step_run ranked final_cfg st :
  exists outcome st',
    sync_step ranked final_cfg st = (Ok (synced_count_of outcome), st') /\
    trace st' = trace st ++ sync_events outcome /\
    sync_ran outcome st'.
Proof.
  unfold sync_step, settle, sync_step_any, Control.bind, total, setenv,
    Control.try_finally, Control.try_except, call_any, raising, popenv, Control.ret.
  cbn [environ world trace Control.of_res].
  destruct (sync_papers_to_feishu ranked final_cfg
              (<[BATCH_MODE:=py "1"]> (environ st)) (world st))
    as [[[v|e] env'] w'] eqn:E; cbn [environ world trace Control.of_res Control.to_res].
  - exists (Ok (Some v)). eexists. split; [|split].
    + cbn [synced_count_of]. destruct (as_int v); [reflexivity|].
      now destruct (is_True v).
    + cbn [trace event_of]. now rewrite <- !app_assoc.
    + exists ranked, final_cfg, (<[BATCH_MODE:=py "1"]> (environ st)), (world st),
        (Ok v), env'.
      split; [apply lookup_insert_eq|]. now split.
  - exists (Raise e). eexists. split; [|split].
    + reflexivity.
    + cbn [trace event_of]. now rewrite <- !app_assoc.
    + exists ranked, final_cfg, (<[BATCH_MODE:=py "1"]> (environ st)), (world st),
        (Raise e), env'.
      split; [apply lookup_insert_eq|]. now split.
Qed.

Lemma sync_ran_clear outcome st' : sync_ran outcome st' -> environ st' !! BATCH_MODE = None.
Proof.
  intros (ranked & final_cfg & env & w & r & env' & _ & _ & _ & ->).
  apply lookup_delete_eq.
Qed.

Lemma rank_and_sync_shaped name final_cfg ik ek raw req search_cfg papers :
  shaped (rank_and_sync name final_cfg ik ek raw req search_cfg papers).
Proof.
  unfold rank_and_sync.
  destruct (truthy_list ik || truthy_list ek);
    [|apply shaped_plain, pure_plain; auto with plain].
  apply shaped_bind; [apply plain_lift|]. intros intelligent_cfg.
  apply shaped_bind.
  { destruct (value_truthy _); auto with plain. }
  intros score_weights.
  apply shaped_bind; [now apply plain_call|]. intros ranked.
  destruct (truthy_list ranked && FEISHU_AVAILABLE).
  - intros st. unfold bind at 1.
    destruct (sync_step_run ranked final_cfg st) as (out & st' & -> & Ht & Hran).
    match goal with
    | |- context [?m st'] =>
        assert (Hp : pure_m m) by auto with plain; destruct (Hp st') as (r & ->)
    end.
    exists r, st'. split; [reflexivity|].
    now apply shape_synced with (pre := []) (outcome := out).
  - apply shaped_plain, pure_plain. auto with plain.
Qed.

Lemma after_retrieval_shaped name final_cfg ik ek raw req search_cfg papers :
  shaped (after_retrieval name final_cfg ik ek raw req search_cfg papers).
Proof.
  unfold after_retrieval.
  destruct (negb (truthy_list papers)); [|apply rank_and_sync_shaped].
  apply shaped_plain, pure_plain. auto with plain.
Qed.

Lemma retrieve_and_rank_shaped name final_cfg :
  shaped (retrieve_and_rank name final_cfg).
Proof.
  unfold retrieve_and_rank.
  apply shaped_bind; [apply plain_lift|]. intros download_cfg.
  apply shaped_bind; [now apply plain_call|]. intros _.
  apply shaped_bind; [now apply plain_call|]. intros _.
  apply shaped_bind; [apply plain_lift|]. intros [[[ik ek] raw] req].
  apply shaped_bind; [apply plain_lift|]. intros search_cfg.
  apply shaped_bind; [apply plain_lift|]. intros date_range_cfg.
  destruct (value_truthy _).
  - destruct (negb _); [apply shaped_plain, pure_plain; auto with plain|].
    apply shaped_bind; [now apply plain_call|]. intros papers.
    apply after_retrieval_shaped.
  - apply shaped_bind; [now apply plain_call|]. intros papers.
    apply after_retrieval_shaped.
Qed.

(** Every run of the profile runner returns a result, whatever the
    collaborators do; its record is the entry of the runner followed by one
    of the two shapes. *)
Lemma process_single_config_run name st :
  exists r st' body,
    process_single_config name st = (Ok r, st') /\
    trace st' = trace st ++ EvRun name :: body /\
    run_body st' body.
Proof.
  unfold process_single_config, bind at 1, emit, try_except.
  set (st0 := mk_state (environ st) (world st) (trace st ++ [EvRun name])).
  match goal with
  | |- context [match ?m st0 with _ => _ end] =>
      assert (Hs : shaped m)
  end.
  { apply shaped_bind; [now apply plain_call|]. intros found.
    destruct (negb found); [apply shaped_ret|].
    apply shaped_bind; [now apply plain_call|]. intros cfg.
    apply shaped_bind.
    - destruct (_ || _); [apply plain_lift|apply plain_ret].
    - intros final_cfg. apply retrieve_and_rank_shaped. }
  destruct (Hs st0) as (r & st' & -> & Hshape).
  assert (Hbody : exists body,
            trace st' = trace st ++ EvRun name :: body /\ run_body st' body).
  { destruct Hshape as [r' st'' new Ht Hp|r' st'' pre out Ht Hp Hran].
    - exists new. split; [|now left].
      rewrite Ht. cbn [trace st0]. now rewrite <- app_assoc.
    - exists (pre ++ sync_events out). split.
      + rewrite Ht. cbn [trace st0]. now rewrite <- app_assoc.
      + right. now exists pre, out. }
  destruct Hbody as (body & Ht & Hbody).
  destruct r as [res|e]; eexists _, st', body; (split; [reflexivity|now split]).
Qed.

Lemma plain_no_sync l outcome :
  Forall plain l -> EvCall c_sync_papers_to_feishu outcome ∉ l.
Proof.
  intros Hp Hin. rewrite Forall_forall in Hp.
  apply (Hp _ Hin). reflexivity.
Qed.

Lemma plain_clears l : Forall plain l -> clears l = 0.
Proof.
  unfold clears. induction 1 as [|ev l Hev _ IH]; [reflexivity|].
  simpl. destruct ev; try contradiction. exact IH.
Qed.

Lemma clears_app a b : clears (a ++ b) = clears a + clears b.
Proof. unfold clears. now rewrite List.filter_app, length_app. Qed.

(** The only sync call in the record of a run is the one of its sync step. *)
Lemma sync_call_of_body name pre outcome outcome' :
  Forall plain pre ->
  EvCall c_sync_papers_to_feishu outcome ∈ EvRun name :: pre ++ sync_events outcome' ->
  outcome = outcome'.
Proof.
  intros Hp Hin. apply elem_of_cons in Hin. destruct Hin as [Hin|Hin]; [discriminate|].
  apply elem_of_app in Hin. destruct Hin as [Hin|Hin].
  - now apply plain_no_sync in Hin.
  - unfold sync_events in Hin. rewrite !elem_of_cons in Hin.
    destruct Hin as [Hin|[Hin|[Hin|Hin]]]; try discriminate.
    + now injection Hin.
    + now apply elem_of_nil in Hin.
Qed.

Lemma sync_call_not_plain name body outcome :
  Forall plain body ->
  EvCall c_sync_papers_to_feishu outcome ∉ EvRun name :: body.
Proof.
  intros Hp Hin. apply elem_of_cons in Hin. destruct Hin as [Hin|Hin]; [discriminate|].
  now apply plain_no_sync in Hin.
Qed.

(** The run on a profile whose document does not exist: the runner asks for
    the path and returns the result of lines 58 to 67, with empty labels. *)
Lemma process_single_config_missing name st :
  path_exists (config_path_of name) (world st) = false ->
  process_single_config name st =
    (Ok (not_found_result name),
     mk_state (environ st) (world st)
       (trace st ++ [EvRun name; EvCall c_exists (Ok None)])).
Proof.
  intros Hmissing.
  unfold process_single_config, bind, emit, try_except, call, call_with, ret.
  cbn [environ world trace]. rewrite Hmissing. cbn [negb].
  now rewrite <- app_assoc.
Qed.

(** *** The aggregator and the notifier *)

Lemma runs_app a b : runs (a ++ b) = runs a ++ runs b.
Proof. apply omap_app. Qed.

Lemma plain_runs l : Forall plain l -> runs l = [].
Proof.
  induction 1 as [|ev l Hev _ IH]; [reflexivity|].
  destruct ev; try contradiction. exact IH.
Qed.

Lemma plain_no_notify l : Forall plain l -> EvNotify ∉ l.
Proof.
  intros Hp Hin. rewrite Forall_forall in Hp. exact (Hp _ Hin).
Qed.

Lemma run_body_quiet st' body :
  run_body st' body -> runs body = [] /\ EvNotify ∉ body.
Proof.
  intros [Hp|(pre & out & -> & Hp & _)].
  - split; [now apply plain_runs|now apply plain_no_notify].
  - split.
    + rewrite runs_app, (plain_runs _ Hp). reflexivity.
    + rewrite elem_of_app. intros [Hin|Hin].
      * now apply plain_no_notify in Hin.
      * unfold sync_events in Hin. rewrite !elem_of_cons in Hin.
        destruct Hin as [Hin|[Hin|[Hin|Hin]]]; try discriminate.
        now apply elem_of_nil in Hin.
Qed.

(** The loop of the aggregator runs every name once, in order, whatever the
    results are, and keeps the results and the sum of the new papers of the
    successful ones. *)
Lemma batch_loop_run names : forall all_results total successful st,
  exists rs successful' st' new,
    batch_loop names (all_results, total, successful) st =
      (Ok (all_results ++ rs, (total + sum_new rs)%Z, successful'), st') /\
    length rs = length names /\
    trace st' = trace st ++ new /\
    runs new = names /\
    EvNotify ∉ new.
Proof.
  induction names as [|name names IH]; intros all_results total successful st.
  - exists [], successful, st, []. cbn [batch_loop ret sum_new].
    rewrite !app_nil_r, Z.add_0_r. repeat split. apply not_elem_of_nil.
  - cbn [batch_loop]. unfold bind at 1. unfold batch_step, bind at 1.
    destruct (process_single_config_run name st)
      as (r & st1 & body & -> & Ht1 & Hbody).
    apply run_body_quiet in Hbody. destruct Hbody as [Hruns Hnot].
    destruct (success r) eqn:Hs; cbn [ret].
    + destruct (IH (all_results ++ [r]) (total + int_val (new_papers r))%Z
                  (successful + 1)%Z st1)
        as (rs & succ' & st' & new & -> & Hlen & Ht & Hr & Hn).
      exists (r :: rs), succ', st', (EvRun name :: body ++ new).
      cbn [sum_new length]. rewrite Hs, <- app_assoc. cbn [app].
      replace (total + (int_val (new_papers r) + sum_new rs))%Z
        with (total + int_val (new_papers r) + sum_new rs)%Z by lia.
      repeat split.
      * now rewrite Hlen.
      * rewrite Ht, Ht1, <- app_assoc. reflexivity.
      * change (EvRun name :: body ++ new) with ([EvRun name] ++ body ++ new).
        rewrite !runs_app, Hruns, Hr. reflexivity.
      * rewrite not_elem_of_cons, elem_of_app. split; [discriminate|tauto].
    + destruct (IH (all_results ++ [r]) total successful st1)
        as (rs & succ' & st' & new & -> & Hlen & Ht & Hr & Hn).
      exists (r :: rs), succ', st', (EvRun name :: body ++ new).
      cbn [sum_new length]. rewrite Hs, <- app_assoc. cbn [app].
      rewrite Z.add_0_l.
      repeat split.
      * now rewrite Hlen.
      * rewrite Ht, Ht1, <- app_assoc. reflexivity.
      * change (EvRun name :: body ++ new) with ([EvRun name] ++ body ++ new).
        rewrite !runs_app, Hruns, Hr. reflexivity.
      * rewrite not_elem_of_cons, elem_of_app. split; [discriminate|tauto].
Qed.

Lemma summary_step_plain acc result : plain_m (summary_step acc result).
Proof. unfold summary_step. destruct (qualifies result); auto with plain. Qed.

Lemma summary_loop_plain results : forall acc, plain_m (summary_loop results acc).
Proof.
  induction results as [|r rest IH]; intros acc; cbn [summary_loop];
    auto using summary_step_plain with plain.
Qed.

(** The notifier never raises; after its own entry it only makes plain
    calls. *)
Lemma send_batch_summary_notification_run results st :
  exists b st' new,
    send_batch_summary_notification results st = (Ok b, st') /\
    trace st' = trace st ++ EvNotify :: new /\
    Forall plain new.
Proof.
  unfold send_batch_summary_notification, bind at 1, emit.
  set (st0 := mk_state (environ st) (world st) (trace st ++ [EvNotify])).
  match goal with
  | |- context [try_except ?m ?h st0] => assert (Hp : plain_m (try_except m h))
  end.
  { apply plain_try_except; [|auto with plain].
    destruct (negb FEISHU_AVAILABLE); [auto with plain|].
    repeat (apply plain_bind; [auto using summary_loop_plain with plain|intros ?]).
    destruct (bool_decide _); auto with plain. }
  destruct (Hp st0) as (r & st' & new & E & Ht & Hnew).
  assert (exists b, r = Ok b) as [b ->].
  { revert E. unfold try_except.
    match goal with |- context [match ?x with _ => _ end] => destruct x as [[b|e] s] end.
    - intros [= <- _]. eauto.
    - unfold ret. intros [= <- _]. eauto. }
  exists b, st', new. split; [exact E|]. split; [|exact Hnew].
  rewrite Ht. cbn [trace st0]. now rewrite <- app_assoc.
Qed.

Lemma find_sync_configs_plain : plain_m find_sync_configs.
Proof. unfold find_sync_configs. auto with plain. Qed.

(** [process_all_configs] after a discovery that returned [names]. *)
Lemma process_all_configs_run st names st0 :
  find_sync_configs st = (Ok names, st0) ->
  exists new0,
    trace st0 = trace st ++ new0 /\ Forall plain new0 /\
    match names with
    | [] => process_all_configs st = (Ok false, st0)
    | _ :: _ =>
        exists results successful st1 new1,
          batch_loop names ([], 0%Z, 0%Z) st0 =
            (Ok (results, sum_new results, successful), st1) /\
          length results = length names /\
          trace st1 = trace st0 ++ new1 /\
          runs new1 = names /\
          (EvNotify ∉ new1) /\
          process_all_configs st =
            (if (0 <? sum_new results)%Z
             then send_batch_summary_notification results st1
             else (Ok true, st1))
    end.
Proof.
  intros Hfind.
  destruct (find_sync_configs_plain st) as (r & st' & new0 & E & Ht0 & Hp0).
  rewrite Hfind in E. injection E as <- <-.
  exists new0. split; [exact Ht0|]. split; [exact Hp0|].
  unfold process_all_configs, try_except, bind. rewrite Hfind.
  destruct names as [|name names]; [reflexivity|].
  cbn [truthy_list negb].
  destruct (batch_loop_run (name :: names) [] 0%Z 0%Z st0)
    as (rs & succ & st1 & new1 & Hloop & Hlen & Ht1 & Hr & Hn).
  cbn [app] in Hloop. rewrite Z.add_0_l in Hloop.
  exists rs, succ, st1, new1. rewrite Hloop. repeat split; trivial.
  destruct (0 <? sum_new rs)%Z; [|reflexivity].
  destruct (send_batch_summary_notification_run rs st1)
    as (b & st2 & new2 & -> & _). reflexivity.
Qed.

(** ** The claims on the aggregator *)

(** C7: after a discovery that returned [names], the aggregator returns, and
    the runner entries of its record are exactly [names], each once and in
    this order, whatever the results of the runs; with no name discovered
    there is no runner entry and the aggregator returns [False]. *)
Theorem every_discovered_profile_is_run_once
    (st : state) (names : list pystr) (st0 : state) :
  find_sync_configs st = (Ok names, st0) ->
  exists b st' new,
    process_all_configs st = (Ok b, st') /\
    trace st' = trace st ++ new /\
    runs new = names /\
    (names = [] -> b = false).
Proof.
  intros Hfind.
  destruct (process_all_configs_run _ _ _ Hfind) as (new0 & Ht0 & Hp0 & H).
  destruct names as [|name names].
  - exists false, st0, new0. split; [exact H|]. split; [exact Ht0|].
    split; [now apply plain_runs|reflexivity].
  - destruct H as (rs & succ & st1 & new1 & _ & _ & Ht1 & Hr & _ & ->).
    destruct (0 <? sum_new rs)%Z.
    + destruct (send_batch_summary_notification_run rs st1)
        as (b & st2 & new2 & -> & Ht2 & Hp2).
      exists b, st2, (new0 ++ new1 ++ EvNotify :: new2).
      split; [reflexivity|]. split; [|split; [|discriminate]].
      * rewrite Ht2, Ht1, Ht0, <- !app_assoc. reflexivity.
      * change (EvNotify :: new2) with ([EvNotify] ++ new2).
        rewrite !runs_app, (plain_runs _ Hp0), (plain_runs _ Hp2), Hr.
        cbn [runs omap app]. now rewrite app_nil_r.
    + exists true, st1, (new0 ++ new1).
      split; [reflexivity|]. split; [|split; [|discriminate]].
      * rewrite Ht1, Ht0, <- app_assoc. reflexivity.
      * rewrite runs_app, (plain_runs _ Hp0), Hr. reflexivity.
Qed.

(** C8: after a discovery that returned a non-empty [names], with [results]
    the results of the runs, the aggregator enters the summary notifier if
    and only if the sum of [new_papers] over the successful results is
    positive; when it is not, the aggregator returns [True] right after the
    runs. *)
Theorem notifier_runs_iff_new_papers
    (st : state) (names : list pystr) (st0 : state) :
  find_sync_configs st = (Ok names, st0) ->
  names <> [] ->
  exists results successful st1 b st' new,
    batch_loop names ([], 0%Z, 0%Z) st0 =
      (Ok (results, sum_new results, successful), st1) /\
    length results = length names /\
    process_all_configs st = (Ok b, st') /\
    trace st' = trace st ++ new /\
    (EvNotify ∈ new <-> (0 < sum_new results)%Z) /\
    ((sum_new results <= 0)%Z -> b = true /\ st' = st1).
Proof.
  intros Hfind Hne.
  destruct (process_all_configs_run _ _ _ Hfind) as (new0 & Ht0 & Hp0 & H).
  destruct names as [|name names]; [congruence|].
  destruct H as (rs & succ & st1 & new1 & Hloop & Hlen & Ht1 & Hr & Hn & ->).
  exists rs, succ, st1.
  destruct (0 <? sum_new rs)%Z eqn:Hpos.
  - apply Z.ltb_lt in Hpos.
    destruct (send_batch_summary_notification_run rs st1)
      as (b & st2 & new2 & -> & Ht2 & Hp2).
    exists b, st2, (new0 ++ new1 ++ EvNotify :: new2).
    split; [exact Hloop|]. split; [exact Hlen|]. split; [reflexivity|].
    split; [rewrite Ht2, Ht1, Ht0, <- !app_assoc; reflexivity|].
    split; [|lia]. split; [intros _; exact Hpos|]. intros _.
    rewrite !elem_of_app. right. right. apply list_elem_of_here.
  - apply Z.ltb_ge in Hpos.
    exists true, st1, (new0 ++ new1).
    split; [exact Hloop|]. split; [exact Hlen|]. split; [reflexivity|].
    split; [rewrite Ht1, Ht0, <- app_assoc; reflexivity|].
    split; [|intros _; split; reflexivity].
    split; [|lia]. rewrite elem_of_app. intros [Hin|Hin].
    + now apply plain_no_notify in Hin.
    + contradiction.
Qed.

(** ** The claim on the summary notifier *)

Lemma summary_loop_stats results : forall acc st t st' label,
  summary_loop results acc st = (Ok t, st') ->
  update_stats t !! label =
    match last (List.filter (enters label) results) with
    | Some result => Some (stats_of result)
    | None => update_stats acc !! label
    end.
Proof.
  induction results as [|r rest IH]; intros acc st t st' label.
  - cbn [summary_loop ret]. now intros [= <- _].
  - cbn [summary_loop]. unfold bind at 1.
    destruct (summary_step acc r st) as [[acc'|e] st1] eqn:Estep; [|discriminate].
    intros Hloop. rewrite (IH _ _ _ _ label Hloop). clear IH Hloop.
    cbn [List.filter]. unfold enters at 2.
    unfold summary_step in Estep.
    destruct (qualifies r) eqn:Hq.
    + unfold bind, call, call_with, ret in Estep.
      destruct (generate_table_link (table_name r) (environ st) (world st))
        as [[[link|e] env'] w']; [|discriminate].
      injection Estep as <- _. cbn [update_stats andb].
      destruct (bool_decide (field_name_of r = label)) eqn:Hl.
      * apply bool_decide_eq_true in Hl. rewrite last_cons.
        destruct (last (List.filter (enters label) rest)); [reflexivity|].
        rewrite Hl. apply lookup_insert_eq.
      * apply bool_decide_eq_false in Hl.
        destruct (last (List.filter (enters label) rest)); [reflexivity|].
        now apply lookup_insert_ne.
    + injection Estep as <- _. reflexivity.
Qed.

(** The loop completes whenever no link request raises. *)
Lemma summary_loop_returns results :
  (forall name env w, exists link env' w',
     generate_table_link name env w = (Ok link, env', w')) ->
  forall acc st, exists t st', summary_loop results acc st = (Ok t, st').
Proof.
  intros Hlink. induction results as [|r rest IH]; intros acc st.
  - eexists _, _. reflexivity.
  - cbn [summary_loop]. unfold bind at 1, summary_step.
    destruct (qualifies r).
    + unfold bind, call, call_with, ret.
      destruct (Hlink (table_name r) (environ st) (world st))
        as (link & env' & w' & ->).
      apply IH.
    + apply IH.
Qed.


(** ** Further properties of the engine *)

(** [obeys Phi m]: from every state [m] ends, and what it adds to the record
    and how it ends satisfy [Phi]. *)
Definition obeys {A} (Phi : list event -> res A -> Prop) (m : M A) : Prop :=
  forall st, exists r st' new,
    m st = (r, st') /\ trace st' = trace st ++ new /\ Phi new r.

(** The callees of a record, in order. *)
Definition callees (l : list event) : list callee :=
  omap (fun ev => match ev with EvCall c _ => Some c | _ => None end) l.

(** The calls of the runner on one profile, in order, with [retrieval] one
    of the two retrievals. *)
Definition pipeline (retrieval : callee) : list callee :=
  [ c_exists; c_load_yaml; c_ArxivAPI; c_PaperRanker; retrieval;
    c_filter_and_rank_papers; c_sync_papers_to_feishu ].

(** In a record, a call that raised is the last call. *)
Fixpoint raise_is_last (l : list event) : Prop :=
  match l with
  | [] => True
  | EvCall _ (Raise _) :: rest => callees rest = []
  | _ :: rest => raise_is_last rest
  end.

(** What every result of the runner satisfies. *)
Definition sound_result (name : pystr) (r : ProfileResult) : Prop :=
  config_name r = name /\
  (0 <= int_val (new_papers r))%Z /\
  (0 <= total_papers r)%Z /\
  length (ranked_papers r) <= 1 /\
  (success r = true -> error r = None) /\
  (success r = false ->
   error r <> None /\ new_papers r = PInt 0 /\ total_papers r = 0%Z /\
   ranked_papers r = []) /\
  (ranked_papers r <> [] -> (0 < total_papers r)%Z) /\
  (new_papers r <> PInt 0 -> ranked_papers r <> []).

Lemma obeys_weaken {A} (Phi Psi : list event -> res A -> Prop) m :
  obeys Phi m -> (forall n r, Phi n r -> Psi n r) -> obeys Psi m.
Proof.
  intros Hm Himp st. destruct (Hm st) as (r & st' & new & E & Ht & H).
  exists r, st', new. auto.
Qed.

Lemma obeys_ret {A} (Phi : list event -> res A -> Prop) a :
  Phi [] (Ok a) -> obeys Phi (ret a).
Proof.
  intros H st. exists (Ok a), st, []. rewrite app_nil_r. auto.
Qed.

Lemma obeys_bind {A B} (Phi1 : list event -> res A -> Prop)
    (Phi2 : A -> list event -> res B -> Prop)
    (Phi : list event -> res B -> Prop) (m : M A) (f : A -> M B) :
  obeys Phi1 m ->
  (forall a, obeys (Phi2 a) (f a)) ->
  (forall n1 a n2 r, Phi1 n1 (Ok a) -> Phi2 a n2 r -> Phi (n1 ++ n2) r) ->
  (forall n e, Phi1 n (Raise e) -> Phi n (Raise e)) ->
  obeys Phi (bind m f).
Proof.
  intros Hm Hf Hok Hraise st. unfold bind.
  destruct (Hm st) as (r & st1 & n1 & -> & Ht1 & H1).
  destruct r as [a|e].
  - destruct (Hf a st1) as (r2 & st2 & n2 & -> & Ht2 & H2).
    exists r2, st2, (n1 ++ n2). split; [reflexivity|]. split.
    + now rewrite Ht2, Ht1, app_assoc.
    + eauto.
  - exists (Raise e), st1, n1. auto.
Qed.

(** A call, then the rest: the property is asked of the call alone when it
    raises, and of the rest after the call when it returns. *)
Lemma obeys_call_bind {A B} (view : A -> option value) c (f : ext A)
    (k : A -> M B) (Phi : list event -> res B -> Prop) :
  (forall e, Phi [EvCall c (Raise e)] (Raise e)) ->
  (forall a, obeys (fun n r => Phi (EvCall c (Ok (view a)) :: n) r) (k a)) ->
  obeys Phi (bind (call_with view c f) k).
Proof.
  intros Hraise Hk st. unfold bind, call_with.
  destruct (f (environ st) (world st)) as [[[a|e] env'] w'].
  - destruct (Hk a (mk_state env' w' (trace st ++ [EvCall c (Ok (view a))])))
      as (r & st' & n & -> & Ht & H).
    exists r, st', (EvCall c (Ok (view a)) :: n). split; [reflexivity|].
    split; [|exact H]. rewrite Ht. cbn [trace]. now rewrite <- app_assoc.
  - eexists _, _, _. split; [reflexivity|]. split; [reflexivity|]. apply Hraise.
Qed.

Lemma obeys_emit_bind {B} ev (k : unit -> M B) (Phi : list event -> res B -> Prop) :
  obeys (fun n r => Phi (ev :: n) r) (k tt) ->
  obeys Phi (bind (emit ev) k).
Proof.
  intros Hk st. unfold bind, emit.
  destruct (Hk (mk_state (environ st) (world st) (trace st ++ [ev])))
    as (r & st' & n & -> & Ht & H).
  exists r, st', (ev :: n). split; [reflexivity|]. split; [|exact H].
  rewrite Ht. cbn [trace]. now rewrite <- app_assoc.
Qed.

Lemma obeys_lift_bind {A B} (x : res A) (k : A -> M B)
    (Phi : list event -> res B -> Prop) :
  (forall e, x = Raise e -> Phi [] (Raise e)) ->
  (forall a, x = Ok a -> obeys Phi (k a)) ->
  obeys Phi (bind (lift x) k).
Proof.
  intros Hraise Hk st. unfold bind, lift. destruct x as [a|e].
  - exact (Hk a eq_refl st).
  - exists (Raise e), st, []. rewrite app_nil_r. auto.
Qed.

Lemma obeys_try_except {A} (m : M A) (h : exn -> A)
    (Phi' Phi : list event -> res A -> Prop) :
  obeys Phi' m ->
  (forall n a, Phi' n (Ok a) -> Phi n (Ok a)) ->
  (forall n e, Phi' n (Raise e) -> Phi n (Ok (h e))) ->
  obeys Phi (try_except m (fun e => ret (h e))).
Proof.
  intros Hm Hok Hraise st. unfold try_except, ret.
  destruct (Hm st) as (r & st' & n & -> & Ht & H).
  destruct r as [a|e]; eexists _, st', n; eauto.
Qed.

(** The sync step ends with a count and adds its three events. *)
Lemma sync_step_obeys ranked final_cfg :
  obeys (fun n r => exists outcome,
           n = sync_events outcome /\ r = Ok (synced_count_of outcome))
    (sync_step ranked final_cfg).
Proof.
  intros st.
  destruct (sync_step_run ranked final_cfg st) as (out & st' & E & Ht & _).
  eexists _, st', _. split; [exact E|]. split; [exact Ht|]. eauto.
Qed.

Lemma py_max_zero_nonneg c : (0 <= int_val (py_max c (PInt 0)))%Z.
Proof.
  unfold py_max. destruct (int_val c <? int_val (PInt 0))%Z eqn:E.
  - reflexivity.
  - apply Z.ltb_ge in E. exact E.
Qed.

Lemma len_nonneg {A} (l : list A) : (0 <= len l)%Z.
Proof. unfold len. lia. Qed.

Lemma len_pos {A} (l : list A) : l <> [] -> (0 < len l)%Z.
Proof. unfold len. destruct l; [congruence|]. simpl. lia. Qed.

Lemma take_one_length {A} (l : list A) : length (take 1 l) <= 1.
Proof. destruct l as [|a [|b l]]; simpl; lia. Qed.

Lemma take_one_nil {A} (l : list A) : take 1 l <> [] -> l <> [].
Proof. now destruct l. Qed.

Lemma obeys_bind_ret {A B} (Phi1 : list event -> res A -> Prop)
    (Phi : list event -> res B -> Prop) (m : M A) (g : A -> B) :
  obeys Phi1 m ->
  (forall n a, Phi1 n (Ok a) -> Phi n (Ok (g a))) ->
  (forall n e, Phi1 n (Raise e) -> Phi n (Raise e)) ->
  obeys Phi (bind m (fun a => ret (g a))).
Proof.
  intros Hm Hok Hraise st. unfold bind, ret.
  destruct (Hm st) as (r & st' & n & -> & Ht & H).
  destruct r as [a|e]; eexists _, st', n; eauto.
Qed.

Lemma obeys_ret_bind {A B} (a : A) (k : A -> M B)
    (Phi : list event -> res B -> Prop) :
  obeys Phi (k a) -> obeys Phi (bind (ret a) k).
Proof. intros H st. exact (H st). Qed.

(** A call of a collaborator after the record [pre], then the rest. *)
Lemma obeys_call_after {A B} (P : list event -> res B -> Prop) pre
    (view : A -> option value) c (f : ext A) (k : A -> M B) :
  (forall e, P (pre ++ [EvCall c (Raise e)]) (Raise e)) ->
  (forall a, obeys (fun n r => P ((pre ++ [EvCall c (Ok (view a))]) ++ n) r) (k a)) ->
  obeys (fun n r => P (pre ++ n) r) (bind (call_with view c f) k).
Proof.
  intros Hraise Hk. apply obeys_call_bind; [exact Hraise|].
  intros a. eapply obeys_weaken; [apply Hk|].
  intros n r H. cbn beta in *. now rewrite <- app_assoc in H.
Qed.

(** *** The kinds of run of the profile runner *)

(** The record of calls that all returned. *)
Definition returned (cs : list callee) : list event :=
  List.map (fun c => EvCall c (Ok None)) cs.

(** The calls every run begins with. *)
Definition first_calls : list callee :=
  [c_exists; c_load_yaml; c_ArxivAPI; c_PaperRanker].

Definition is_retrieval (c : callee) : Prop :=
  c = c_get_papers_by_date_range \/ c = c_get_recent_papers.

(** The fields of a result other than its two labels. *)
Definition fields (r : ProfileResult) (name : pystr) (ok : bool)
    (err : option error_text) (new : pyint) (total : Z) (ranked : list Paper)
  : Prop :=
  config_name r = name /\ success r = ok /\ error r = err /\
  new_papers r = new /\ total_papers r = total /\ ranked_papers r = ranked.

(** [f] can return [a]. *)
Definition gives {A} (f : ext A) (a : A) : Prop :=
  exists env w env' w', f env w = (Ok a, env', w').

(** What the body of the runner, inside its handler, adds to the record and
    how it ends: the document is missing; a call raises; a read of the
    configuration, or the merge, raises after calls that returned; the start
    date is missing; the retrieval is the last call; the ranking is the last
    call; the sync step runs; the sync step runs and the labels of the
    result cannot be read, under the condition [unreadable]. *)
Inductive run_kind (name : pystr) (unreadable : Prop)
  : list event -> res ProfileResult -> Prop :=
| kind_missing :
    run_kind name unreadable (returned [c_exists]) (Ok (not_found_result name))
| kind_raised retrieval cs c e :
    is_retrieval retrieval ->
    cs ++ [c] `prefix_of` first_calls ++ [retrieval; c_filter_and_rank_papers] ->
    run_kind name unreadable (returned cs ++ [EvCall c (Raise e)]) (Raise e)
| kind_read_raised retrieval cs e :
    is_retrieval retrieval ->
    cs `prefix_of` first_calls ++ [retrieval; c_filter_and_rank_papers] ->
    run_kind name unreadable (returned cs) (Raise e)
| kind_no_start_date r :
    fields r name false (Some (Message msg_start_date_needed)) (PInt 0) 0 [] ->
    run_kind name unreadable (returned first_calls) (Ok r)
| kind_unranked retrieval r :
    is_retrieval retrieval ->
    fields r name true None (PInt 0) (total_papers r) [] ->
    (0 <= total_papers r)%Z ->
    run_kind name unreadable (returned (first_calls ++ [retrieval])) (Ok r)
| kind_unsynced retrieval ranked r :
    is_retrieval retrieval ->
    ranked = [] \/ FEISHU_AVAILABLE = false ->
    fields r name true None (PInt 0) (len ranked) (take 1 ranked) ->
    run_kind name unreadable
      (returned (first_calls ++ [retrieval; c_filter_and_rank_papers])) (Ok r)
| kind_synced retrieval ranked outcome r :
    is_retrieval retrieval ->
    ranked <> [] ->
    FEISHU_AVAILABLE = true ->
    fields r name true None (py_max (synced_count_of outcome) (PInt 0))
      (len ranked) (take 1 ranked) ->
    run_kind name unreadable
      (returned (first_calls ++ [retrieval; c_filter_and_rank_papers])
       ++ sync_events outcome) (Ok r)
| kind_unlabelled retrieval outcome e :
    is_retrieval retrieval ->
    FEISHU_AVAILABLE = true ->
    unreadable ->
    run_kind name unreadable
      (returned (first_calls ++ [retrieval; c_filter_and_rank_papers])
       ++ sync_events outcome) (Raise e).

Lemma run_kind_mono name (U U' : Prop) body x :
  (U -> U') -> run_kind name U body x -> run_kind name U' body x.
Proof.
  intros HU H. destruct H;
    [ apply kind_missing | eapply kind_raised | eapply kind_read_raised
    | apply kind_no_start_date | apply kind_unranked | eapply kind_unsynced
    | eapply kind_synced | apply kind_unlabelled ]; eauto.
Qed.

Lemma is_retrieval_date_range : is_retrieval c_get_papers_by_date_range.
Proof. now left. Qed.

Lemma is_retrieval_recent : is_retrieval c_get_recent_papers.
Proof. now right. Qed.

(** A computation that leaves the state as it is, then the rest. *)
Lemma obeys_pure_bind {A B} (m : M A) (k : A -> M B)
    (Phi : list event -> res B -> Prop) :
  pure_m m ->
  (forall e, Phi [] (Raise e)) ->
  (forall a, obeys Phi (k a)) ->
  obeys Phi (bind m k).
Proof.
  intros Hm Hraise Hk st. unfold bind. destruct (Hm st) as ([a|e] & ->).
  - apply Hk.
  - exists (Raise e), st, []. rewrite app_nil_r. auto.
Qed.

(** A call of a collaborator after the record [pre], then the rest after a
    value the collaborator can return. *)
Lemma obeys_call_gives {A B} (P : list event -> res B -> Prop) pre
    (view : A -> option value) c (f : ext A) (k : A -> M B) :
  (forall e, P (pre ++ [EvCall c (Raise e)]) (Raise e)) ->
  (forall a, gives f a ->
     obeys (fun n r => P ((pre ++ [EvCall c (Ok (view a))]) ++ n) r) (k a)) ->
  obeys (fun n r => P (pre ++ n) r) (bind (call_with view c f) k).
Proof.
  intros Hraise Hk st. unfold bind, call_with.
  destruct (f (environ st) (world st)) as [[[a|e] env'] w'] eqn:E.
  - assert (Hg : gives f a) by (now exists (environ st), (world st), env', w').
    destruct (Hk a Hg (mk_state env' w' (trace st ++ [EvCall c (Ok (view a))])))
      as (r & st' & n & -> & Ht & H).
    exists r, st', (EvCall c (Ok (view a)) :: n). split; [reflexivity|].
    split; [|now rewrite <- app_assoc in H].
    rewrite Ht. cbn [trace]. now rewrite <- app_assoc.
  - eexists _, _, _. split; [reflexivity|]. split; [reflexivity|]. apply Hraise.
Qed.

(** The labels are read from the user profile: when one of them cannot be
    read, the name of the profile cannot. *)
Lemma research_area_unreadable (final_cfg : document) name e :
  research_area_of final_cfg name = Raise e -> labels_readable final_cfg = false.
Proof.
  unfold research_area_of, labels_readable, profile_name_of, py_get.
  now destruct (mapping_of (user_profile_of final_cfg)).
Qed.

Lemma table_name_of_unreadable (final_cfg : dict) e :
  table_name_of final_cfg = Raise e -> labels_readable final_cfg = false.
Proof.
  unfold table_name_of, labels_readable. now destruct (profile_name_of final_cfg).
Qed.

Lemma table_name_early_unreadable (final_cfg : dict) e :
  table_name_early final_cfg = Raise e -> labels_readable final_cfg = false.
Proof.
  unfold table_name_early, labels_readable. now destruct (profile_name_of final_cfg).
Qed.

(** The research area read for a result is the string the document holds,
    or the default. *)
Lemma research_area_is_read (final_cfg : document) name :
  py_get (py "research_area") (VStr (area_of_name name)) (user_profile_of final_cfg)
  = (area <~ research_area_of final_cfg name ;; Ok (VStr area)).
Proof.
  unfold research_area_of, py_get, user_profile_of, get.
  pose proof (area_typed final_cfg) as Ht. unfold area_entry in Ht.
  destruct (assoc (py "user_profile") (body final_cfg)) as [[ | | | | | |up]|];
    try reflexivity.
  cbn [mapping_of res_bind].
  now destruct (assoc (py "research_area") up) as [[ | | | | | | ]|].
Qed.

(** The reads of the two labels, then the result built from them. *)
Lemma labels_obey {A} (final_cfg : document) name (table : res pystr)
    (k : pystr -> pystr -> A) (Phi : list event -> res A -> Prop) :
  (forall e, table = Raise e -> labels_readable final_cfg = false) ->
  (forall area table_name, Phi [] (Ok (k area table_name))) ->
  (forall e, labels_readable final_cfg = false -> Phi [] (Raise e)) ->
  obeys Phi (research_area <- lift (research_area_of final_cfg name) ;;
             table_name <- lift table ;;
             ret (k research_area table_name)).
Proof.
  intros Htable Hok Hraise. apply obeys_lift_bind.
  - intros e He. apply Hraise. now apply research_area_unreadable in He.
  - intros area _. apply obeys_lift_bind.
    + intros e He. apply Hraise. now apply Htable in He.
    + intros table_name _. apply obeys_ret. apply Hok.
Qed.

#[local] Ltac prefix_of_pipeline :=
  unfold first_calls; cbn [app]; now eexists.

Lemma rank_and_sync_kind name (final_cfg : document) ik ek raw req search_cfg papers retrieval :
  is_retrieval retrieval ->
  obeys (fun n r => run_kind name (labels_readable final_cfg = false)
                      (returned (first_calls ++ [retrieval]) ++ n) r)
    (rank_and_sync name final_cfg ik ek raw req search_cfg papers).
Proof.
  intros Hr. unfold rank_and_sync.
  assert (Hread : forall e,
            run_kind name (labels_readable final_cfg = false)
              (returned (first_calls ++ [retrieval]) ++ []) (Raise e)).
  { intros e. rewrite app_nil_r. apply (kind_read_raised _ _ retrieval _ e Hr).
    prefix_of_pipeline. }
  destruct (truthy_list ik || truthy_list ek).
  - apply obeys_lift_bind; [intros e _; apply Hread|]. intros intelligent_cfg _.
    apply obeys_pure_bind; [destruct (value_truthy _); auto with plain|exact Hread|].
    intros score_weights.
    apply (obeys_call_after (run_kind name (labels_readable final_cfg = false))).
    + intros e.
      apply (kind_raised _ _ retrieval (first_calls ++ [retrieval])
               c_filter_and_rank_papers e Hr).
      now exists [].
    + intros ranked. destruct (truthy_list ranked && FEISHU_AVAILABLE) eqn:Hc.
      * apply andb_true_iff in Hc. destruct Hc as [Hne Hf].
        eapply obeys_bind with
          (Phi2 := fun count n r =>
                     n = [] /\
                     ((exists x, r = Ok x /\
                         fields x name true None (py_max count (PInt 0))
                           (len ranked) (take 1 ranked)) \/
                      (exists e, r = Raise e /\ labels_readable final_cfg = false)));
          [apply sync_step_obeys| | |].
        -- intros count.
           apply (labels_obey final_cfg name (table_name_of final_cfg)
                    (fun area table_name =>
                       {| config_name := name; success := true; error := None;
                          new_papers := py_max count (PInt 0);
                          total_papers := len ranked;
                          research_area := area; table_name := table_name;
                          ranked_papers := take 1 ranked |})).
           ++ apply table_name_of_unreadable.
           ++ intros area table_name. split; [reflexivity|]. left.
              eexists. split; [reflexivity|]. now repeat split.
           ++ intros e He. split; [reflexivity|]. right. now exists e.
        -- intros n1 count n2 r (out & -> & [= ->]) (-> & Hres). rewrite app_nil_r.
           destruct Hres as [(x & -> & F)|(e & -> & Hu)].
           ++ apply (kind_synced _ _ retrieval ranked out _ Hr);
                [now destruct ranked|exact Hf|exact F].
           ++ now apply (kind_unlabelled _ _ retrieval out e Hr).
        -- intros n e (out & _ & [=]).
      * apply obeys_ret_bind.
        apply (labels_obey final_cfg name (table_name_of final_cfg)
                 (fun area table_name =>
                    {| config_name := name; success := true; error := None;
                       new_papers := py_max (PInt 0) (PInt 0);
                       total_papers := len ranked;
                       research_area := area; table_name := table_name;
                       ranked_papers := take 1 ranked |})).
        -- apply table_name_of_unreadable.
        -- intros area table_name. rewrite app_nil_r.
           apply (kind_unsynced _ _ retrieval ranked _ Hr); [|now repeat split].
           apply andb_false_iff in Hc. destruct Hc as [Hc|Hc]; [left|now right].
           now destruct ranked.
        -- intros e _. rewrite app_nil_r.
           apply (kind_read_raised _ _ retrieval
                    (first_calls ++ [retrieval; c_filter_and_rank_papers]) e Hr).
           now exists [].
  - apply (labels_obey final_cfg name (table_name_of final_cfg)
             (fun area table_name =>
                {| config_name := name; success := true; error := None;
                   new_papers := PInt 0; total_papers := len papers;
                   research_area := area; table_name := table_name;
                   ranked_papers := [] |})).
    + apply table_name_of_unreadable.
    + intros area table_name. rewrite app_nil_r.
      apply (kind_unranked _ _ retrieval _ Hr); [now repeat split|].
      apply len_nonneg.
    + intros e _. apply Hread.
Qed.

Lemma after_retrieval_kind name (final_cfg : document) ik ek raw req search_cfg papers retrieval :
  is_retrieval retrieval ->
  obeys (fun n r => run_kind name (labels_readable final_cfg = false)
                      (returned (first_calls ++ [retrieval]) ++ n) r)
    (after_retrieval name final_cfg ik ek raw req search_cfg papers).
Proof.
  intros Hr. unfold after_retrieval.
  destruct (negb (truthy_list papers)); [|now apply rank_and_sync_kind].
  apply (labels_obey final_cfg name (table_name_early final_cfg)
           (fun area table_name =>
              {| config_name := name; success := true; error := None;
                 new_papers := PInt 0; total_papers := 0;
                 research_area := area; table_name := table_name;
                 ranked_papers := [] |})).
  - apply table_name_early_unreadable.
  - intros area table_name. rewrite app_nil_r.
    apply (kind_unranked _ _ retrieval _ Hr); [now repeat split|reflexivity].
  - intros e _. rewrite app_nil_r.
    apply (kind_read_raised _ _ retrieval _ e Hr). prefix_of_pipeline.
Qed.

Lemma retrieve_and_rank_kind name (final_cfg : document) :
  obeys (fun n r => run_kind name (labels_readable final_cfg = false)
                      (returned [c_exists; c_load_yaml] ++ n) r)
    (retrieve_and_rank name final_cfg).
Proof.
  set (U := labels_readable final_cfg = false).
  unfold retrieve_and_rank.
  apply obeys_lift_bind.
  { intros e _. rewrite app_nil_r.
    apply (kind_read_raised _ _ c_get_recent_papers [c_exists; c_load_yaml] e
             is_retrieval_recent).
    prefix_of_pipeline. }
  intros download_cfg _.
  apply (obeys_call_after (run_kind name U)).
  { intros e. apply (kind_raised _ _ c_get_recent_papers
                       [c_exists; c_load_yaml] c_ArxivAPI e is_retrieval_recent).
    prefix_of_pipeline. }
  intros _. apply (obeys_call_after (run_kind name U)).
  { intros e. apply (kind_raised _ _ c_get_recent_papers
                       [c_exists; c_load_yaml; c_ArxivAPI] c_PaperRanker e
                       is_retrieval_recent).
    prefix_of_pipeline. }
  intros _.
  assert (Hread : forall e, run_kind name U (returned first_calls ++ []) (Raise e)).
  { intros e. rewrite app_nil_r.
    apply (kind_read_raised _ _ c_get_recent_papers first_calls e is_retrieval_recent).
    prefix_of_pipeline. }
  change (((returned [c_exists; c_load_yaml] ++ [EvCall c_ArxivAPI (Ok None)])
           ++ [EvCall c_PaperRanker (Ok None)])) with (returned first_calls).
  apply obeys_lift_bind; [intros e _; apply Hread|]. intros [[[ik ek] raw] req] _.
  apply obeys_lift_bind; [intros e _; apply Hread|]. intros search_cfg _.
  apply obeys_lift_bind; [intros e _; apply Hread|]. intros date_range_cfg _.
  destruct (value_truthy _).
  - destruct (negb _).
    + apply (labels_obey final_cfg name (table_name_early final_cfg)
               (fun area table_name =>
                  {| config_name := name; success := false;
                     error := Some (Message msg_start_date_needed);
                     new_papers := PInt 0; total_papers := 0;
                     research_area := area; table_name := table_name;
                     ranked_papers := [] |})).
      * apply table_name_early_unreadable.
      * intros area table_name. rewrite app_nil_r.
        apply (kind_no_start_date name). now repeat split.
      * intros e _. apply Hread.
    + apply (obeys_call_after (run_kind name U)).
      * intros e. apply (kind_raised _ _ c_get_papers_by_date_range
                           first_calls c_get_papers_by_date_range e
                           is_retrieval_date_range).
        prefix_of_pipeline.
      * intros papers.
        apply (after_retrieval_kind _ _ _ _ _ _ _ _ _ is_retrieval_date_range).
  - apply (obeys_call_after (run_kind name U)).
    + intros e. apply (kind_raised _ _ c_get_recent_papers
                         first_calls c_get_recent_papers e is_retrieval_recent).
      prefix_of_pipeline.
    + intros papers.
      apply (after_retrieval_kind _ _ _ _ _ _ _ _ _ is_retrieval_recent).
Qed.

(** The result the handler of the runner makes of the way its body ended. *)
Definition handled (name : pystr) (x : res ProfileResult) : ProfileResult :=
  match x with
  | Ok r => r
  | Raise e => exception_result name e
  end.

(** The document of the profile [name] can be loaded with a name that
    cannot be read for a table name. *)
Definition label_unreadable (name : pystr) : Prop :=
  exists cfg : document,
    gives (load_yaml (config_path_of name)) cfg /\ labels_readable cfg = false.

Lemma merge_document_body (cfg final_cfg : document) :
  merge_document cfg = Ok final_cfg ->
  Merger.merge_configs base_cfg cfg = Ok (body final_cfg).
Proof.
  unfold merge_document. generalize (merged_area_typed cfg).
  destruct (Merger.merge_configs base_cfg cfg) as [merged|e]; intros H [= <-].
  reflexivity.
Qed.

(** The merge does not change whether the labels can be read. *)
Lemma merge_document_labels (cfg final_cfg : document) :
  merge_document cfg = Ok final_cfg ->
  labels_readable final_cfg = labels_readable cfg.
Proof.
  intros H. apply merge_document_body, merged_user_profile in H.
  unfold labels_readable, profile_name_of, user_profile_of, get. now rewrite H.
Qed.

(** Every run of the runner is of one of the kinds, and returns what its
    handler makes of it. *)
Lemma process_single_config_kind name st :
  exists x st' body,
    process_single_config name st = (Ok (handled name x), st') /\
    trace st' = trace st ++ EvRun name :: body /\
    run_kind name (label_unreadable name) body x.
Proof.
  set (U := label_unreadable name).
  assert (H : obeys (fun n r => exists x body,
                       n = EvRun name :: body /\ r = Ok (handled name x) /\
                       run_kind name U body x)
                (process_single_config name)).
  { unfold process_single_config. apply obeys_emit_bind.
    apply obeys_try_except
      with (Phi' := fun n r => run_kind name U ([] ++ n) r).
    - apply (obeys_call_after (run_kind name U)).
      + intros e. apply (kind_raised _ _ c_get_recent_papers [] c_exists e
                           is_retrieval_recent).
        prefix_of_pipeline.
      + intros found. destruct (negb found).
        * apply obeys_ret. rewrite app_nil_r. apply kind_missing.
        * apply (obeys_call_gives (run_kind name U)).
          -- intros e. apply (kind_raised _ _ c_get_recent_papers [c_exists]
                                c_load_yaml e is_retrieval_recent).
             prefix_of_pipeline.
          -- intros cfg Hcfg.
             destruct (has_key (py "search_config") (body cfg)
                       || has_key (py "user_profile") (body cfg)).
             ++ apply obeys_lift_bind.
                ** intros e _. rewrite app_nil_r.
                   apply (kind_read_raised _ _ c_get_recent_papers
                            [c_exists; c_load_yaml] e is_retrieval_recent).
                   prefix_of_pipeline.
                ** intros final_cfg Hm.
                   eapply obeys_weaken; [apply retrieve_and_rank_kind|].
                   intros n r. apply run_kind_mono. intros Hu. exists cfg.
                   split; [exact Hcfg|].
                   now rewrite <- (merge_document_labels _ _ Hm).
             ++ apply obeys_ret_bind.
                eapply obeys_weaken; [apply retrieve_and_rank_kind|].
                intros n r. apply run_kind_mono. intros Hu. now exists cfg.
    - intros n a H. exists (Ok a), n. auto.
    - intros n e H. exists (Raise e), n. auto. }
  destruct (H st) as (r & st' & n & E & Ht & x & body & -> & -> & Hk).
  now exists x, st', body.
Qed.

Lemma callees_returned cs : callees (returned cs) = cs.
Proof. induction cs as [|c cs IH]; [reflexivity|]. cbn. now f_equal. Qed.

Lemma callees_app a b : callees (a ++ b) = callees a ++ callees b.
Proof. apply omap_app. Qed.

Lemma raise_is_last_returned cs l :
  raise_is_last l -> raise_is_last (returned cs ++ l).
Proof. intros H. induction cs as [|c cs IH]; [exact H|exact IH]. Qed.

Lemma returned_no_raise cs c e : EvCall c (Raise e) ∉ returned cs.
Proof.
  unfold returned. intros Hin. apply list_elem_of_In, in_map_iff in Hin.
  destruct Hin as (c' & [=] & _).
Qed.

Lemma returned_plain cs :
  c_sync_papers_to_feishu ∉ cs -> Forall plain (returned cs).
Proof.
  induction cs as [|c cs IH]; intros H; [constructor|].
  apply not_elem_of_cons in H. destruct H as [Hne Hnin].
  constructor; [cbn; congruence|now apply IH].
Qed.

Lemma prefix_no_sync retrieval cs c :
  is_retrieval retrieval ->
  cs ++ [c] `prefix_of` first_calls ++ [retrieval; c_filter_and_rank_papers] ->
  (c_sync_papers_to_feishu ∉ cs) /\ c <> c_sync_papers_to_feishu.
Proof.
  intros Hr [k Hk].
  assert (H : forall x, x ∈ cs ++ [c] -> x <> c_sync_papers_to_feishu).
  { intros x Hx.
    assert (Hin : x ∈ first_calls ++ [retrieval; c_filter_and_rank_papers]).
    { rewrite Hk. apply elem_of_app. now left. }
    unfold first_calls in Hin. cbn [app] in Hin.
    rewrite !elem_of_cons in Hin. destruct Hr as [-> | ->];
      repeat (destruct Hin as [->|Hin]; [discriminate|]);
      now apply elem_of_nil in Hin. }
  split.
  - intros Hin. apply (H c_sync_papers_to_feishu); [|reflexivity].
    apply elem_of_app. now left.
  - apply H. apply elem_of_app. right. apply list_elem_of_here.
Qed.

Lemma prefix_plain retrieval cs :
  is_retrieval retrieval ->
  cs `prefix_of` first_calls ++ [retrieval; c_filter_and_rank_papers] ->
  c_sync_papers_to_feishu ∉ cs.
Proof.
  intros Hr [k Hk] Hin.
  assert (Hall : c_sync_papers_to_feishu
                 ∈ first_calls ++ [retrieval; c_filter_and_rank_papers]).
  { rewrite Hk. apply elem_of_app. now left. }
  unfold first_calls in Hall. cbn [app] in Hall.
  rewrite !elem_of_cons in Hall. destruct Hr as [-> | ->];
    repeat (destruct Hall as [Hall|Hall]; [discriminate|]);
    now apply elem_of_nil in Hall.
Qed.

Lemma exception_result_sound name e : sound_result name (exception_result name e).
Proof. unfold sound_result. cbn. repeat split; (lia || congruence). Qed.

(** The result of a run of any kind is sound. *)
Lemma handled_sound name U body x :
  run_kind name U body x -> sound_result name (handled name x).
Proof.
  intros H. destruct H as [|retrieval cs c e _ _|retrieval cs e _ _|r F
                          |retrieval r Hr F Hpos
                          |retrieval ranked r Hr Hwhy F
                          |retrieval ranked out r Hr Hne Hf F
                          |retrieval out e _ _ _];
    cbn [handled]; try apply exception_result_sound.
  - unfold sound_result. cbn. repeat split; (lia || congruence).
  - destruct F as (H1 & H2 & H3 & H4 & H5 & H6). unfold sound_result.
    rewrite H1, H2, H3, H4, H5, H6. cbn. repeat split; (lia || congruence).
  - destruct F as (H1 & H2 & H3 & H4 & _ & H6). unfold sound_result.
    rewrite H1, H2, H3, H4, H6. cbn. repeat split; (lia || congruence).
  - destruct F as (H1 & H2 & H3 & H4 & H5 & H6). unfold sound_result.
    rewrite H1, H2, H3, H4, H5, H6. cbn [int_val].
    repeat split; try (lia || congruence).
    + apply len_nonneg.
    + apply take_one_length.
    + intros Hn. now apply len_pos, take_one_nil.
  - destruct F as (H1 & H2 & H3 & H4 & H5 & H6). unfold sound_result.
    rewrite H1, H2, H3, H4, H5, H6.
    repeat split; try (lia || congruence).
    + apply py_max_zero_nonneg.
    + apply len_nonneg.
    + apply take_one_length.
    + intros Hn. now apply len_pos.
    + intros _. now destruct ranked.
Qed.

#[local] Ltac no_sync :=
  repeat (apply not_elem_of_cons; split; [discriminate|]); apply not_elem_of_nil.

(** ** The claims on the runner's sync step *)



(** The sync step around a sync call that ends as [r], from [st]: the state
    it leaves and the way it ends. *)
Definition after_sync_step {Interrupt} (st : state)
    (r : Control.ending Interrupt value) (env' : gmap pystr pystr) (w' : World)
  : Control.ending Interrupt pyint * state :=
  (match r with
   | Control.Returns v => Control.Returns (synced_count_of (Ok (Some v)))
   | Control.Raises e => Control.Returns (PInt 0)
   | Control.Leaves b => Control.Leaves b
   end,
   mk_state (delete BATCH_MODE env') w'
     (trace st ++ [ EvSetEnv BATCH_MODE (py "1");
                    event_of Some c_sync_papers_to_feishu r;
                    EvPopEnv BATCH_MODE ])).

Lemma sync_step_any_run {Interrupt} (sync : gext Interrupt value) (st : state)
    r env' w' :
  sync (<[BATCH_MODE := py "1"]> (environ st)) (world st) = (r, env', w') ->
  sync_step_any sync st = after_sync_step st r env' w'.
Proof.
  intros E.
  unfold sync_step_any, after_sync_step, Control.bind, total, setenv,
    Control.try_finally, Control.try_except, call_any, popenv, Control.ret.
  cbn [environ world trace Control.of_res]. rewrite E.
  destruct r as [v|e|b]; cbn [environ world trace Control.of_res event_of];
    rewrite <- !app_assoc; cbn [app synced_count_of]; try reflexivity.
  destruct (as_int v); [reflexivity|]. now destruct (is_True v).
Qed.

(** C4: the sync step sets the toggle, calls the sync in the environment
    where the toggle is [1], and clears the toggle once, whichever way the
    sync call ends: when it returns, when it raises an exception of class
    [Exception], which the step catches, and when an exception outside that
    class leaves it, which the step lets through after the toggle is
    cleared. In a run of the runner that calls the sync, the record ends
    with the toggle set, the sync call, the toggle cleared, in this order
    and with nothing between them; the toggle is cleared once in the whole
    run, the sync call ran where the toggle was set, and the toggle is not
    set when the runner returns. *)
Theorem batch_mode_is_set_and_cleared :
  (forall (Interrupt : Type) (sync : gext Interrupt value) (st : state),
     exists r env' w',
       sync (<[BATCH_MODE := py "1"]> (environ st)) (world st) = (r, env', w') /\
       (<[BATCH_MODE := py "1"]> (environ st)) !! BATCH_MODE = Some (py "1") /\
       sync_step_any sync st = after_sync_step st r env' w' /\
       environ (snd (after_sync_step st r env' w')) !! BATCH_MODE = None /\
       clears [ EvSetEnv BATCH_MODE (py "1");
                event_of Some c_sync_papers_to_feishu r;
                EvPopEnv BATCH_MODE ] = 1) /\
  (forall (name : pystr) (st : state),
     exists r st' new,
       process_single_config name st = (Ok r, st') /\
       trace st' = trace st ++ new /\
       forall outcome, EvCall c_sync_papers_to_feishu outcome ∈ new ->
         (exists pre,
            new = EvRun name :: pre ++
                  [ EvSetEnv BATCH_MODE (py "1");
                    EvCall c_sync_papers_to_feishu outcome;
                    EvPopEnv BATCH_MODE ] /\
            Forall plain pre) /\
         clears new = 1 /\
         sync_ran outcome st' /\
         environ st' !! BATCH_MODE = None).
Proof.
  split.
  - intros Interrupt sync st.
    destruct (sync (<[BATCH_MODE := py "1"]> (environ st)) (world st))
      as [[r env'] w'] eqn:E.
    exists r, env', w'. split; [reflexivity|]. split; [apply lookup_insert_eq|].
    split; [|split].
    + now apply sync_step_any_run.
    + cbn [after_sync_step snd environ]. apply lookup_delete_eq.
    + now destruct r.
  - intros name st.
    destruct (process_single_config_run name st) as (r & st' & body & Hrun & Ht & Hbody).
    exists r, st', (EvRun name :: body). split; [exact Hrun|]. split; [exact Ht|].
    intros outcome Hin. destruct Hbody as [Hp|(pre & out & -> & Hp & Hran)].
    + now apply sync_call_not_plain in Hin.
    + apply (sync_call_of_body _ _ _ _ Hp) in Hin. subst out.
      split; [exists pre; split; [reflexivity|exact Hp]|].
      split; [|split; [exact Hran|now apply sync_ran_clear with (outcome := outcome)]].
      change (EvRun name :: pre ++ sync_events outcome)
        with ([EvRun name] ++ pre ++ sync_events outcome).
      rewrite !clears_app, (plain_clears _ Hp). reflexivity.
Qed.


(** ** Further properties of the profile runner *)

(** Every run of the runner returns a result, and the result is sound. *)
Lemma process_single_config_sound (name : pystr) (st : state) :
  exists r st',
    process_single_config name st = (Ok r, st') /\ sound_result name r.
Proof.
  destruct (process_single_config_kind name st) as (x & st' & body & E & _ & Hk).
  exists (handled name x), st'. split; [exact E|].
  now apply handled_sound with (U := label_unreadable name) (body := body).
Qed.

(** X8: the calls of a run are made in the order of the pipeline (existence
    test, load, archive client, ranker, one of the two retrievals, ranking,
    sync) and stop somewhere along it, and a call that raised is the last
    call of the run. *)
Theorem process_single_config_follows_pipeline (name : pystr) (st : state) :
  exists r st' body retrieval,
    process_single_config name st = (Ok r, st') /\
    trace st' = trace st ++ EvRun name :: body /\
    is_retrieval retrieval /\
    callees body `prefix_of` pipeline retrieval /\
    raise_is_last body.
Proof.
  destruct (process_single_config_kind name st) as (x & st' & body & E & Ht & Hk).
  assert (Hgoal : exists retrieval,
            is_retrieval retrieval /\
            callees body `prefix_of` pipeline retrieval /\
            raise_is_last body).
  { destruct Hk as [|retrieval cs c e Hr Hp|retrieval cs e Hr Hp|r F
                   |retrieval r Hr F Hpos
                   |retrieval ranked r Hr Hwhy F
                   |retrieval ranked out r Hr Hne Hf F
                   |retrieval out e Hr Hf Hu].
    - exists c_get_recent_papers. split; [apply is_retrieval_recent|].
      split; [now eexists|exact I].
    - exists retrieval. split; [exact Hr|]. split.
      + rewrite callees_app, callees_returned. cbn.
        destruct Hp as [k Hk]. exists (k ++ [c_sync_papers_to_feishu]).
        unfold pipeline. rewrite app_assoc, <- Hk. reflexivity.
      + apply raise_is_last_returned. reflexivity.
    - exists retrieval. split; [exact Hr|]. split.
      + rewrite callees_returned.
        destruct Hp as [k Hk]. exists (k ++ [c_sync_papers_to_feishu]).
        unfold pipeline. rewrite app_assoc, <- Hk. reflexivity.
      + rewrite <- (app_nil_r (returned _)). now apply raise_is_last_returned.
    - exists c_get_recent_papers. split; [apply is_retrieval_recent|].
      split; [now eexists|exact I].
    - exists retrieval. split; [exact Hr|]. split.
      + rewrite callees_returned. now eexists.
      + rewrite <- (app_nil_r (returned _)). now apply raise_is_last_returned.
    - exists retrieval. split; [exact Hr|]. split.
      + rewrite callees_returned. now eexists.
      + rewrite <- (app_nil_r (returned _)). now apply raise_is_last_returned.
    - exists retrieval. split; [exact Hr|]. split.
      + rewrite callees_app, callees_returned. now exists [].
      + apply raise_is_last_returned. now destruct out.
    - exists retrieval. split; [exact Hr|]. split.
      + rewrite callees_app, callees_returned. now exists [].
      + apply raise_is_last_returned. now destruct out. }
  destruct Hgoal as (retrieval & H1 & H2 & H3).
  now exists (handled name x), st', body, retrieval.
Qed.

(** X9: when a call other than the sync raises in a run, the run returns
    the result the outer handler builds from that exception: a failure with
    the text of the exception, zero counts and labels derived from the
    profile name. *)
Theorem raising_call_gives_exception_result
    (name : pystr) (st : state) (r : ProfileResult) (st' : state)
    (new : list event) (c : callee) (e : exn) :
  process_single_config name st = (Ok r, st') ->
  trace st' = trace st ++ new ->
  EvCall c (Raise e) ∈ new ->
  c <> c_sync_papers_to_feishu ->
  r = exception_result name e.
Proof.
  intros E Ht Hin Hc.
  destruct (process_single_config_kind name st) as (x & st1 & body & E1 & Ht1 & Hk).
  rewrite E in E1. injection E1 as -> <-.
  rewrite Ht in Ht1. apply app_inv_head in Ht1. subst new.
  apply elem_of_cons in Hin. destruct Hin as [[=]|Hin].
  destruct Hk as [|retrieval cs c' e' Hr Hp|retrieval cs e' Hr Hp|r F
                 |retrieval r Hr F Hpos
                 |retrieval ranked r Hr Hwhy F
                 |retrieval ranked out r Hr Hne Hf F
                 |retrieval out e' Hr Hf Hu];
    try (now apply returned_no_raise in Hin).
  - apply elem_of_app in Hin. destruct Hin as [Hin|Hin];
      [now apply returned_no_raise in Hin|].
    apply list_elem_of_singleton in Hin. now injection Hin as -> ->.
  - apply elem_of_app in Hin. destruct Hin as [Hin|Hin];
      [now apply returned_no_raise in Hin|].
    unfold sync_events in Hin. rewrite !elem_of_cons in Hin.
    destruct Hin as [[=]|[[= -> _]|[[=]|Hin]]];
      [congruence|now apply elem_of_nil in Hin].
  - apply elem_of_app in Hin. destruct Hin as [Hin|Hin];
      [now apply returned_no_raise in Hin|].
    unfold sync_events in Hin. rewrite !elem_of_cons in Hin.
    destruct Hin as [[=]|[[= -> _]|[[=]|Hin]]];
      [congruence|now apply elem_of_nil in Hin].
Qed.

(** X10: a run fails in one of three ways only: the document is missing,
    and the existence test is its only call; or an exception reached the
    outer handler; or the date range is enabled without a start date, and
    the run stops after the four first calls, before any retrieval. *)
Theorem failed_run_has_one_of_three_forms (name : pystr) (st : state) :
  exists r st' body,
    process_single_config name st = (Ok r, st') /\
    trace st' = trace st ++ EvRun name :: body /\
    (success r = false ->
     (r = not_found_result name /\ body = returned [c_exists]) \/
     (exists e, r = exception_result name e) \/
     (error r = Some (Message msg_start_date_needed) /\
      body = returned first_calls)).
Proof.
  destruct (process_single_config_kind name st) as (x & st' & body & E & Ht & Hk).
  exists (handled name x), st', body. split; [exact E|]. split; [exact Ht|].
  intros Hs.
  destruct Hk as [|retrieval cs c e Hr Hp|retrieval cs e Hr Hp|r F
                 |retrieval r Hr F Hpos
                 |retrieval ranked r Hr Hwhy F
                 |retrieval ranked out r Hr Hne Hf F
                 |retrieval out e Hr Hf Hu]; cbn [handled] in *;
    try (destruct F as (_ & F2 & F3 & _); congruence).
  - now left.
  - right. left. now exists e.
  - right. left. now exists e.
  - right. right. now destruct F as (_ & _ & F3 & _).
  - right. left. now exists e.
Qed.

(** X11: without the table connector ([FEISHU_AVAILABLE] false) no run calls
    the sync or writes the toggle: after its entry a run only makes calls
    other than the sync, and its count of new papers is the integer zero. *)
Theorem without_connector_nothing_is_synced (name : pystr) (st : state) :
  FEISHU_AVAILABLE = false ->
  exists r st' body,
    process_single_config name st = (Ok r, st') /\
    trace st' = trace st ++ EvRun name :: body /\
    Forall plain body /\
    new_papers r = PInt 0.
Proof.
  intros Hoff.
  destruct (process_single_config_kind name st) as (x & st' & body & E & Ht & Hk).
  exists (handled name x), st', body. split; [exact E|]. split; [exact Ht|].
  destruct Hk as [|retrieval cs c e Hr Hp|retrieval cs e Hr Hp|r F
                 |retrieval r Hr F Hpos
                 |retrieval ranked r Hr Hwhy F
                 |retrieval ranked out r Hr Hne Hf F
                 |retrieval out e Hr Hf Hu]; cbn [handled];
    try congruence.
  - split; [|reflexivity]. apply returned_plain. no_sync.
  - destruct (prefix_no_sync _ _ _ Hr Hp) as [Hcs Hc].
    split; [|reflexivity]. apply Forall_app. split; [now apply returned_plain|].
    constructor; [exact Hc|constructor].
  - split; [|reflexivity]. apply returned_plain. now apply (prefix_plain retrieval).
  - split; [|now destruct F as (_ & _ & _ & F4 & _)].
    apply returned_plain. no_sync.
  - split; [|now destruct F as (_ & _ & _ & F4 & _)].
    apply returned_plain. unfold first_calls. cbn [app].
    destruct Hr as [-> | ->]; no_sync.
  - split; [|now destruct F as (_ & _ & _ & F4 & _)].
    apply returned_plain. unfold first_calls. cbn [app].
    destruct Hr as [-> | ->]; no_sync.
Qed.

(** ** Further properties of the batch aggregator *)

(** [successful_configs] over a list of results. *)
Definition count_successful (results : list ProfileResult) : Z :=
  len (List.filter success results).

Lemma sum_new_app a b : sum_new (a ++ b) = (sum_new a + sum_new b)%Z.
Proof. induction a as [|r a IH]; cbn [app sum_new]; lia. Qed.

Lemma count_successful_cons r rs :
  count_successful (r :: rs) =
    ((if success r then 1 else 0) + count_successful rs)%Z.
Proof.
  unfold count_successful, len. cbn [List.filter].
  destruct (success r); cbn [length]; lia.
Qed.

Lemma batch_loop_sound names : forall all_results total successful st,
  exists rs st',
    batch_loop names (all_results, total, successful) st =
      (Ok (all_results ++ rs, (total + sum_new rs)%Z,
           (successful + count_successful rs)%Z), st') /\
    Forall2 sound_result names rs.
Proof.
  induction names as [|name names IH]; intros all total succ st.
  - exists [], st. cbn [batch_loop ret sum_new]. unfold count_successful, len.
    cbn. rewrite app_nil_r, !Z.add_0_r. split; [reflexivity|constructor].
  - cbn [batch_loop]. unfold bind at 1, batch_step, bind at 1.
    destruct (process_single_config_kind name st)
      as (x & st1 & body & -> & _ & Hk).
    apply handled_sound in Hk. set (r := handled name x) in *.
    destruct (success r) eqn:Hs; unfold ret.
    + destruct (IH (all ++ [r]) (total + int_val (new_papers r))%Z (succ + 1)%Z st1)
        as (rs & st' & -> & Hall).
      exists (r :: rs), st'. split; [|now constructor].
      rewrite count_successful_cons. cbn [sum_new]. rewrite Hs.
      rewrite <- app_assoc, ?Z.add_assoc, ?Z.add_0_l, ?Z.add_0_r. reflexivity.
    + destruct (IH (all ++ [r]) total succ st1) as (rs & st' & -> & Hall).
      exists (r :: rs), st'. split; [|now constructor].
      rewrite count_successful_cons. cbn [sum_new]. rewrite Hs.
      rewrite <- app_assoc, ?Z.add_assoc, ?Z.add_0_l, ?Z.add_0_r. reflexivity.
Qed.

Lemma sum_new_nonneg names rs :
  Forall2 sound_result names rs -> (0 <= sum_new rs)%Z.
Proof.
  induction 1 as [|name r names rs Hr _ IH]; cbn [sum_new]; [lia|].
  destruct Hr as (_ & Hn & _). destruct (success r); lia.
Qed.

Lemma sum_new_positive names rs :
  Forall2 sound_result names rs ->
  (0 < sum_new rs)%Z <-> Exists (fun r => qualifies r = true) rs.
Proof.
  induction 1 as [|name r names rs Hr Hall IH]; cbn [sum_new].
  - split; [lia|]. intros H. inversion H.
  - pose proof (sum_new_nonneg _ _ Hall) as Hrest.
    destruct Hr as (_ & Hn & _). rewrite Exists_cons, <- IH. unfold qualifies.
    destruct (success r); cbn [andb].
    + rewrite Z.ltb_lt. lia.
    + split; [now right|]. now intros [[=]|].
Qed.

(** X12: the loop of the aggregator, from empty tallies and in any state,
    ends with one sound result per name, in the order of the names, with
    [total_new_papers] the sum of the new papers of the successes and
    [successful_configs] their number; the total is positive exactly when
    some result qualifies for the summary. *)
Theorem batch_loop_tallies (names : list pystr) (st : state) :
  exists results st',
    batch_loop names ([], 0%Z, 0%Z) st =
      (Ok (results, sum_new results, count_successful results), st') /\
    Forall2 sound_result names results /\
    List.map config_name results = names /\
    (0 <= count_successful results <= len names)%Z /\
    ((0 < sum_new results)%Z <-> Exists (fun r => qualifies r = true) results).
Proof.
  destruct (batch_loop_sound names [] 0%Z 0%Z st) as (rs & st' & E & Hall).
  exists rs, st'. cbn [app] in E. rewrite !Z.add_0_l in E.
  split; [exact E|]. split; [exact Hall|]. split; [|split].
  - clear E. induction Hall as [|name r names rs Hr _ IH]; [reflexivity|].
    cbn [List.map]. f_equal; [now destruct Hr|exact IH].
  - clear E. unfold len. induction Hall as [|name r names rs _ _ IH].
    + unfold count_successful, len. cbn. lia.
    + rewrite count_successful_cons. cbn [length]. destruct (success r); lia.
  - now apply sum_new_positive with (names := names).
Qed.

(** The aggregator ends with a flag from every state. *)
Lemma process_all_configs_ends (st : state) :
  exists b st' new,
    process_all_configs st = (Ok b, st') /\
    trace st' = trace st ++ new /\
    (runs new = [] -> b = false) /\
    (b = false -> runs new = [] \/ EvNotify ∈ new).
Proof.
  destruct (find_sync_configs st) as [[names|e] st0] eqn:Hfind.
  - destruct (process_all_configs_run st names st0 Hfind)
      as (new0 & Ht0 & Hp0 & H).
    destruct names as [|name names].
    + exists false, st0, new0. split; [exact H|]. split; [exact Ht0|].
      split; [reflexivity|]. intros _. left. now apply plain_runs.
    + destruct H as (results & succ & st1 & new1 & _ & _ & Ht1 & Hr & Hn & E).
      destruct (0 <? sum_new results)%Z.
      * destruct (send_batch_summary_notification_run results st1)
          as (b & st2 & new2 & E2 & Ht2 & _).
        exists b, st2, (new0 ++ new1 ++ EvNotify :: new2).
        split; [now rewrite E|]. split; [|split].
        -- now rewrite Ht2, Ht1, Ht0, <- !app_assoc.
        -- rewrite !runs_app, Hr, (plain_runs _ Hp0). discriminate.
        -- intros _. right. rewrite !elem_of_app. right. right.
           apply list_elem_of_here.
      * exists true, st1, (new0 ++ new1).
        split; [exact E|]. split; [|split].
        -- now rewrite Ht1, Ht0, <- app_assoc.
        -- rewrite runs_app, Hr, (plain_runs _ Hp0). discriminate.
        -- discriminate.
  - destruct (find_sync_configs_plain st) as (r & st' & new0 & E & Ht0 & Hp0).
    rewrite Hfind in E. injection E as <- <-.
    exists false, st0, new0.
    split; [|split; [exact Ht0|split; [reflexivity|]]].
    + unfold process_all_configs, try_except, bind. now rewrite Hfind.
    + intros _. left. now apply plain_runs.
Qed.

(** ** Further properties of the summary notifier *)

(** How many results enter the summary. *)
Definition count_qualifying (results : list ProfileResult) : nat :=
  length (List.filter qualifies results).

(** The calls of the notifier before the notification: the defaults, the
    chat client, and one link lookup per qualifying result. *)
Definition preparation (results : list ProfileResult) : list callee :=
  [c_load_yaml; c_create_chat_notifier]
  ++ repeat c_generate_table_link (count_qualifying results).

(** The calls of a notifier that goes all the way. *)
Definition notifier_calls (results : list ProfileResult) : list callee :=
  preparation results ++ [c_notify_paper_updates].

(** What the notifier adds to the record after its own entry, and what it
    returns: the connector is not available; a call of the preparation
    raises; nothing qualifies; the notification raises; the notification
    returns. *)
Inductive notify_kind (results : list ProfileResult) : list event -> bool -> Prop :=
| notify_unavailable :
    FEISHU_AVAILABLE = false ->
    notify_kind results [] false
| notify_preparation_raised cs c e :
    FEISHU_AVAILABLE = true ->
    cs ++ [c] `prefix_of` preparation results ->
    notify_kind results (returned cs ++ [EvCall c (Raise e)]) false
| notify_nothing :
    FEISHU_AVAILABLE = true ->
    count_qualifying results = 0 ->
    notify_kind results (returned [c_load_yaml; c_create_chat_notifier]) true
| notify_raised e :
    FEISHU_AVAILABLE = true ->
    0 < count_qualifying results ->
    notify_kind results
      (returned (preparation results)
       ++ [EvCall c_notify_paper_updates (Raise e)]) false
| notify_returned b :
    FEISHU_AVAILABLE = true ->
    0 < count_qualifying results ->
    notify_kind results (returned (notifier_calls results)) b.

(** The record of the loop of the notifier. *)
Definition loop_calls (results : list ProfileResult) (n : list event)
    (r : res tables) : Prop :=
  match r with
  | Ok _ => n = returned (repeat c_generate_table_link (count_qualifying results))
  | Raise e =>
      exists k, k < count_qualifying results /\
        n = returned (repeat c_generate_table_link k)
            ++ [EvCall c_generate_table_link (Raise e)]
  end.

Lemma obeys_call {A} (view : A -> option value) c (f : ext A) :
  obeys (fun n r => n = [EvCall c (outcome_of view r)]) (call_with view c f).
Proof.
  intros st. unfold call_with.
  destruct (f (environ st) (world st)) as [[r env'] w'].
  eexists r, _, _. split; [reflexivity|]. split; [reflexivity|].
  now destruct r.
Qed.

Lemma count_qualifying_cons r rs :
  count_qualifying (r :: rs) =
    (if qualifies r then S (count_qualifying rs) else count_qualifying rs).
Proof. unfold count_qualifying. cbn [List.filter]. now destruct (qualifies r). Qed.

Lemma summary_loop_calls results : forall acc,
  obeys (loop_calls results) (summary_loop results acc).
Proof.
  induction results as [|result rest IH]; intros acc; cbn [summary_loop].
  - now apply obeys_ret.
  - pose proof (count_qualifying_cons result rest) as Hc.
    unfold summary_step. destruct (qualifies result).
    + eapply obeys_bind
        with (Phi1 := fun n (r : res tables) =>
                        n = [EvCall c_generate_table_link
                               (match r with Ok _ => Ok None | Raise e => Raise e end)])
             (Phi2 := fun _ => loop_calls rest).
      * eapply obeys_bind_ret; [apply obeys_call| |].
        -- now intros n a ->.
        -- now intros n e ->.
      * intros acc'. apply IH.
      * intros n1 acc' n2 [t|e] -> H; cbn [loop_calls] in *.
        -- subst n2. now rewrite Hc.
        -- destruct H as (k & Hk & ->). exists (S k). split; [lia|reflexivity].
      * intros n e ->. exists 0. split; [lia|reflexivity].
    + apply obeys_ret_bind. eapply obeys_weaken; [apply IH|].
      intros n [t|e]; cbn [loop_calls]; now rewrite Hc.
Qed.

Lemma no_qualifying_no_entry results label :
  count_qualifying results = 0 -> List.filter (enters label) results = [].
Proof.
  unfold count_qualifying, enters.
  induction results as [|r rs IH]; [reflexivity|]. cbn [List.filter].
  destruct (qualifies r); [discriminate|]. exact IH.
Qed.

Lemma qualifying_entry results :
  0 < count_qualifying results ->
  exists label r, last (List.filter (enters label) results) = Some r.
Proof.
  unfold count_qualifying.
  induction results as [|r rs IH]; cbn [List.filter length]; [lia|].
  destruct (qualifies r) eqn:Hq.
  - intros _. exists (field_name_of r).
    assert (He : enters (field_name_of r) r = true).
    { unfold enters. rewrite Hq. now rewrite bool_decide_eq_true_2. }
    cbn [List.filter]. rewrite He.
    destruct (List.filter (enters (field_name_of r)) rs) as [|x l] eqn:El.
    + now exists r.
    + rewrite last_cons. destruct (last (x :: l)) as [y|] eqn:Ely; [now exists y|].
      now apply last_None in Ely.
  - intros H. destruct (IH H) as (label & x & Hx). exists label, x.
    cbn [List.filter]. unfold enters at 1. rewrite Hq. exact Hx.
Qed.

(** After the loop of the notifier, [update_stats] is empty exactly when no
    result qualifies. *)
Lemma summary_loop_empty results st t st' :
  summary_loop results (mk_tables ∅ ∅ ∅) st = (Ok t, st') ->
  update_stats t = ∅ <-> count_qualifying results = 0.
Proof.
  intros E. split.
  - intros Hempty.
    destruct (count_qualifying results) as [|k] eqn:Hk; [reflexivity|].
    destruct (qualifying_entry results) as (label & r & Hr); [lia|].
    pose proof (summary_loop_stats _ _ _ _ _ label E) as H.
    rewrite Hr, Hempty in H. now rewrite lookup_empty in H.
  - intros Hk. apply map_eq. intros label.
    rewrite (summary_loop_stats _ _ _ _ _ label E).
    rewrite (no_qualifying_no_entry _ _ Hk). reflexivity.
Qed.

(** The flag the handler of the notifier makes of the way its body ended. *)
Definition flag (r : res bool) : bool :=
  match r with
  | Ok b => b
  | Raise _ => false
  end.

Lemma preparation_prefix results k :
  k < count_qualifying results ->
  ([c_load_yaml; c_create_chat_notifier] ++ repeat c_generate_table_link k)
  ++ [c_generate_table_link] `prefix_of` preparation results.
Proof.
  intros Hk. unfold preparation.
  exists (repeat c_generate_table_link (count_qualifying results - S k)).
  rewrite <- !app_assoc. f_equal.
  replace (count_qualifying results)
    with (k + S (count_qualifying results - S k)) at 1 by lia.
  now rewrite repeat_app.
Qed.

Lemma returned_app a b : returned (a ++ b) = returned a ++ returned b.
Proof. apply map_app. Qed.

(** Every run of the notifier is of one of the kinds; it never raises. *)
Lemma send_batch_summary_notification_kind results st :
  exists b st' body,
    send_batch_summary_notification results st = (Ok b, st') /\
    trace st' = trace st ++ EvNotify :: body /\
    notify_kind results body b.
Proof.
  assert (H : obeys (fun n r => exists b body,
                       n = EvNotify :: body /\ r = Ok b /\
                       notify_kind results body b)
                (send_batch_summary_notification results)).
  { unfold send_batch_summary_notification. apply obeys_emit_bind.
    apply obeys_try_except
      with (Phi' := fun n r => notify_kind results ([] ++ n) (flag r)).
    - destruct FEISHU_AVAILABLE eqn:Hf; cbn [negb].
      + apply (obeys_call_after (fun n r => notify_kind results n (flag r))).
        { intros e. apply (notify_preparation_raised results [] c_load_yaml e Hf).
          now eexists. }
        intros default_cfg.
        apply (obeys_call_after (fun n r => notify_kind results n (flag r))).
        { intros e. apply (notify_preparation_raised results [c_load_yaml]
                             c_create_chat_notifier e Hf).
          now eexists. }
        intros _. intros st0.
        destruct (summary_loop_calls results (mk_tables ∅ ∅ ∅) st0)
          as (r & st1 & n1 & E & Ht1 & Hcalls).
        unfold bind. rewrite E. destruct r as [t|e]; cbn [loop_calls] in Hcalls.
        * pose proof (summary_loop_empty _ _ _ _ E) as Hempty.
          destruct (bool_decide (update_stats t = ∅)) eqn:Hd.
          -- apply bool_decide_eq_true_1 in Hd. apply Hempty in Hd.
             exists (Ok true), st1, n1. split; [reflexivity|]. split; [exact Ht1|].
             subst n1. rewrite Hd. cbn [repeat returned List.map app flag].
             now apply notify_nothing.
          -- apply bool_decide_eq_false_1 in Hd.
             assert (Hpos : 0 < count_qualifying results).
             { destruct (count_qualifying results); [|lia].
               exfalso. apply Hd. now apply Hempty. }
             destruct (obeys_call (fun _ : bool => None) c_notify_paper_updates
                         (notify_paper_updates (update_stats t) (papers_by_field t)
                            (table_links t)) st1)
               as (r2 & st2 & n2 & E2 & Ht2 & ->).
             exists r2, st2, (n1 ++ [EvCall c_notify_paper_updates
                                       (outcome_of (fun _ : bool => None) r2)]).
             split; [exact E2|]. split; [now rewrite Ht2, Ht1, app_assoc|].
             subst n1. destruct r2 as [b|e]; cbn [outcome_of flag].
             ++ pose proof (notify_returned results b Hf Hpos) as Hn.
                unfold notifier_calls, preparation in Hn.
                rewrite !returned_app in Hn. exact Hn.
             ++ pose proof (notify_raised results e Hf Hpos) as Hn.
                unfold preparation in Hn. rewrite !returned_app in Hn. exact Hn.
        * destruct Hcalls as (k & Hk & ->).
          eexists (Raise e), st1, _. split; [reflexivity|]. split; [exact Ht1|].
          pose proof (notify_preparation_raised results _ _ e Hf
                        (preparation_prefix results k Hk)) as Hn.
          rewrite returned_app in Hn. cbn [flag]. rewrite <- !app_assoc in *.
          exact Hn.
      + apply obeys_ret. now apply notify_unavailable.
    - intros n a H. exists a, n. auto.
    - intros n e H. exists false, n. auto. }
  destruct (H st) as (r & st' & n & E & Ht & b & body & -> & -> & Hk).
  now exists b, st', body.
Qed.

(** The calls of the notifier follow one order: the defaults, the chat
    client, one link lookup per qualifying result, the notification; they
    stop somewhere along it, a call that raised is the last call, and then
    the notifier returns [False]. *)
Lemma send_batch_summary_notification_protocol
    (results : list ProfileResult) (st : state) :
  exists b st' body,
    send_batch_summary_notification results st = (Ok b, st') /\
    trace st' = trace st ++ EvNotify :: body /\
    callees body `prefix_of` notifier_calls results /\
    raise_is_last body /\
    (forall c e, EvCall c (Raise e) ∈ body -> b = false).
Proof.
  destruct (send_batch_summary_notification_kind results st)
    as (b & st' & body & E & Ht & Hk).
  exists b, st', body. split; [exact E|]. split; [exact Ht|].
  destruct Hk as [Hf|cs c e Hf Hp|Hf H0|e Hf Hpos|b Hf Hpos].
  - split; [apply prefix_nil|]. split; [exact I|]. reflexivity.
  - split; [|split; [|reflexivity]].
    + rewrite callees_app, callees_returned.
      change (callees [EvCall c (Raise e)]) with [c].
      destruct Hp as [k Hk]. exists (k ++ [c_notify_paper_updates]).
      unfold notifier_calls. rewrite Hk. now rewrite <- app_assoc.
    + apply raise_is_last_returned. reflexivity.
  - split; [|split].
    + rewrite callees_returned. unfold notifier_calls, preparation. rewrite H0.
      now eexists.
    + exact I.
    + intros c e Hin. now apply returned_no_raise in Hin.
  - split; [|split; [|reflexivity]].
    + rewrite callees_app, callees_returned. exists []. now rewrite app_nil_r.
    + apply raise_is_last_returned. reflexivity.
  - split; [|split].
    + rewrite callees_returned. exists []. now rewrite app_nil_r.
    + rewrite <- (app_nil_r (returned _)). now apply raise_is_last_returned.
    + intros c e Hin. now apply returned_no_raise in Hin.
Qed.

(** X15: the notification is sent only when some result qualifies, after
    the link of every qualifying result has been looked up; and the notifier
    returns [True] only when the connector is available and every call it
    made returned: the preparation alone when nothing qualifies, the whole
    protocol otherwise. *)
Theorem notification_needs_a_qualifying_result
    (results : list ProfileResult) (st : state) :
  exists b st' body,
    send_batch_summary_notification results st = (Ok b, st') /\
    trace st' = trace st ++ EvNotify :: body /\
    (c_notify_paper_updates ∈ callees body ->
     Exists (fun r => qualifies r = true) results /\
     callees body = notifier_calls results) /\
    (b = true ->
     FEISHU_AVAILABLE = true /\
     body = returned (if Nat.eqb (count_qualifying results) 0
                      then [c_load_yaml; c_create_chat_notifier]
                      else notifier_calls results)).
Proof.
  assert (Hex : 0 < count_qualifying results ->
                Exists (fun r => qualifies r = true) results).
  { unfold count_qualifying. intros Hpos. apply Exists_exists.
    destruct (List.filter qualifies results) as [|r l] eqn:El;
      [cbn in Hpos; lia|].
    assert (Hin : List.In r (List.filter qualifies results))
      by (rewrite El; now left).
    apply filter_In in Hin. destruct Hin as [Hin Hq].
    exists r. split; [now apply list_elem_of_In|exact Hq]. }
  assert (Hprep : forall cs c,
            cs ++ [c] `prefix_of` preparation results ->
            c_notify_paper_updates ∉ cs ++ [c]).
  { intros cs c [k Hk] Hin.
    assert (Hin' : c_notify_paper_updates ∈ preparation results)
      by (rewrite Hk; apply elem_of_app; now left).
    unfold preparation in Hin'. cbn [app] in Hin'.
    rewrite !elem_of_cons in Hin'. destruct Hin' as [[=]|[[=]|Hin']].
    apply list_elem_of_In, repeat_spec in Hin'. discriminate. }
  destruct (send_batch_summary_notification_kind results st)
    as (b & st' & body & E & Ht & Hk).
  exists b, st', body. split; [exact E|]. split; [exact Ht|].
  destruct Hk as [Hf|cs c e Hf Hp|Hf H0|e Hf Hpos|b Hf Hpos].
  - split; [|discriminate]. cbn. intros Hin. now apply elem_of_nil in Hin.
  - split; [|discriminate]. rewrite callees_app, callees_returned.
    change (callees [EvCall c (Raise e)]) with [c].
    intros Hin. now apply Hprep in Hp.
  - split.
    + rewrite callees_returned, !elem_of_cons.
      intros [[=]|[[=]|Hin]]. now apply elem_of_nil in Hin.
    + intros _. split; [exact Hf|]. now rewrite H0.
  - split; [|discriminate]. intros _. split; [now apply Hex|].
    now rewrite callees_app, callees_returned.
  - split.
    + intros _. split; [now apply Hex|]. now rewrite callees_returned.
    + intros _. split; [exact Hf|].
      destruct (count_qualifying results); [lia|reflexivity].
Qed.

(** The entry of [papers_by_field] a result gives. *)
Definition representative_of (result : ProfileResult) : representative :=
  if truthy_list (ranked_papers result)
  then FromResult (ranked_papers result)
  else MadeUp (field_name_of result) (config_name result) (new_papers result).

Lemma summary_loop_papers results : forall acc st t st' label,
  summary_loop results acc st = (Ok t, st') ->
  papers_by_field t !! label =
    match last (List.filter (enters label) results) with
    | Some result => Some (representative_of result)
    | None => papers_by_field acc !! label
    end.
Proof.
  induction results as [|r rest IH]; intros acc st t st' label.
  - cbn [summary_loop ret]. now intros [= <- _].
  - cbn [summary_loop]. unfold bind at 1.
    destruct (summary_step acc r st) as [[acc'|e] st1] eqn:Estep; [|discriminate].
    intros Hloop. rewrite (IH _ _ _ _ label Hloop). clear IH Hloop.
    cbn [List.filter]. unfold enters at 2.
    unfold summary_step in Estep.
    destruct (qualifies r) eqn:Hq.
    + unfold bind, call, call_with, ret in Estep.
      destruct (generate_table_link (table_name r) (environ st) (world st))
        as [[[link|e] env'] w']; [|discriminate].
      injection Estep as <- _. cbn [papers_by_field andb].
      fold (representative_of r).
      destruct (bool_decide (field_name_of r = label)) eqn:Hl.
      * apply bool_decide_eq_true in Hl. rewrite last_cons.
        destruct (last (List.filter (enters label) rest)); [reflexivity|].
        rewrite Hl. apply lookup_insert_eq.
      * apply bool_decide_eq_false in Hl.
        destruct (last (List.filter (enters label) rest)); [reflexivity|].
        now apply lookup_insert_ne.
    + injection Estep as <- _. reflexivity.
Qed.

Lemma summary_loop_links results : forall acc st t st' label link,
  summary_loop results acc st = (Ok t, st') ->
  table_links t !! label = Some link ->
  table_links acc !! label = Some link \/
  (truthy link = true /\ exists r, r ∈ results /\ enters label r = true).
Proof.
  induction results as [|r rest IH]; intros acc st t st' label link.
  - cbn [summary_loop ret]. intros [= <- _] H. now left.
  - cbn [summary_loop]. unfold bind at 1.
    destruct (summary_step acc r st) as [[acc'|e] st1] eqn:Estep; [|discriminate].
    intros Hloop Hlink.
    destruct (IH _ _ _ _ _ _ Hloop Hlink) as [Hacc|(Ht & x & Hx & He)];
      [|right; split; [exact Ht|]; exists x; split;
        [now apply list_elem_of_further|exact He]].
    clear IH Hloop Hlink. unfold summary_step in Estep.
    destruct (qualifies r) eqn:Hq; [|injection Estep as <- _; now left].
    unfold bind, call, call_with, ret in Estep.
    destruct (generate_table_link (table_name r) (environ st) (world st))
      as [[[found|e] env'] w']; [|discriminate].
    injection Estep as <- _. cbn [table_links] in Hacc.
    destruct found as [l|]; [|now left].
    destruct (truthy l) eqn:Hl; [|now left].
    destruct (decide (field_name_of r = label)) as [Heq|Hne].
    + rewrite Heq, lookup_insert_eq in Hacc. injection Hacc as ->.
      right. split; [exact Hl|]. exists r. split; [apply list_elem_of_here|].
      unfold enters. rewrite Hq. now rewrite bool_decide_eq_true_2.
    + rewrite lookup_insert_ne in Hacc by exact Hne. now left.
Qed.

Lemma entering_last results label r :
  r ∈ results -> enters label r = true ->
  exists x, last (List.filter (enters label) results) = Some x.
Proof.
  intros Hin He.
  assert (H : List.In r (List.filter (enters label) results)).
  { apply filter_In. split; [now apply list_elem_of_In|exact He]. }
  destruct (last (List.filter (enters label) results)) as [x|] eqn:El;
    [now exists x|].
  apply last_None in El. now rewrite El in H.
Qed.

(** X16: after the loop of the notifier the three mappings agree:
    [papers_by_field] has, under every label, the entry of the last result
    that entered under it, as [update_stats] has its counts; the two have
    the same labels; a link is kept only if it is not empty and only under a
    label of [update_stats]; and [update_stats] is empty exactly when no
    result qualifies. *)
Theorem summary_tables_agree
    (results : list ProfileResult) (st : state) (t : tables) (st' : state) :
  summary_loop results (mk_tables ∅ ∅ ∅) st = (Ok t, st') ->
  (forall label,
     papers_by_field t !! label =
       representative_of <$> last (List.filter (enters label) results)) /\
  (forall label,
     is_Some (papers_by_field t !! label) <-> is_Some (update_stats t !! label)) /\
  (forall label link,
     table_links t !! label = Some link ->
     truthy link = true /\ is_Some (update_stats t !! label)) /\
  (update_stats t = ∅ <-> count_qualifying results = 0).
Proof.
  intros Hloop.
  assert (Hp : forall label,
            papers_by_field t !! label =
              representative_of <$> last (List.filter (enters label) results)).
  { intros label. rewrite (summary_loop_papers _ _ _ _ _ label Hloop).
    cbn [papers_by_field]. rewrite lookup_empty. now destruct (last _). }
  assert (Hs : forall label,
            update_stats t !! label =
              stats_of <$> last (List.filter (enters label) results)).
  { intros label. rewrite (summary_loop_stats _ _ _ _ _ label Hloop).
    cbn [update_stats]. rewrite lookup_empty. now destruct (last _). }
  split; [exact Hp|]. split; [|split].
  - intros label. rewrite Hp, Hs. now rewrite !fmap_is_Some.
  - intros label link Hlink.
    destruct (summary_loop_links _ _ _ _ _ _ _ Hloop Hlink)
      as [Hacc|(Ht & r & Hin & He)].
    + cbn [table_links] in Hacc. now rewrite lookup_empty in Hacc.
    + split; [exact Ht|]. rewrite Hs.
      destruct (entering_last _ _ _ Hin He) as (x & ->). now eexists.
  - now apply summary_loop_empty with (st := st) (st' := st').
Qed.

(** X17: a result of the runner that qualifies for the summary carries its
    best ranked paper, so the notifier takes the papers of the result and
    never makes up an entry for a result of the runner. *)
Theorem qualifying_run_carries_its_best_paper (name : pystr) (st : state) :
  exists r st',
    process_single_config name st = (Ok r, st') /\
    (qualifies r = true ->
     exists paper,
       ranked_papers r = [paper] /\ representative_of r = FromResult [paper]).
Proof.
  destruct (process_single_config_kind name st) as (x & st' & body & E & _ & Hk).
  exists (handled name x), st'. split; [exact E|].
  apply handled_sound in Hk.
  destruct Hk as (_ & _ & _ & Hlen & _ & _ & _ & Hnew).
  unfold qualifies, representative_of. intros Hq.
  apply andb_true_iff in Hq. destruct Hq as [_ Hq]. apply Z.ltb_lt in Hq.
  assert (Hne : new_papers (handled name x) <> PInt 0).
  { intros H0. rewrite H0 in Hq. cbn in Hq. lia. }
  specialize (Hnew Hne).
  destruct (ranked_papers (handled name x)) as [|paper [|other rest]];
    [congruence| |cbn in Hlen; lia].
  now exists paper.
Qed.

(** [config_name == "all"] *)
Definition is_all (config_name : value) : bool :=
  match config_name with
  | VStr s => bool_decide (s = py "all")
  | _ => false
  end.

End Orchestration.

(** ** Further properties of the discovery and of the keywords *)

Lemma no_slash_existsb (s : pystr) :
  47%N ∉ s -> existsb (N.eqb 47) s = false.
Proof.
  induction s as [|c s IH]; [reflexivity|]. intros H.
  apply not_elem_of_cons in H. destruct H as [Hc Hs].
  cbn [existsb]. rewrite (IH Hs), orb_false_r. apply N.eqb_neq. congruence.
Qed.

Lemma basename_no_slash (b : pystr) : 47%N ∉ b -> basename b = b.
Proof.
  destruct b as [|c t]; [reflexivity|]. intros H.
  apply not_elem_of_cons in H. destruct H as [Hc Ht].
  cbn [basename]. rewrite (no_slash_existsb _ Ht).
  replace (c =? 47)%N with false; [reflexivity|].
  symmetry. apply N.eqb_neq. congruence.
Qed.

Lemma basename_after_slash (a b : pystr) :
  47%N ∉ b -> basename (a ++ 47%N :: b) = b.
Proof.
  intros Hb. induction a as [|c a IH].
  - cbn [app basename]. now rewrite (no_slash_existsb _ Hb).
  - cbn [app basename].
    replace (existsb (N.eqb 47) (a ++ 47%N :: b)) with true; [exact IH|].
    symmetry. apply existsb_exists. exists 47%N. split; [|reflexivity].
    apply in_or_app. right. now left.
Qed.

(** The last component of a joined path is the component joined, when it has
    no slash. *)
Lemma basename_path_join (a b : pystr) :
  47%N ∉ b -> basename (path_join a b) = b.
Proof.
  intros Hb. unfold path_join.
  assert (Hs : startswith b (py "/") = false).
  { destruct b as [|c t]; [reflexivity|].
    apply not_elem_of_cons in Hb. destruct Hb as [Hc _].
    change (py "/") with [47%N]. cbn [startswith].
    now rewrite (proj2 (N.eqb_neq 47 c) Hc). }
  rewrite Hs. destruct a as [|c a].
  - cbn [truthy negb orb app]. now apply basename_no_slash.
  - cbn [truthy negb orb].
    destruct (startswith (rev (c :: a)) (py "/")) eqn:Hr.
    + destruct (rev (c :: a)) as [|x l] eqn:El; [discriminate|].
      change (py "/") with [47%N] in Hr. cbn [startswith] in Hr.
      apply andb_true_iff in Hr. destruct Hr as [Hr _].
      apply N.eqb_eq in Hr. subst x.
      assert (Ha : c :: a = rev l ++ [47%N]).
      { rewrite <- (rev_involutive (c :: a)), El. reflexivity. }
      rewrite Ha, <- app_assoc. now apply basename_after_slash.
    + change (py "/" ++ b) with (47%N :: b). now apply basename_after_slash.
Qed.

(** A profile name as the discovery can give it back: neither a slash nor a
    dot. *)
Definition plain_name (name : pystr) : Prop :=
  (47%N ∉ name) /\ (46%N ∉ name).

Lemma name_of_document (dir name : pystr) :
  plain_name name ->
  replace (py ".yaml") [] (basename (path_join dir (name ++ py ".yaml"))) = name.
Proof.
  intros [Hslash Hdot]. rewrite basename_path_join.
  - change (py ".yaml") with (46%N :: py "yaml"). now apply replace_suffix.
  - intros Hin. apply elem_of_app in Hin. destruct Hin as [Hin|Hin]; [tauto|].
    cbn in Hin. rewrite !elem_of_cons in Hin.
    repeat (destruct Hin as [[=]|Hin]). now apply elem_of_nil in Hin.
Qed.

(** The entries the ranking is given: not empty, trimmed, not a comment. *)
Definition matchable (keyword : pystr) : Prop :=
  keyword <> [] /\ strip keyword = keyword /\
  startswith keyword (py "#") = false.

Lemma filter_keywords_matchable (keywords : option (list pystr)) :
  Forall matchable (Normalizer._filter_keywords keywords) /\
  forall kws, keywords = Some kws ->
    length (Normalizer._filter_keywords keywords) <= length kws.
Proof.
  destruct keywords as [kws|]; [|split; [constructor|discriminate]].
  rewrite Normalizer.filter_keywords_spec. split.
  - induction kws as [|k kws IH]; [constructor|]. cbn [List.filter].
    destruct (Normalizer.kept k) eqn:Hk; [|exact IH].
    cbn [List.map]. constructor; [|exact IH].
    unfold Normalizer.kept in Hk. apply andb_true_iff in Hk.
    destruct Hk as [Hb Hc]. apply negb_true_iff in Hb, Hc.
    split; [|split; [apply strip_idem|exact Hc]].
    intros Hnil. apply strip_nil_iff in Hnil. congruence.
  - intros kws' [= <-]. rewrite length_map. apply filter_length_le.
Qed.

Lemma each_length {A B} (f : A -> res B) (l : list A) (l' : list B) :
  each f l = Ok l' -> length l' = length l.
Proof.
  revert l'. induction l as [|x l IH]; intros l'; cbn [each].
  - now intros [= <-].
  - destruct (f x) as [y|]; [|discriminate]. cbn [res_bind].
    destruct (each f l) as [t|]; [|discriminate]. cbn [res_bind].
    intros [= <-]. cbn [length]. now rewrite (IH t).
Qed.

(** What [_filter_keywords] returns for a value, when it returns. *)
Lemma filter_keywords_value (keywords : value) (filtered : list pystr) :
  _filter_keywords keywords = Ok filtered ->
  Forall matchable filtered /\
  Normalizer._filter_keywords (Some filtered) = filtered /\
  forall l, keywords = VList l -> length filtered <= length l.
Proof.
  unfold _filter_keywords.
  destruct (keyword_entries keywords) as [kws|] eqn:E; [|discriminate].
  cbn [res_bind]. intros [= <-].
  destruct (filter_keywords_matchable kws) as [Hm Hlen].
  split; [exact Hm|]. split.
  - destruct kws as [kws|]; [|reflexivity].
    rewrite !Normalizer.filter_keywords_spec.
    now rewrite Normalizer.filter_kept_normalized, Normalizer.map_strip_normalized.
  - intros l ->. unfold keyword_entries in E.
    destruct (negb (value_truthy (VList l))); [injection E as <-; cbn; lia|].
    destruct (each keyword_entry l) as [entries|] eqn:El; [|discriminate].
    injection E as <-. rewrite <- (each_length _ _ _ El). now apply Hlen.
Qed.

(** X19: when [load_keywords_from_config] returns, the interest and exclude
    lists it gives to the ranking hold only entries that are not empty, have
    no space at either end and are no comment; the interest list is no
    longer than the raw sequence it comes from, and normalizing either list
    again changes nothing. It raises when the document has [keywords] and
    that is not a mapping, and when a list has an entry that is true and is
    not a string. *)
Theorem loaded_keywords_are_matchable (cfg : dict)
    (interest_keywords exclude_keywords : list pystr)
    (raw_interest_keywords required_keywords_config : value) :
  load_keywords_from_config cfg =
    Ok (interest_keywords, exclude_keywords, raw_interest_keywords,
        required_keywords_config) ->
  Forall matchable interest_keywords /\
  Forall matchable exclude_keywords /\
  (forall raw, raw_interest_keywords = VList raw ->
     length interest_keywords <= length raw) /\
  Normalizer._filter_keywords (Some interest_keywords) = interest_keywords /\
  Normalizer._filter_keywords (Some exclude_keywords) = exclude_keywords /\
  (has_key (py "keywords") cfg = true ->
   exists keywords, assoc (py "keywords") cfg = Some (VDict keywords)) /\
  (forall raw entry,
     raw_interest_keywords = VList raw -> entry ∈ raw ->
     value_truthy entry = true -> exists keyword, entry = VStr keyword).
Proof.
  unfold load_keywords_from_config.
  destruct (if has_key (py "keywords") cfg then _ else _) as [source|] eqn:Es;
    [|discriminate].
  cbn [res_bind].
  destruct (_filter_keywords (listed (get (py "interest_keywords") (VList []) source)))
    as [ik|] eqn:Ei; [|discriminate].
  destruct (_filter_keywords (listed (get (py "exclude_keywords") (VList []) source)))
    as [ek|] eqn:Ee; [|discriminate].
  cbn [res_bind]. intros [= <- <- <- <-].
  destruct (filter_keywords_value _ _ Ei) as (Hi & Hidem & Hlen).
  destruct (filter_keywords_value _ _ Ee) as (He & Hedem & _).
  repeat (split; [assumption|]). split.
  - intros Hk. rewrite Hk in Es. unfold get in Es. unfold has_key in Hk.
    destruct (assoc (py "keywords") cfg) as [[ | | | | | |keywords]|];
      try discriminate.
    now exists keywords.
  - intros raw entry Hraw Hin Htrue. rewrite Hraw in Ei.
    unfold _filter_keywords, keyword_entries in Ei.
    destruct (negb (value_truthy (VList raw))) eqn:Hfalse.
    { destruct raw; [now apply elem_of_nil in Hin|discriminate]. }
    destruct (each keyword_entry raw) as [entries|] eqn:El; [|discriminate].
    clear - El Hin Htrue. revert entries El.
    induction Hin as [entry raw|entry other raw Hin IH]; intros entries;
      cbn [each]; unfold keyword_entry at 1.
    + rewrite Htrue. destruct entry; try discriminate. eauto.
    + destruct (if value_truthy other then _ else _); [|discriminate].
      cbn [res_bind]. destruct (each keyword_entry raw) as [t|]; [|discriminate].
      intros _. now apply (IH Htrue t).
Qed.

Section Discovery.

Context {Paper World : Type}.
Variable module_dir : pystr.
Variable glob_glob : pystr -> ext (World := World) (list pystr).

(** X20: the discovery gives back the names of the documents: when the glob
    returns, for names without slash or dot, the documents of these names in
    the configuration directory, [find_sync_configs] returns exactly these
    names in this order; and the path under which the runner then looks for
    a name leads back to the name as well. *)
Theorem find_sync_configs_recovers_names
    (st : state (World := World)) (names : list pystr)
    (env' : gmap pystr pystr) (w' : World) :
  Forall plain_name names ->
  glob_glob (path_join (path_join module_dir (py "conf")) (py "sync*.yaml"))
    (environ st) (world st) =
    (Ok (List.map (fun name =>
                     path_join (path_join module_dir (py "conf"))
                       (name ++ py ".yaml")) names), env', w') ->
  find_sync_configs module_dir glob_glob st =
    (Ok names, mk_state env' w' (trace st ++ [EvCall c_glob (Ok None)])) /\
  Forall (fun name =>
            replace (py ".yaml") [] (basename (config_path_of name)) = name)
    names.
Proof.
  intros Hnames Hglob. split.
  - unfold find_sync_configs, bind, call, call_with, ret. rewrite Hglob.
    f_equal. f_equal. rewrite List.map_map.
    rewrite <- (List.map_id names) at 2. apply map_ext_Forall.
    eapply Forall_impl; [exact Hnames|]. intros name Hn.
    now apply name_of_document.
  - eapply Forall_impl; [exact Hnames|]. intros name Hn.
    now apply name_of_document.
Qed.

End Discovery.

End Engine.

(** ** The engine under every class of exception

    The engine once more, for collaborators whose calls an exception outside
    class [Exception] may leave. The runner, the aggregator and the notifier
    catch with [except Exception], which lets such an exception through;
    [main] catches with a bare [except], which does not. The definitions
    are those of [Engine], word for word, over the computations [G]. *)

Module Interruptible.

Import Engine.
Import Control.

Section Orchestration.

Context {Paper World Interrupt : Type}.

Abbreviation G := (Engine.G (World := World) Interrupt).
Abbreviation gext := (Engine.gext (World := World) Interrupt).
Abbreviation state := (Engine.state (World := World)).
Abbreviation ProfileResult := (Engine.ProfileResult (Paper := Paper)).
Abbreviation tables := (Engine.tables (Paper := Paper)).
Abbreviation tally := (Engine.tally (Paper := Paper)).

Definition emit (ev : event) : G unit := total (Engine.emit ev).

Definition call {A} (c : callee) (f : gext A) : G A :=
  call_any (fun _ => None) c f.

Notation "x <- m ;; k" := (bind m (fun x => k))
  (at level 62, m at next level, right associativity).

(** The collaborators; each may raise or be left. *)
Variable FEISHU_AVAILABLE : bool.
Variable module_dir : pystr.
Variable path_exists : pystr -> World -> bool.
Variable glob_glob : pystr -> gext (list pystr).
Variable load_yaml : pystr -> gext document.
Variable ArxivAPI : value -> gext unit.
Variable PaperRanker : gext unit.
Variable get_papers_by_date_range :
  value -> value -> value -> value -> value -> gext (list Paper).
Variable get_recent_papers : value -> value -> value -> value -> gext (list Paper).
Variable filter_and_rank_papers :
  list Paper -> list pystr -> list pystr -> value -> value -> option value ->
  value -> value -> gext (list Paper).
Variable sync_papers_to_feishu : list Paper -> dict -> gext value.
Variable create_chat_notifier_from_config : dict -> gext unit.
Variable generate_table_link : pystr -> gext (option pystr).
Variable notify_paper_updates :
  gmap pystr TopicStats -> gmap pystr (representative (Paper := Paper)) ->
  gmap pystr pystr -> gext bool.
Variable HydraConfig_config_name : gext value.

(** *** Profile runner *)

(** Lines 160 to 225: what follows a retrieval that found papers. The
    labels of a result are read when the result is built, after the sync
    step. *)
Definition rank_and_sync (name : pystr) (final_cfg : document)
    (interest_keywords exclude_keywords : list pystr)
    (raw_interest_keywords required_keywords_config : value)
    (search_cfg : dict) (papers : list Paper) : G ProfileResult :=
  if truthy_list interest_keywords || truthy_list exclude_keywords then
    intelligent_cfg <- lift (mapping_of (get (py "intelligent_matching") (VDict [])
                                           final_cfg)) ;;
    let use_intelligent := get (py "enabled") (VBool false) intelligent_cfg in
    score_weights <- (if value_truthy use_intelligent
                      then weights <- lift (dict_of (get (py "score_weights") (VDict [])
                                                       intelligent_cfg)) ;;
                           ret (Some weights)
                      else ret None) ;;
    ranked_papers <- call c_filter_and_rank_papers
                       (filter_and_rank_papers papers interest_keywords exclude_keywords
                          (get (py "min_score") (VFloat 1 (-1)) search_cfg)
                          use_intelligent score_weights
                          raw_interest_keywords required_keywords_config) ;;
    synced_count <- (if truthy_list ranked_papers && FEISHU_AVAILABLE
                     then sync_step_any (sync_papers_to_feishu ranked_papers final_cfg)
                     else ret (PInt 0)) ;;
    research_area <- lift (research_area_of final_cfg name) ;;
    table_name <- lift (table_name_of final_cfg) ;;
    ret {| config_name := name;
           success := true;
           error := None;
           new_papers := py_max synced_count (PInt 0);
           total_papers := len ranked_papers;
           research_area := research_area;
           table_name := table_name;
           ranked_papers := take 1 ranked_papers |}
  else
    research_area <- lift (research_area_of final_cfg name) ;;
    table_name <- lift (table_name_of final_cfg) ;;
    ret {| config_name := name;
           success := true;
           error := None;
           new_papers := PInt 0;
           total_papers := len papers;
           research_area := research_area;
           table_name := table_name;
           ranked_papers := [] |}.

(** Lines 147 to 158, then the rest: a retrieval without papers is a
    success with zero counts. *)
Definition after_retrieval (name : pystr) (final_cfg : document)
    (interest_keywords exclude_keywords : list pystr)
    (raw_interest_keywords required_keywords_config : value)
    (search_cfg : dict) (papers : list Paper) : G ProfileResult :=
  if negb (truthy_list papers) then
    research_area <- lift (research_area_of final_cfg name) ;;
    table_name <- lift (table_name_early final_cfg) ;;
    ret {| config_name := name;
           success := true;
           error := None;
           new_papers := PInt 0;
           total_papers := 0;
           research_area := research_area;
           table_name := table_name;
           ranked_papers := [] |}
  else
    rank_and_sync name final_cfg interest_keywords exclude_keywords
      raw_interest_keywords required_keywords_config search_cfg papers.

(** Lines 93 to 145: the components, the keywords and the retrieval. A
    section is read with [final_cfg.get(k, {})]; the first [get] on what was
    read raises unless it is a mapping. *)
Definition retrieve_and_rank (name : pystr) (final_cfg : document) : G ProfileResult :=
  download_cfg <- lift (mapping_of (get (py "download") (VDict []) final_cfg)) ;;
  let download_dir := get (py "download_dir") (VStr (py "downloads")) download_cfg in
  _ <- call c_ArxivAPI (ArxivAPI download_dir) ;;
  _ <- call c_PaperRanker PaperRanker ;;
  keywords <- lift (load_keywords_from_config final_cfg) ;;
  let '(interest_keywords, exclude_keywords, raw_interest_keywords,
        required_keywords_config) := keywords in
  search_cfg <- lift (mapping_of (get (py "search") (VDict []) final_cfg)) ;;
  let batch_processing_cfg := get (py "batch_processing") (VDict []) search_cfg in
  date_range_cfg <- lift (mapping_of (get (py "date_range") (VDict []) search_cfg)) ;;
  if value_truthy (get (py "enabled") (VBool false) date_range_cfg) then
    let start_date := get (py "start_date") (VStr []) date_range_cfg in
    let end_date := get (py "end_date") (VStr []) date_range_cfg in
    if negb (value_truthy start_date) then
      research_area <- lift (research_area_of final_cfg name) ;;
      table_name <- lift (table_name_early final_cfg) ;;
      ret {| config_name := name;
             success := false;
             error := Some (Message msg_start_date_needed);
             new_papers := PInt 0;
             total_papers := 0;
             research_area := research_area;
             table_name := table_name;
             ranked_papers := [] |}
    else
      papers <- call c_get_papers_by_date_range
                  (get_papers_by_date_range start_date end_date
                     (get (py "max_results") (VInt 300) search_cfg)
                     (get (py "field") (VStr (py "all")) search_cfg)
                     batch_processing_cfg) ;;
      after_retrieval name final_cfg interest_keywords exclude_keywords
        raw_interest_keywords required_keywords_config search_cfg papers
  else
    papers <- call c_get_recent_papers
                (get_recent_papers
                   (get (py "days") (VInt 7) search_cfg)
                   (get (py "max_results") (VInt 300) search_cfg)
                   (get (py "field") (VStr (py "all")) search_cfg)
                   batch_processing_cfg) ;;
    after_retrieval name final_cfg interest_keywords exclude_keywords
      raw_interest_keywords required_keywords_config search_cfg papers.

(** [process_single_config(config_name)] *)
Definition process_single_config (name : pystr) : G ProfileResult :=
  _ <- emit (EvRun name) ;;
  try_except
    (let config_path := config_path_of name in
     found <- call c_exists
                (fun env w => (Returns (path_exists config_path w), env, w)) ;;
     if negb found then ret (not_found_result name)
     else
       cfg <- call c_load_yaml (load_yaml config_path) ;;
       final_cfg <- (if has_key (py "search_config") (body cfg)
                        || has_key (py "user_profile") (body cfg)
                     then lift (merge_document cfg)
                     else ret cfg) ;;
       retrieve_and_rank name final_cfg)
    (fun e => ret (exception_result name e)).

(** *** Summary notifier *)

(** One turn of the loop of [send_batch_summary_notification]. *)
Definition summary_step (acc : tables) (result : ProfileResult) : G tables :=
  if qualifies result then
    let field_name := field_name_of result in
    let update_stats := <[field_name := stats_of result]> (update_stats acc) in
    let papers_by_field :=
      <[field_name :=
          if truthy_list (ranked_papers result)
          then FromResult (ranked_papers result)
          else MadeUp field_name (config_name result) (new_papers result)]>
        (papers_by_field acc) in
    table_link <- call c_generate_table_link
                    (generate_table_link (table_name result)) ;;
    ret {| update_stats := update_stats;
           papers_by_field := papers_by_field;
           table_links :=
             match table_link with
             | Some link =>
                 if truthy link then <[field_name := link]> (table_links acc)
                 else table_links acc
             | None => table_links acc
             end |}
  else ret acc.

Fixpoint summary_loop (results : list ProfileResult) (acc : tables) : G tables :=
  match results with
  | [] => ret acc
  | result :: rest => acc' <- summary_step acc result ;; summary_loop rest acc'
  end.

(** [send_batch_summary_notification(results)] *)
Definition send_batch_summary_notification (results : list ProfileResult) : G bool :=
  _ <- emit EvNotify ;;
  try_except
    (if negb FEISHU_AVAILABLE then ret false
     else
       default_cfg <- call c_load_yaml (load_yaml (py "conf/default.yaml")) ;;
       _ <- call c_create_chat_notifier
              (create_chat_notifier_from_config default_cfg) ;;
       t <- summary_loop results (mk_tables ∅ ∅ ∅) ;;
       if bool_decide (update_stats t = ∅) then ret true
       else call c_notify_paper_updates
              (notify_paper_updates (update_stats t) (papers_by_field t)
                 (table_links t)))
    (fun e => ret false).

(** *** Batch aggregator *)

(** [find_sync_configs()] *)
Definition find_sync_configs : G (list pystr) :=
  let conf_dir := path_join module_dir (py "conf") in
  let pattern := path_join conf_dir (py "sync*.yaml") in
  sync_configs <- call c_glob (glob_glob pattern) ;;
  ret (List.map (fun config => replace (py ".yaml") [] (basename config))
         sync_configs).

(** One turn of the loop of [process_all_configs]. *)
Definition batch_step (acc : tally) (name : pystr) : G tally :=
  let '(all_results, total_new_papers, successful_configs) := acc in
  result <- process_single_config name ;;
  let all_results := all_results ++ [result] in
  if success result
  then ret (all_results,
            (total_new_papers + int_val (new_papers result))%Z,
            (successful_configs + 1)%Z)
  else ret (all_results, total_new_papers, successful_configs).

Fixpoint batch_loop (sync_configs : list pystr) (acc : tally) : G tally :=
  match sync_configs with
  | [] => ret acc
  | name :: rest => acc' <- batch_step acc name ;; batch_loop rest acc'
  end.

(** [process_all_configs()] *)
Definition process_all_configs : G bool :=
  try_except
    (sync_configs <- find_sync_configs ;;
     if negb (truthy_list sync_configs) then ret false
     else
       acc <- batch_loop sync_configs ([], 0%Z, 0%Z) ;;
       let '(all_results, total_new_papers, successful_configs) := acc in
       if (0 <? total_new_papers)%Z
       then send_batch_summary_notification all_results
       else ret true)
    (fun e => ret false).

(** *** The entry point *)

(** A call outside of which the record keeps nothing. *)
Definition quiet {A} (f : gext A) : G A :=
  fun st =>
    match f (environ st) (world st) with
    | (r, env', w') => (r, mk_state env' w' (trace st))
    end.

(** [main(cfg)], lines 657 to 670: the choice between the batch and the run
    on the one configuration [cfg]. The [return] of the batch branch is the
    flag the guarded block gives; the bare [except] catches every exception
    of the block; [single_run] stands for lines 672 to 935, which [main]
    goes on with when the block did not return. *)
Definition main (single_run : dict -> G unit) (cfg : dict) : G unit :=
  returned_early <-
    try_bare
      (config_name <- quiet HydraConfig_config_name ;;
       if is_all config_name then
         success <- process_all_configs ;;
         ret true
       else ret false)
      (ret false) ;;
  if returned_early then ret tt else single_run cfg.

(** *** The engine of [Engine] inside this one *)

(** A collaborator as [Engine] has it: what the collaborator does when its
    call is not left. A call that is left has no counterpart there;
    [agrees] below asks nothing of [Engine] in that case, and the exception
    given for it here is of no account. *)
Definition calm {A} (f : gext A) : Engine.ext (World := World) A :=
  fun env w =>
    match f env w with
    | (Returns a, env', w') => (Ok a, env', w')
    | (Raises e, env', w') => (Raise e, env', w')
    | (Leaves _, env', w') => (Raise (Failure []), env', w')
    end.

(** Where a computation that was left stands: the record ends with the call
    that was left; when that is the sync call, the clearing of the toggle
    follows it, and the toggle is not set. *)
Definition left_at (st' : state) : Prop :=
  (exists pre c,
     trace st' = pre ++ [EvLeft c] /\ c <> c_sync_papers_to_feishu) \/
  (exists pre,
     trace st' = pre ++ [ EvSetEnv BATCH_MODE (py "1");
                          EvLeft c_sync_papers_to_feishu;
                          EvPopEnv BATCH_MODE ] /\
     environ st' !! BATCH_MODE = None).

(** [agrees gm m]: from every state, either a call leaves [gm], or [gm]
    does what [m] does. *)
Definition agrees {A} (gm : G A) (m : Engine.M A) : Prop :=
  forall st,
    (exists b st', gm st = (Leaves b, st') /\ left_at st') \/
    gm st = total m st.

Lemma agrees_ret {A} (a : A) : agrees (ret a) (Engine.ret a).
Proof. intros st. now right. Qed.

Lemma agrees_lift {A} (r : res A) : agrees (lift r) (Engine.lift r).
Proof. intros st. now right. Qed.

Lemma agrees_emit ev : agrees (emit ev) (Engine.emit ev).
Proof. intros st. now right. Qed.

Lemma agrees_bind {A B} (gm : G A) (gf : A -> G B) m f :
  agrees gm m -> (forall a, agrees (gf a) (f a)) ->
  agrees (bind gm gf) (Engine.bind m f).
Proof.
  intros Hm Hf st. unfold bind, Engine.bind, total.
  destruct (Hm st) as [(b & st' & -> & Hl)| ->]; [left; eauto|].
  unfold total. destruct (m st) as [[a|e] st1]; cbn [of_res]; [|now right].
  destruct (Hf a st1) as [H|H]; [now left|right].
  rewrite H. reflexivity.
Qed.

Lemma agrees_try_except {A} (gm : G A) (gh : exn -> G A) m h :
  agrees gm m -> (forall e, agrees (gh e) (h e)) ->
  agrees (try_except gm gh) (Engine.try_except m h).
Proof.
  intros Hm Hh st. unfold try_except, Engine.try_except, total.
  destruct (Hm st) as [(b & st' & -> & Hl)| ->]; [left; eauto|].
  unfold total. destruct (m st) as [[a|e] st1]; cbn [of_res]; [now right|].
  destruct (Hh e st1) as [H|H]; [now left|right].
  rewrite H. reflexivity.
Qed.

Lemma agrees_call {A} c (f : gext A) (m : Engine.ext A) :
  c <> c_sync_papers_to_feishu ->
  (forall env w, m env w = calm f env w) ->
  agrees (call c f) (Engine.call c m).
Proof.
  intros Hc Hm st.
  unfold call, call_any, Engine.call, Engine.call_with, total.
  rewrite Hm. unfold calm.
  destruct (f (environ st) (world st)) as [[[a|e|b] env'] w'];
    cbn [of_res event_of]; [now right|now right|].
  left. eexists b, _. split; [reflexivity|]. left. now eexists _, c.
Qed.

Lemma agrees_sync_step (sync : gext value) (m : Engine.ext value) :
  (forall env w, m env w = calm sync env w) ->
  agrees (sync_step_any sync) (settle (sync_step_any (raising m))).
Proof.
  intros Hm st.
  destruct (sync (<[BATCH_MODE := py "1"]> (environ st)) (world st))
    as [[r env'] w'] eqn:E.
  rewrite (sync_step_any_run sync st r env' w' E).
  unfold total, settle.
  assert (Em : m (<[BATCH_MODE := py "1"]> (environ st)) (world st)
               = calm sync (<[BATCH_MODE := py "1"]> (environ st)) (world st))
    by apply Hm.
  unfold calm in Em. rewrite E in Em.
  destruct r as [v|e|b].
  - right.
    rewrite (sync_step_any_run (Interrupt := Empty_set) (raising m) st
               (Returns v) env' w') by (unfold raising; now rewrite Em).
    reflexivity.
  - right.
    rewrite (sync_step_any_run (Interrupt := Empty_set) (raising m) st
               (Raises e) env' w') by (unfold raising; now rewrite Em).
    reflexivity.
  - left. eexists b, _. split; [reflexivity|]. right.
    exists (trace st). split; [reflexivity|]. apply lookup_delete_eq.
Qed.

(** The steps that decide [agrees] for the code of the engine. *)
#[local] Ltac agree :=
  repeat first
    [ apply agrees_ret
    | apply agrees_lift
    | apply agrees_emit
    | apply agrees_call; [discriminate|intros; reflexivity]
    | apply agrees_sync_step; intros; reflexivity
    | apply agrees_bind; [|intros ?]
    | apply agrees_try_except; [|intros ?]
    | match goal with
      | |- agrees (if ?c then _ else _) _ => destruct c
      | |- agrees (match ?k with _ => _ end) _ => destruct k
      end ].

(** The runner, the notifier and the aggregator of [Engine] on these
    collaborators. *)
Abbreviation runner_of f :=
  (f FEISHU_AVAILABLE path_exists (fun p => calm (load_yaml p))
     (fun download_dir => calm (ArxivAPI download_dir)) (calm PaperRanker)
     (fun start_date end_date max_results field batch =>
        calm (get_papers_by_date_range start_date end_date max_results field batch))
     (fun days max_results field batch =>
        calm (get_recent_papers days max_results field batch))
     (fun papers interest exclude min_score advanced weights raw required =>
        calm (filter_and_rank_papers papers interest exclude min_score advanced
                weights raw required))
     (fun ranked_papers final_cfg =>
        calm (sync_papers_to_feishu ranked_papers final_cfg))).

Abbreviation notifier_of f :=
  (f FEISHU_AVAILABLE (fun p => calm (load_yaml p))
     (fun cfg => calm (create_chat_notifier_from_config cfg))
     (fun table_name => calm (generate_table_link table_name))
     (fun stats papers links => calm (notify_paper_updates stats papers links))).

Abbreviation aggregator_of f :=
  (f FEISHU_AVAILABLE module_dir path_exists (fun p => calm (glob_glob p))
     (fun p => calm (load_yaml p))
     (fun download_dir => calm (ArxivAPI download_dir)) (calm PaperRanker)
     (fun start_date end_date max_results field batch =>
        calm (get_papers_by_date_range start_date end_date max_results field batch))
     (fun days max_results field batch =>
        calm (get_recent_papers days max_results field batch))
     (fun papers interest exclude min_score advanced weights raw required =>
        calm (filter_and_rank_papers papers interest exclude min_score advanced
                weights raw required))
     (fun ranked_papers final_cfg =>
        calm (sync_papers_to_feishu ranked_papers final_cfg))
     (fun cfg => calm (create_chat_notifier_from_config cfg))
     (fun table_name => calm (generate_table_link table_name))
     (fun stats papers links => calm (notify_paper_updates stats papers links))).

Lemma process_single_config_agrees name :
  agrees (process_single_config name)
    (runner_of (Engine.process_single_config (Paper := Paper)) name).
Proof.
  unfold process_single_config, Engine.process_single_config,
    retrieve_and_rank, Engine.retrieve_and_rank,
    after_retrieval, Engine.after_retrieval,
    rank_and_sync, Engine.rank_and_sync, Engine.sync_step.
  agree.
Qed.

Lemma summary_loop_agrees results : forall acc,
  agrees (summary_loop results acc)
    (Engine.summary_loop (Paper := Paper)
       (fun table_name => calm (generate_table_link table_name)) results acc).
Proof.
  induction results as [|result rest IH]; intros acc;
    cbn [summary_loop Engine.summary_loop]; [apply agrees_ret|].
  apply agrees_bind; [|exact IH].
  unfold summary_step, Engine.summary_step. agree.
Qed.

Lemma send_batch_summary_notification_agrees results :
  agrees (send_batch_summary_notification results)
    (notifier_of (Engine.send_batch_summary_notification (Paper := Paper)) results).
Proof.
  unfold send_batch_summary_notification, Engine.send_batch_summary_notification.
  agree. apply summary_loop_agrees.
Qed.

Lemma batch_loop_agrees names : forall acc,
  agrees (batch_loop names acc)
    (runner_of (Engine.batch_loop (Paper := Paper)) names acc).
Proof.
  induction names as [|name rest IH]; intros acc;
    cbn [batch_loop Engine.batch_loop]; [apply agrees_ret|].
  apply agrees_bind; [|exact IH].
  unfold batch_step, Engine.batch_step. destruct acc as [[all total] successful].
  apply agrees_bind; [apply process_single_config_agrees|]. intros result. agree.
Qed.

Lemma process_all_configs_agrees :
  agrees process_all_configs
    (aggregator_of (Engine.process_all_configs (Paper := Paper))).
Proof.
  unfold process_all_configs, Engine.process_all_configs,
    find_sync_configs, Engine.find_sync_configs.
  apply agrees_try_except; [|intros e; apply agrees_ret].
  apply agrees_bind; [agree|]. intros sync_configs.
  destruct (negb (truthy_list sync_configs)); [apply agrees_ret|].
  apply agrees_bind; [apply batch_loop_agrees|]. intros [[all total] successful].
  destruct (0 <? total)%Z; [apply send_batch_summary_notification_agrees|apply agrees_ret].
Qed.

(** What a computation that agrees with one of [Engine] does, from what
    that one does. *)
Lemma agrees_returns {A} (gm : G A) (m : Engine.M A) (P : A -> state -> Prop) st :
  agrees gm m ->
  (exists a st', m st = (Ok a, st') /\ P a st') ->
  (exists a st', gm st = (Returns a, st') /\ P a st') \/
  (exists b st', gm st = (Leaves b, st') /\ left_at st').
Proof.
  intros Hm (a & st' & E & HP). destruct (Hm st) as [H|H]; [now right|].
  left. exists a, st'. split; [|exact HP]. rewrite H. unfold total. now rewrite E.
Qed.

(** ** Properties of the engine that hold for every class of exception *)

(** X7: every run of the profile runner either returns a result, whatever
    exceptions of class [Exception] its collaborators raise, or is left by
    an exception outside that class that left a call of a collaborator; it
    never raises. A result it returns is sound: it carries the name of the
    profile, its counts are not negative, it keeps at most one ranked paper,
    a success has no error, a failure has an error, zero counts and no
    paper, a kept paper comes with a positive total, and a count of new
    papers other than the integer zero comes with a kept paper. When the
    run is left, the call that was left is the last entry of the record,
    followed by the clearing of the toggle when it is the sync call. *)
Theorem process_single_config_result_is_sound (name : pystr) (st : state) :
  (exists r st',
     process_single_config name st = (Returns r, st') /\ sound_result name r) \/
  (exists b st',
     process_single_config name st = (Leaves b, st') /\ left_at st').
Proof.
  apply (agrees_returns _ _ (fun r _ => sound_result name r) st
           (process_single_config_agrees name)).
  apply process_single_config_sound.
Qed.

(** The aggregator ends with a flag from every state, unless it is left. *)
Lemma process_all_configs_returns_or_is_left (st : state) :
  (exists b st',
     process_all_configs st = (Returns b, st') /\
     exists new,
       trace st' = trace st ++ new /\
       (runs new = [] -> b = false) /\
       (b = false -> runs new = [] \/ EvNotify ∈ new)) \/
  (exists x st', process_all_configs st = (Leaves x, st') /\ left_at st').
Proof.
  apply (agrees_returns _ _
           (fun b st' => exists new,
              trace st' = trace st ++ new /\
              (runs new = [] -> b = false) /\
              (b = false -> runs new = [] \/ EvNotify ∈ new)) st
           process_all_configs_agrees).
  destruct (aggregator_of (Engine.process_all_configs_ends (Paper := Paper)) st)
    as (b & st' & new & E & H).
  exists b, st'. split; [exact E|]. now exists new.
Qed.

(** X13: the aggregator never raises, also when the discovery does: it
    returns a flag, or is left by an exception outside class [Exception]
    that left a call of a collaborator. It returns [False] when no profile
    was run, and otherwise returns [False] only if the summary notifier was
    entered: the failure of profiles, even of all of them, does not make
    the batch fail. *)
Theorem process_all_configs_never_raises (st : state) :
  (exists b st',
     process_all_configs st = (Returns b, st') /\
     exists new,
       trace st' = trace st ++ new /\
       (runs new = [] -> b = false) /\
       (b = false -> runs new = [] \/ EvNotify ∈ new)) \/
  (exists x st', process_all_configs st = (Leaves x, st') /\ left_at st').
Proof. exact (process_all_configs_returns_or_is_left st). Qed.

(** X14: the notifier never raises: it returns a flag, or is left by an
    exception outside class [Exception] that left a call of a collaborator.
    When it returns, its calls follow one order: the defaults, the chat
    client, one link lookup per qualifying result, the notification; they
    stop somewhere along it, a call that raised is the last call, and then
    the notifier returns [False]. *)
Theorem notifier_follows_its_protocol
    (results : list ProfileResult) (st : state) :
  (exists b st',
     send_batch_summary_notification results st = (Returns b, st') /\
     exists body,
       trace st' = trace st ++ EvNotify :: body /\
       callees body `prefix_of` notifier_calls results /\
       raise_is_last body /\
       (forall c e, EvCall c (Raise e) ∈ body -> b = false)) \/
  (exists x st',
     send_batch_summary_notification results st = (Leaves x, st') /\ left_at st').
Proof.
  apply (agrees_returns _ _
           (fun b st' => exists body,
              trace st' = trace st ++ EvNotify :: body /\
              callees body `prefix_of` notifier_calls results /\
              raise_is_last body /\
              (forall c e, EvCall c (Raise e) ∈ body -> b = false)) st
           (send_batch_summary_notification_agrees results)).
  destruct (notifier_of
              (Engine.send_batch_summary_notification_protocol (Paper := Paper))
              results st)
    as (b & st' & body & E & H).
  exists b, st'. split; [exact E|]. now exists body.
Qed.

(** X18: started under the configuration name [all], [main] runs the batch
    aggregator. When the aggregator returns, [main] returns, whatever flag
    the aggregator gave, and does not go on to the run on a single
    configuration. When an exception outside class [Exception] leaves the
    aggregator, the bare [except] of [main] catches it, and [main] goes on
    with the run on the single configuration from where the batch was
    left. *)
Theorem main_runs_the_batch_under_all
    (single_run : dict -> G unit) (cfg : dict) (st : state)
    (env1 : gmap pystr pystr) (w1 : World) :
  HydraConfig_config_name (environ st) (world st) =
    (Returns (VStr (py "all")), env1, w1) ->
  (exists b st',
     process_all_configs (mk_state env1 w1 (trace st)) = (Returns b, st') /\
     main single_run cfg st = (Returns tt, st')) \/
  (exists x st',
     process_all_configs (mk_state env1 w1 (trace st)) = (Leaves x, st') /\
     left_at st' /\
     main single_run cfg st = single_run cfg st').
Proof.
  intros Hname.
  assert (Hmain : forall r st',
            process_all_configs (mk_state env1 w1 (trace st)) = (r, st') ->
            main single_run cfg st =
              match r with
              | Returns _ => (Returns tt, st')
              | _ => single_run cfg st'
              end).
  { intros r st' E. unfold main, bind at 1, try_bare, bind at 1, quiet.
    rewrite Hname. cbn [is_all]. rewrite bool_decide_eq_true_2 by reflexivity.
    unfold bind at 1. rewrite E. now destruct r. }
  destruct (process_all_configs_returns_or_is_left (mk_state env1 w1 (trace st)))
    as [(b & st' & E & _)|(x & st' & E & Hl)].
  - left. exists b, st'. split; [exact E|]. now rewrite (Hmain _ _ E).
  - right. exists x, st'. split; [exact E|]. split; [exact Hl|].
    now rewrite (Hmain _ _ E).
Qed.

End Orchestration.

End Interruptible.


(** ** The table sync of this file: [sync_to_feishu] *)

Module TableSync.

Import Control.

(** [sub in s] *)
Fixpoint contains (sub s : pystr) : bool :=
  startswith s sub ||
  match s with
  | [] => false
  | _ :: t => contains sub t
  end.

(** [not os.getenv(var)]: the variable is absent or empty. *)
Definition unset (v : option pystr) : bool :=
  match v with
  | Some s => negb (truthy s)
  | None => true
  end.

(** [bool(os.getenv(var)) and "xxxx" not in os.getenv(var, "")] *)
Definition has_token (v : option pystr) : bool :=
  negb (unset v) && negb (contains (py "xxxx") (default [] v)).

Definition required_vars : list pystr :=
  [ py "FEISHU_APP_ID"; py "FEISHU_APP_SECRET";
    py "FEISHU_BITABLE_APP_TOKEN"; py "FEISHU_PAPERS_TABLE_ID" ].

(** The step of [range(0, n, batch_size)]: an integer, or [TypeError]. *)
Definition int_of (v : value) : res Z :=
  match Engine.as_int v with
  | Some n => Ok (Engine.int_val n)
  | None => Raise TypeError
  end.

(** The indices of [range(0, stop, step)] for a positive [step]. *)
Fixpoint range_up (fuel : nat) (i stop step : Z) : list Z :=
  match fuel with
  | O => []
  | S fuel' =>
      if (i <? stop)%Z then i :: range_up fuel' (i + step) stop step else []
  end.

(** [range(0, stop, step)] for a length [stop]: [ValueError] for the step
    zero, no index for a negative step. *)
Definition range_from_zero (stop step : Z) : res (list Z) :=
  if (step =? 0)%Z then Raise ValueError
  else if (step <? 0)%Z then Ok []
  else Ok (range_up (Z.to_nat stop) 0 stop step).

(** [l[i : i + step]] for an index [i] of the range. *)
Definition slice {A} (l : list A) (i step : Z) : list A :=
  take (Z.to_nat step) (drop (Z.to_nat i) l).

(** [result.get("records")] *)
Definition records_of (result : value) : res (option value) :=
  match result with
  | VDict d => Ok (assoc (py "records") d)
  | _ => Raise AttributeError
  end.

(** [len(v)] *)
Definition py_len (v : value) : res Z :=
  match v with
  | VList l => Ok (Engine.len l)
  | VStr s => Ok (Engine.len s)
  | VDict d => Ok (Engine.len d)
  | _ => Raise TypeError
  end.

(** Lines 469 to 471: what a returned [result] adds to [synced_count]. *)
Definition batch_synced (result : value) : res Z :=
  if value_truthy result then
    res_bind (records_of result) (fun records =>
      match records with
      | Some r => if value_truthy r then py_len r else Ok 0%Z
      | None => Ok 0%Z
      end)
  else Ok 0%Z.

Section Sync.

(** The papers, the rows made of them and whatever lies outside the process
    are those of the collaborators; [Interrupt] is the type of the
    exceptions outside class [Exception]. *)
Context {Paper Row World Interrupt : Type}.

(** What [sync_to_feishu] calls outside itself. *)
Inductive call :=
| LoadDotenv
| Connect
| InsertBatch (batch : list Row)
| InsertRelation (table_id : pystr) (research_area : value).

(** The state: [os.environ], the outside world, and the calls made so far,
    each with whether it returned. *)
Record state := mk_state {
  environ : gmap pystr pystr;
  world : World;
  calls : list (call * bool)
}.

(** A computation returns, raises, or is left by an exception outside class
    [Exception]. *)
Definition M (A : Type) : Type := run (Interrupt := Interrupt) (S := state) A.

Definition ext (A : Type) : Type :=
  gmap pystr pystr -> World -> ending Interrupt A * gmap pystr pystr * World.

Definition returned {A} (r : ending Interrupt A) : bool :=
  match r with
  | Returns _ => true
  | _ => false
  end.

Definition invoke {A} (c : call) (f : ext A) : M A :=
  fun st =>
    match f (environ st) (world st) with
    | (r, env', w') => (r, mk_state env' w' (calls st ++ [(c, returned r)]))
    end.

(** [os.getenv(var)] *)
Definition os_getenv (var : pystr) : M (option pystr) :=
  fun st => (Returns (environ st !! var), st).

Notation "x <- m ;; k" := (bind m (fun x => k))
  (at level 62, m at next level, right associativity).

(** The collaborators; each may raise or be left. [paper_row] stands for the
    row built from a paper at lines 411 to 442, [score_below] for the test
    of line 452, both reads of the paper alone; [insert_relation] for the
    record built and inserted at lines 487 to 495. *)
Variable FEISHU_AVAILABLE : bool.
Variable load_dotenv : ext unit.
Variable FeishuBitableConnector : ext unit.
Variable batch_insert_paper_records : list Row -> ext value.
Variable insert_relation : pystr -> value -> dict -> ext unit.
Variable paper_row : Paper -> res Row.
Variable score_below : Paper -> value -> res bool.

(** Lines 387 to 390: the required variables that are not set. *)
Fixpoint missing (vars : list pystr) : M (list pystr) :=
  match vars with
  | [] => ret []
  | var :: rest =>
      v <- os_getenv var ;;
      missing_vars <- missing rest ;;
      ret (if unset v then var :: missing_vars else missing_vars)
  end.

(** Lines 408 to 443: one row per paper. *)
Fixpoint rows (papers : list Paper) : res (list Row) :=
  match papers with
  | [] => Ok []
  | paper :: rest =>
      res_bind (paper_row paper) (fun paper_data =>
      res_bind (rows rest) (fun feishu_papers =>
      Ok (paper_data :: feishu_papers)))
  end.

(** Lines 450 to 454: the rows of the papers not below the threshold. *)
Fixpoint filter_rows (papers : list Paper) (feishu_papers : list Row)
    (sync_threshold : value) : res (list Row) :=
  match papers, feishu_papers with
  | paper :: papers', paper_data :: rest =>
      res_bind (score_below paper sync_threshold) (fun below =>
      res_bind (filter_rows papers' rest sync_threshold) (fun papers_to_sync =>
      Ok (if below then papers_to_sync else paper_data :: papers_to_sync)))
  | _, _ => Ok []
  end.

(** Lines 464 to 477: the loop over the batches. An exception of class
    [Exception] of a batch is caught and the loop goes on. *)
Fixpoint insert_batches (papers_to_sync : list Row) (batch_size : Z)
    (starts : list Z) (synced_count : Z) : M Z :=
  match starts with
  | [] => ret synced_count
  | i :: rest =>
      let batch := slice papers_to_sync i batch_size in
      synced_count' <-
        try_except
          (result <- invoke (InsertBatch batch)
                       (batch_insert_paper_records batch) ;;
           n <- lift (batch_synced result) ;;
           ret (synced_count + n)%Z)
          (fun _ => ret synced_count) ;;
      insert_batches papers_to_sync batch_size rest synced_count'
  end.

(** [research_area != "unknown"] *)
Definition is_unknown (research_area : value) : bool :=
  match research_area with
  | VStr s => bool_decide (s = py "unknown")
  | _ => false
  end.

(** Line 482: [cfg.get("user_profile", {}).get("research_area", "unknown")] *)
Definition relation_area (cfg : dict) : res value :=
  Engine.py_get (py "research_area") (VStr (py "unknown"))
    (Engine.user_profile_of cfg).

(** Lines 481 to 498: the optional relation record. *)
Definition sync_relation (cfg : dict) : M unit :=
  research_area <- lift (relation_area cfg) ;;
  if value_truthy research_area && negb (is_unknown research_area)
  then
    relations_table_id <- os_getenv (py "FEISHU_RELATIONS_TABLE_ID") ;;
    match relations_table_id with
    | Some table_id =>
        if truthy table_id then
          try_except
            (invoke (InsertRelation table_id research_area)
               (insert_relation table_id research_area cfg))
            (fun _ => ret tt)
        else ret tt
    | None => ret tt
    end
  else ret tt.

(** Lines 374 and 375: [cfg.get("feishu", {})], a mapping where the code
    calls its [get]. *)
Definition feishu_cfg_of (cfg : dict) : res dict :=
  Engine.mapping_of (Engine.get (py "feishu") (VDict []) cfg).

Definition sync_threshold_of (feishu_cfg : dict) : value :=
  Engine.get (py "sync_threshold") (VFloat 0 0) feishu_cfg.

Definition batch_size_of (feishu_cfg : dict) : value :=
  Engine.get (py "batch_size") (VInt 20) feishu_cfg.

Definition enabled (feishu_cfg : dict) : bool :=
  value_truthy (Engine.get (py "enabled") (VBool true) feishu_cfg).

(** [sync_to_feishu(papers, cfg)]; the two reads of lines 374 and 375 stand
    before the [try]. *)
Definition sync_to_feishu (papers : list Paper) (cfg : dict) : M bool :=
  if negb FEISHU_AVAILABLE then ret false
  else
    feishu_cfg <- lift (feishu_cfg_of cfg) ;;
    if negb (enabled feishu_cfg) then ret false
    else
      try_except
        (_ <- invoke LoadDotenv load_dotenv ;;
         missing_vars <- missing required_vars ;;
         user_token <- os_getenv (py "FEISHU_USER_ACCESS_TOKEN") ;;
         tenant_token <- os_getenv (py "FEISHU_TENANT_ACCESS_TOKEN") ;;
         let has_user_token := has_token user_token in
         let has_tenant_token := has_token tenant_token in
         if Engine.truthy_list missing_vars
            || (negb has_user_token && negb has_tenant_token)
         then ret false
         else
           _ <- invoke Connect FeishuBitableConnector ;;
           feishu_papers <- lift (rows papers) ;;
           let sync_threshold := sync_threshold_of feishu_cfg in
           let batch_size := batch_size_of feishu_cfg in
           papers_to_sync <- lift (filter_rows papers feishu_papers sync_threshold) ;;
           if negb (Engine.truthy_list papers_to_sync) then ret true
           else
             step <- lift (int_of batch_size) ;;
             starts <- lift (range_from_zero (Engine.len papers_to_sync) step) ;;
             _ <- insert_batches papers_to_sync step starts 0%Z ;;
             _ <- sync_relation cfg ;;
             ret true)
        (fun _ => ret false).

(** *** What a run leaves in the record *)

(** The rows [sync_to_feishu] sets out to write. *)
Definition rows_to_sync (papers : list Paper) (feishu_cfg : dict) : res (list Row) :=
  res_bind (rows papers) (fun feishu_papers =>
    filter_rows papers feishu_papers (sync_threshold_of feishu_cfg)).

(** The batches handed to the connector in a record, in order. *)
Definition inserted (l : list (call * bool)) : list (list Row) :=
  omap (fun c => match fst c with InsertBatch batch => Some batch | _ => None end) l.

(** The record of a loop over [starts] whose calls ended as [flags]. *)
Definition logged (papers_to_sync : list Row) (batch_size : Z)
    (starts : list Z) (flags : list bool) : list (call * bool) :=
  zip_with (fun i ok => (InsertBatch (slice papers_to_sync i batch_size), ok))
    starts flags.

(** The environment has what the sync needs: the four variables and one of
    the two tokens, not a placeholder. *)
Definition configured (env : gmap pystr pystr) : bool :=
  forallb (fun var => negb (unset (env !! var))) required_vars
  && (has_token (env !! py "FEISHU_USER_ACCESS_TOKEN")
      || has_token (env !! py "FEISHU_TENANT_ACCESS_TOKEN")).

(** The rows and the batches of a run that reached its loop. *)
Record plan := mk_plan {
  plan_cfg : dict;
  plan_rows : list Row;
  plan_step : Z;
  plan_starts : list Z
}.

Definition planned (papers : list Paper) (cfg : dict) (p : plan) : Prop :=
  feishu_cfg_of cfg = Ok (plan_cfg p) /\
  enabled (plan_cfg p) = true /\
  rows_to_sync papers (plan_cfg p) = Ok (plan_rows p) /\
  plan_rows p <> [] /\
  int_of (batch_size_of (plan_cfg p)) = Ok (plan_step p) /\
  range_from_zero (Engine.len (plan_rows p)) (plan_step p) = Ok (plan_starts p).

(** The batches of a plan, in order. *)
Definition batches (p : plan) : list (list Row) :=
  List.map (fun i => slice (plan_rows p) i (plan_step p)) (plan_starts p).

(** What a run that returned [True] went through. *)
Definition passed (papers : list Paper) (cfg : dict) (st : state)
    (feishu_cfg : dict) (to_sync : list Row) : Prop :=
  FEISHU_AVAILABLE = true /\
  feishu_cfg_of cfg = Ok feishu_cfg /\
  enabled feishu_cfg = true /\
  (exists env1 w1,
     load_dotenv (environ st) (world st) = (Returns tt, env1, w1) /\
     configured env1 = true) /\
  rows_to_sync papers feishu_cfg = Ok to_sync.

(** The kinds of run of [sync_to_feishu] from [st]: what it adds to the
    record and how it ends. *)
Inductive sync_kind (papers : list Paper) (cfg : dict) (st : state)
  : list (call * bool) -> ending Interrupt bool -> Prop :=
| sync_unavailable :
    FEISHU_AVAILABLE = false ->
    sync_kind papers cfg st [] (Returns false)
| sync_unreadable e :
    FEISHU_AVAILABLE = true ->
    feishu_cfg_of cfg = Raise e ->
    sync_kind papers cfg st [] (Raises e)
| sync_disabled feishu_cfg :
    feishu_cfg_of cfg = Ok feishu_cfg ->
    enabled feishu_cfg = false ->
    sync_kind papers cfg st [] (Returns false)
| sync_left_early pre c b :
    inserted (pre ++ [(c, false)]) = [] ->
    sync_kind papers cfg st (pre ++ [(c, false)]) (Leaves b)
| sync_dotenv_raised :
    sync_kind papers cfg st [(LoadDotenv, false)] (Returns false)
| sync_not_configured env1 w1 :
    load_dotenv (environ st) (world st) = (Returns tt, env1, w1) ->
    configured env1 = false ->
    sync_kind papers cfg st [(LoadDotenv, true)] (Returns false)
| sync_connect_raised :
    sync_kind papers cfg st [(LoadDotenv, true); (Connect, false)] (Returns false)
| sync_rows_raised feishu_cfg e :
    feishu_cfg_of cfg = Ok feishu_cfg ->
    rows_to_sync papers feishu_cfg = Raise e ->
    sync_kind papers cfg st [(LoadDotenv, true); (Connect, true)] (Returns false)
| sync_nothing feishu_cfg :
    passed papers cfg st feishu_cfg [] ->
    sync_kind papers cfg st [(LoadDotenv, true); (Connect, true)] (Returns true)
| sync_bad_batch_size feishu_cfg to_sync e :
    feishu_cfg_of cfg = Ok feishu_cfg ->
    rows_to_sync papers feishu_cfg = Ok to_sync ->
    to_sync <> [] ->
    res_bind (int_of (batch_size_of feishu_cfg))
      (range_from_zero (Engine.len to_sync)) = Raise e ->
    sync_kind papers cfg st [(LoadDotenv, true); (Connect, true)] (Returns false)
| sync_left_batch p done flags b :
    planned papers cfg p ->
    done `prefix_of` plan_starts p ->
    length flags = length done ->
    last flags = Some false ->
    sync_kind papers cfg st
      ([(LoadDotenv, true); (Connect, true)]
       ++ logged (plan_rows p) (plan_step p) done flags) (Leaves b)
| sync_batches p flags relation (r : ending Interrupt unit) :
    passed papers cfg st (plan_cfg p) (plan_rows p) ->
    planned papers cfg p ->
    length flags = length (plan_starts p) ->
    inserted relation = [] ->
    match r with
    | Returns _ => exists area, relation_area cfg = Ok area
    | Raises e => relation_area cfg = Raise e /\ relation = []
    | Leaves _ => exists c, relation = [(c, false)]
    end ->
    sync_kind papers cfg st
      ([(LoadDotenv, true); (Connect, true)]
       ++ logged (plan_rows p) (plan_step p) (plan_starts p) flags ++ relation)
      (match r with
       | Returns _ => Returns true
       | Raises _ => Returns false
       | Leaves b => Leaves b
       end).

Lemma missing_run vars st :
  missing vars st =
    (Returns (List.filter (fun var => unset (environ st !! var)) vars), st).
Proof.
  induction vars as [|var rest IH]; [reflexivity|].
  cbn [missing List.filter]. unfold bind, os_getenv, ret. rewrite IH.
  now destruct (unset (environ st !! var)).
Qed.

Lemma missing_configured env :
  Engine.truthy_list
    (List.filter (fun var => unset (env !! var)) required_vars)
  || (negb (has_token (env !! py "FEISHU_USER_ACCESS_TOKEN"))
      && negb (has_token (env !! py "FEISHU_TENANT_ACCESS_TOKEN")))
  = negb (configured env).
Proof.
  unfold configured. rewrite negb_andb, negb_orb. f_equal.
  induction required_vars as [|var rest IH]; [reflexivity|].
  cbn [List.filter forallb]. destruct (unset (env !! var)); [reflexivity|].
  exact IH.
Qed.

(** The loop over the batches never raises: it calls the connector once for
    every index, whatever the earlier calls did, unless a call is left by an
    exception outside class [Exception], which ends the loop. *)
Lemma insert_batches_run to_sync step : forall starts count st,
  exists r st' done flags,
    insert_batches to_sync step starts count st = (r, st') /\
    calls st' = calls st ++ logged to_sync step done flags /\
    length flags = length done /\
    done `prefix_of` starts /\
    match r with
    | Returns _ => done = starts
    | Raises _ => False
    | Leaves _ => last flags = Some false
    end.
Proof.
  induction starts as [|i rest IH]; intros count st.
  - exists (Returns count), st, [], []. cbn. now rewrite app_nil_r.
  - cbn [insert_batches]. unfold bind at 1, try_except, bind, invoke, lift, ret.
    destruct (batch_insert_paper_records (slice to_sync i step)
                (environ st) (world st)) as [[[result|e|b] env'] w'];
      cbn [returned].
    + destruct (batch_synced result) as [n|e]; cbn [of_res].
      * destruct (IH (count + n)%Z
                    (mk_state env' w'
                       (calls st ++ [(InsertBatch (slice to_sync i step), true)])))
          as (r & st' & done & flags & -> & Hc & Hl & Hp & Hr).
        exists r, st', (i :: done), (true :: flags). split; [reflexivity|].
        split; [rewrite Hc; cbn [calls logged zip_with]; now rewrite <- app_assoc|].
        split; [cbn; lia|]. split; [now apply prefix_cons|].
        destruct r; [now subst|exact Hr|].
        destruct flags; [discriminate|exact Hr].
      * destruct (IH count
                    (mk_state env' w'
                       (calls st ++ [(InsertBatch (slice to_sync i step), true)])))
          as (r & st' & done & flags & -> & Hc & Hl & Hp & Hr).
        exists r, st', (i :: done), (true :: flags). split; [reflexivity|].
        split; [rewrite Hc; cbn [calls logged zip_with]; now rewrite <- app_assoc|].
        split; [cbn; lia|]. split; [now apply prefix_cons|].
        destruct r; [now subst|exact Hr|].
        destruct flags; [discriminate|exact Hr].
    + destruct (IH count
                  (mk_state env' w'
                     (calls st ++ [(InsertBatch (slice to_sync i step), false)])))
        as (r & st' & done & flags & -> & Hc & Hl & Hp & Hr).
      exists r, st', (i :: done), (false :: flags). split; [reflexivity|].
      split; [rewrite Hc; cbn [calls logged zip_with]; now rewrite <- app_assoc|].
      split; [cbn; lia|]. split; [now apply prefix_cons|].
      destruct r; [now subst|exact Hr|].
      destruct flags; [reflexivity|exact Hr].
    + eexists (Leaves b), _, [i], [false]. split; [reflexivity|].
      split; [reflexivity|]. split; [reflexivity|].
      split; [now exists rest|reflexivity].
Qed.

Lemma sync_relation_run cfg st :
  exists r st' relation,
    sync_relation cfg st = (r, st') /\
    calls st' = calls st ++ relation /\
    inserted relation = [] /\
    match r with
    | Returns _ => exists area, relation_area cfg = Ok area
    | Raises e => relation_area cfg = Raise e /\ relation = []
    | Leaves _ => exists c, relation = [(c, false)]
    end.
Proof.
  unfold sync_relation, bind at 1, lift.
  destruct (relation_area cfg) as [area|e]; cbn [of_res];
    [|exists (Raises e), st, []; cbn; now rewrite app_nil_r].
  assert (Hnone : exists r st' relation,
            (ret tt : M unit) st = (r, st') /\
            calls st' = calls st ++ relation /\
            inserted relation = [] /\
            match r with
            | Returns _ => exists area', Ok area = Ok area'
            | Raises e => Ok area = Raise e /\ relation = []
            | Leaves _ => exists c, relation = [(c, false)]
            end).
  { exists (Returns tt), st, []. cbn. rewrite app_nil_r. eauto. }
  destruct (value_truthy area && negb (is_unknown area)); [|exact Hnone].
  unfold bind, os_getenv.
  destruct (environ st !! py "FEISHU_RELATIONS_TABLE_ID") as [table_id|];
    [|exact Hnone].
  destruct (truthy table_id); [|exact Hnone].
  unfold try_except, invoke, ret.
  destruct (insert_relation _ _ cfg (environ st) (world st))
    as [[[[]|e|b] env'] w']; cbn [returned].
  - eexists (Returns tt), _, [_]. repeat split; eauto.
  - eexists (Returns tt), _, [_]. repeat split; eauto.
  - eexists (Leaves b), _, [_]. repeat split; eauto.
Qed.

Lemma inserted_app a b : inserted (a ++ b) = inserted a ++ inserted b.
Proof. apply omap_app. Qed.

Lemma inserted_logged to_sync step : forall starts flags,
  length flags = length starts ->
  inserted (logged to_sync step starts flags) =
    List.map (fun i => slice to_sync i step) starts.
Proof.
  induction starts as [|i rest IH]; intros [|ok flags] Hl; try discriminate.
  - reflexivity.
  - change (inserted (logged to_sync step (i :: rest) (ok :: flags)))
      with (slice to_sync i step :: inserted (logged to_sync step rest flags)).
    cbn [List.map]. f_equal. apply IH. cbn in Hl. lia.
Qed.

Lemma logged_last to_sync step : forall done flags,
  length flags = length done ->
  last flags = Some false ->
  exists c, last (logged to_sync step done flags) = Some (c, false).
Proof.
  induction done as [|i rest IH]; intros [|ok flags] Hl Hlast; try discriminate.
  destruct flags as [|ok' flags].
  - destruct rest; [|discriminate]. injection Hlast as ->. cbn. eauto.
  - destruct rest as [|j rest]; [discriminate|].
    destruct (IH (ok' :: flags)) as (c & Hc); [cbn in *; lia|exact Hlast|].
    exists c. exact Hc.
Qed.

(** Every run of [sync_to_feishu] is of one of the kinds. *)
Lemma sync_to_feishu_run papers cfg st :
  exists r st' new,
    sync_to_feishu papers cfg st = (r, st') /\
    calls st' = calls st ++ new /\
    sync_kind papers cfg st new r.
Proof.
  unfold sync_to_feishu.
  destruct FEISHU_AVAILABLE eqn:Hf; cbn [negb];
    [|exists (Returns false), st, []; rewrite app_nil_r; repeat split;
      now apply sync_unavailable].
  unfold bind at 1, lift at 1.
  destruct (feishu_cfg_of cfg) as [feishu_cfg|e] eqn:Hcfg; cbn [of_res];
    [|exists (Raises e), st, []; rewrite app_nil_r; repeat split;
      now apply sync_unreadable].
  destruct (enabled feishu_cfg) eqn:He; cbn [negb];
    [|exists (Returns false), st, []; rewrite app_nil_r; repeat split;
      now apply sync_disabled with (feishu_cfg := feishu_cfg)].
  unfold try_except, bind at 1, invoke.
  destruct (load_dotenv (environ st) (world st)) as [[[[]|e|b] env1] w1] eqn:Hd;
    cbn [returned];
    [|eexists (Returns false), _, _; split; [reflexivity|]; split; [reflexivity|];
      apply sync_dotenv_raised
     |eexists (Leaves b), _, _; split; [reflexivity|]; split; [reflexivity|];
      now apply (sync_left_early _ _ _ [])].
  unfold bind at 1. rewrite missing_run. cbn [environ].
  unfold bind at 1, os_getenv at 1. cbn [environ].
  unfold bind at 1, os_getenv at 1. cbn [environ].
  rewrite missing_configured.
  destruct (configured env1) eqn:Hc; cbn [negb];
    [|eexists (Returns false), _, _; split; [reflexivity|]; split; [reflexivity|];
      now apply sync_not_configured with (env1 := env1) (w1 := w1)].
  unfold bind at 1, invoke. cbn [environ world calls].
  destruct (FeishuBitableConnector env1 w1) as [[[[]|e|b] env2] w2];
    cbn [returned];
    [|eexists (Returns false), _, _; split; [reflexivity|]; split;
      [cbn [calls]; now rewrite <- app_assoc|]; apply sync_connect_raised
     |eexists (Leaves b), _, _; split; [reflexivity|]; split;
      [cbn [calls]; now rewrite <- app_assoc|];
      now apply (sync_left_early _ _ _ [(LoadDotenv, true)])].
  unfold bind at 1, lift at 1.
  destruct (rows papers) as [feishu_papers|e] eqn:Hrows; cbn [of_res];
    [|eexists (Returns false), _, _; split; [reflexivity|]; split;
      [cbn [calls]; now rewrite <- app_assoc|];
      apply sync_rows_raised with (feishu_cfg := feishu_cfg) (e := e);
      [exact Hcfg|unfold rows_to_sync; now rewrite Hrows]].
  unfold bind at 1, lift at 1.
  destruct (filter_rows papers feishu_papers (sync_threshold_of feishu_cfg))
    as [to_sync|e] eqn:Hfilter; cbn [of_res];
    [|eexists (Returns false), _, _; split; [reflexivity|]; split;
      [cbn [calls]; now rewrite <- app_assoc|];
      apply sync_rows_raised with (feishu_cfg := feishu_cfg) (e := e);
      [exact Hcfg|unfold rows_to_sync; rewrite Hrows; exact Hfilter]].
  assert (Hto : rows_to_sync papers feishu_cfg = Ok to_sync)
    by (unfold rows_to_sync; rewrite Hrows; exact Hfilter).
  assert (Hpassed : passed papers cfg st feishu_cfg to_sync).
  { split; [exact Hf|]. split; [exact Hcfg|]. split; [exact He|].
    split; [now exists env1, w1|exact Hto]. }
  destruct to_sync as [|row to_sync]; cbn [Engine.truthy_list negb].
  { eexists (Returns true), _, _. split; [reflexivity|]. split;
      [cbn [calls]; now rewrite <- app_assoc|].
    now apply sync_nothing with (feishu_cfg := feishu_cfg). }
  set (l := row :: to_sync) in *.
  unfold bind at 1, lift at 1.
  destruct (int_of (batch_size_of feishu_cfg)) as [step|e] eqn:Hstep; cbn [of_res];
    [|eexists (Returns false), _, _; split; [reflexivity|]; split;
      [cbn [calls]; now rewrite <- app_assoc|];
      apply sync_bad_batch_size with (feishu_cfg := feishu_cfg) (to_sync := l) (e := e);
      [exact Hcfg|exact Hto|discriminate|now rewrite Hstep]].
  unfold bind at 1, lift at 1.
  destruct (range_from_zero (Engine.len l) step) as [starts|e] eqn:Hrange;
    cbn [of_res];
    [|eexists (Returns false), _, _; split; [reflexivity|]; split;
      [cbn [calls]; now rewrite <- app_assoc|];
      apply sync_bad_batch_size with (feishu_cfg := feishu_cfg) (to_sync := l) (e := e);
      [exact Hcfg|exact Hto|discriminate|rewrite Hstep; exact Hrange]].
  set (p := mk_plan feishu_cfg l step starts).
  assert (Hplan : planned papers cfg p).
  { repeat split; trivial. discriminate. }
  unfold bind at 1.
  match goal with
  | |- context [insert_batches l step starts 0%Z ?s] =>
      destruct (insert_batches_run l step starts 0%Z s)
        as (r3 & st3 & done & flags & -> & Hc3 & Hl & Hp & Hr3)
  end.
  destruct r3 as [count|e|b]; [subst done|contradiction|].
  - unfold bind at 1.
    destruct (sync_relation_run cfg st3) as (r4 & st4 & relation & -> & Hc4 & Hrel & Hr4).
    eexists _, st4, ([(LoadDotenv, true); (Connect, true)]
                     ++ logged l step starts flags ++ relation).
    split; [|split].
    2:{ rewrite Hc4, Hc3. cbn [calls]. now rewrite <- !app_assoc. }
    2:{ apply (sync_batches papers cfg st p flags relation r4); trivial. }
    now destruct r4.
  - eexists (Leaves b), st3, _. split; [reflexivity|]. split.
    + rewrite Hc3. cbn [calls]. now rewrite <- !app_assoc.
    + now apply (sync_left_batch papers cfg st p done flags b).
Qed.

Lemma range_up_slices {A} (l : list A) (step : Z) :
  (0 < step)%Z ->
  forall fuel i,
    (0 <= i)%Z ->
    (Engine.len l - i <= Z.of_nat fuel)%Z ->
    concat (List.map (fun i => slice l i step)
              (range_up fuel i (Engine.len l) step)) = drop (Z.to_nat i) l /\
    Forall (fun batch => 0 < length batch <= Z.to_nat step)
      (List.map (fun i => slice l i step)
         (range_up fuel i (Engine.len l) step)).
Proof.
  intros Hstep. unfold Engine.len.
  induction fuel as [|fuel IH]; intros i Hi Hfuel; cbn [range_up].
  - cbn [List.map concat]. split; [|constructor].
    symmetry. apply drop_ge. lia.
  - destruct (i <? Z.of_nat (length l))%Z eqn:Hlt.
    + apply Z.ltb_lt in Hlt. cbn [List.map concat].
      destruct (IH (i + step)%Z) as [Hcat Hall]; [lia|lia|].
      split.
      * rewrite Hcat. unfold slice.
        replace (Z.to_nat (i + step)) with (Z.to_nat i + Z.to_nat step) by lia.
        rewrite <- drop_drop. apply take_drop.
      * constructor; [|exact Hall]. unfold slice.
        rewrite length_take, length_drop. lia.
    + apply Z.ltb_ge in Hlt. cbn [List.map concat]. split; [|constructor].
      symmetry. apply drop_ge. lia.
Qed.

(** The batches of a positive batch size cut the rows into consecutive
    pieces, none empty and none longer than the batch size. *)
Lemma batches_partition {A} (l : list A) (step : Z) (starts : list Z) :
  (0 < step)%Z ->
  range_from_zero (Engine.len l) step = Ok starts ->
  concat (List.map (fun i => slice l i step) starts) = l /\
  Forall (fun batch => 0 < length batch <= Z.to_nat step)
    (List.map (fun i => slice l i step) starts).
Proof.
  intros Hstep. unfold range_from_zero.
  destruct (step =? 0)%Z eqn:H0; [discriminate|].
  destruct (step <? 0)%Z eqn:Hneg; [apply Z.ltb_lt in Hneg; lia|].
  intros [= <-].
  destruct (range_up_slices l step Hstep (Z.to_nat (Engine.len l)) 0%Z)
    as [Hcat Hall]; [lia|unfold Engine.len; lia|].
  split; [exact Hcat|exact Hall].
Qed.

Lemma planned_positive papers cfg p :
  planned papers cfg p -> batches p <> [] -> (0 < plan_step p)%Z.
Proof.
  intros (_ & _ & _ & _ & _ & Hrange) Hsome. unfold range_from_zero in Hrange.
  destruct (plan_step p =? 0)%Z eqn:H0; [discriminate|]. apply Z.eqb_neq in H0.
  destruct (plan_step p <? 0)%Z eqn:Hneg; [|apply Z.ltb_ge in Hneg; lia].
  exfalso. apply Hsome. unfold batches. now injection Hrange as <-.
Qed.

Lemma inserted_prefix p done flags :
  done `prefix_of` plan_starts p ->
  length flags = length done ->
  inserted (logged (plan_rows p) (plan_step p) done flags) `prefix_of` batches p.
Proof.
  intros [rest Hrest] Hl. rewrite (inserted_logged _ _ _ _ Hl).
  unfold batches. rewrite Hrest, List.map_app. now eexists.
Qed.

(** X21: [sync_to_feishu] ends in one of three ways. It raises exactly
    when the connector is available and the [feishu] entry of the
    configuration is not a mapping, at the read of line 375, before anything
    is called. It is left by an exception outside class [Exception] only
    when a call of a collaborator is, and that call is its last. Otherwise
    it returns a flag, and [True] only if the connector is available, the
    sync is enabled, the environment left by [load_dotenv] has the four
    variables and a token, the connector was built, every row could be built
    and compared with the threshold and, when there were rows to write, the
    research area could be read. *)
Theorem sync_to_feishu_ends_in_three_ways
    (papers : list Paper) (cfg : dict) (st : state) :
  exists r st' new,
    sync_to_feishu papers cfg st = (r, st') /\
    calls st' = calls st ++ new /\
    match r with
    | Returns b =>
        b = true ->
        exists feishu_cfg to_sync,
          passed papers cfg st feishu_cfg to_sync /\
          [(LoadDotenv, true); (Connect, true)] `prefix_of` new /\
          (to_sync <> [] -> exists area, relation_area cfg = Ok area)
    | Raises e =>
        FEISHU_AVAILABLE = true /\ feishu_cfg_of cfg = Raise e /\ st' = st
    | Leaves _ => exists c, last new = Some (c, false)
    end /\
    (FEISHU_AVAILABLE = false -> r = Returns false /\ st' = st) /\
    (forall e, FEISHU_AVAILABLE = true -> feishu_cfg_of cfg = Raise e ->
               r = Raises e /\ st' = st).
Proof.
  destruct (sync_to_feishu_run papers cfg st) as (r & st' & new & E & Hc & Hk).
  exists r, st', new. split; [exact E|]. split; [exact Hc|].
  assert (Hoff : FEISHU_AVAILABLE = false -> r = Returns false /\ st' = st).
  { intros Hf. unfold sync_to_feishu in E. rewrite Hf in E.
    now injection E as <- <-. }
  assert (Hraise : forall e, FEISHU_AVAILABLE = true ->
                     feishu_cfg_of cfg = Raise e -> r = Raises e /\ st' = st).
  { intros e Hf He. unfold sync_to_feishu, bind, lift in E.
    rewrite Hf, He in E. now injection E as <- <-. }
  split; [|now split].
  destruct Hk as [Hf|e Hf He|feishu_cfg Hcfg He|pre c b Hnone| |env1 w1 Hd Hconf|
                 |feishu_cfg e Hcfg Hrows|feishu_cfg Hpassed
                 |feishu_cfg to_sync e Hcfg Hto Hne Hbad
                 |p done flags b Hplan Hp Hl Hlast
                 |p flags relation r4 Hpassed Hplan Hl Hrel Hr4];
    try discriminate.
  - split; [exact Hf|]. split; [exact He|]. now apply (Hraise e).
  - exists c. apply last_snoc.
  - intros _. exists feishu_cfg, []. split; [exact Hpassed|].
    split; [now exists []|congruence].
  - destruct (logged_last (plan_rows p) (plan_step p) done flags Hl Hlast)
      as (c & Hc').
    exists c. rewrite last_app, Hc'. reflexivity.
  - destruct r4 as [[]|e|b].
    + intros _. exists (plan_cfg p), (plan_rows p). split; [exact Hpassed|].
      split; [now eexists|]. intros _. exact Hr4.
    + discriminate.
    + destruct Hr4 as (c & ->). exists c.
      rewrite !app_assoc. apply last_snoc.
Qed.

(** X22: when [sync_to_feishu] hands any batch to the connector, the rows of
    the papers not below the threshold are cut into batches of a positive
    size, none empty and none longer than that size, which put end to end
    are exactly these rows in order; the batches handed over are the first
    of these, and all of them unless a call was left by an exception outside
    class [Exception]: an insert that raises does not stop the loop. The
    function then returns [True] exactly when the research area of line 482
    can be read, even if every insert raised. *)
Theorem inserted_batches_partition_the_rows
    (papers : list Paper) (cfg : dict) (st : state) :
  exists r st' new,
    sync_to_feishu papers cfg st = (r, st') /\
    calls st' = calls st ++ new /\
    (inserted new <> [] ->
     exists p,
       planned papers cfg p /\
       (0 < plan_step p)%Z /\
       concat (batches p) = plan_rows p /\
       Forall (fun batch => 0 < length batch <= Z.to_nat (plan_step p))
         (batches p) /\
       inserted new `prefix_of` batches p /\
       match r with
       | Returns b =>
           inserted new = batches p /\
           (b = true <-> exists area, relation_area cfg = Ok area)
       | Raises _ => False
       | Leaves _ => exists c, last new = Some (c, false)
       end).
Proof.
  destruct (sync_to_feishu_run papers cfg st) as (r & st' & new & E & Hc & Hk).
  exists r, st', new. split; [exact E|]. split; [exact Hc|].
  destruct Hk as [Hf|e Hf He|feishu_cfg Hcfg He|pre c b Hnone| |env1 w1 Hd Hconf|
                 |feishu_cfg e Hcfg Hrows|feishu_cfg Hpassed
                 |feishu_cfg to_sync e Hcfg Hto Hne Hbad
                 |p done flags b Hplan Hp Hl Hlast
                 |p flags relation r4 Hpassed Hplan Hl Hrel Hr4];
    try (intros Hnot; exfalso; apply Hnot; reflexivity).
  - intros Hnot. exfalso. now apply Hnot.
  - intros Hsome. exists p.
    pose proof (inserted_prefix p done flags Hp Hl) as Hpre.
    assert (Hins : inserted ([(LoadDotenv, true); (Connect, true)]
                             ++ logged (plan_rows p) (plan_step p) done flags)
                   = inserted (logged (plan_rows p) (plan_step p) done flags))
      by now rewrite inserted_app.
    rewrite Hins in *.
    assert (Hpos : (0 < plan_step p)%Z).
    { apply (planned_positive _ _ _ Hplan). intros Hnil. rewrite Hnil in Hpre.
      apply prefix_nil_inv in Hpre. now apply Hsome. }
    destruct Hplan as (H1 & H2 & H3 & H4 & H5 & H6).
    destruct (batches_partition _ _ _ Hpos H6) as [Hcat Hall].
    split; [now repeat split|]. split; [exact Hpos|]. split; [exact Hcat|].
    split; [exact Hall|]. split; [exact Hpre|].
    destruct (logged_last (plan_rows p) (plan_step p) done flags Hl Hlast)
      as (c & Hc').
    exists c. rewrite last_app, Hc'. reflexivity.
  - intros Hsome. exists p.
    assert (Hins : inserted ([(LoadDotenv, true); (Connect, true)]
                             ++ logged (plan_rows p) (plan_step p) (plan_starts p) flags
                             ++ relation)
                   = batches p).
    { rewrite !inserted_app, Hrel, app_nil_r, (inserted_logged _ _ _ _ Hl).
      reflexivity. }
    rewrite Hins in *.
    pose proof (planned_positive _ _ _ Hplan Hsome) as Hpos.
    pose proof Hplan as (H1 & H2 & H3 & H4 & H5 & H6).
    destruct (batches_partition _ _ _ Hpos H6) as [Hcat Hall].
    split; [exact Hplan|]. split; [exact Hpos|]. split; [exact Hcat|].
    split; [exact Hall|]. split; [reflexivity|].
    destruct r4 as [[]|e|b].
    + split; [reflexivity|]. now split.
    + split; [reflexivity|]. destruct Hr4 as [Hr4 _]. split; [discriminate|].
      intros (area & Harea). congruence.
    + destruct Hr4 as (c & ->). exists c. rewrite !app_assoc. apply last_snoc.
Qed.

(** X23: [True] does not mean that anything was handed over: when
    [sync_to_feishu] returns [True] without a batch, either no paper passed
    the threshold, or there were rows to write and the batch size is
    negative, so that the loop over the batches has no turn; with rows to
    write, the batch size zero never gives [True], and a negative one that
    gives [True] hands nothing over. *)
Theorem success_without_a_batch
    (papers : list Paper) (cfg : dict) (st : state) :
  exists r st' new,
    sync_to_feishu papers cfg st = (r, st') /\
    calls st' = calls st ++ new /\
    (r = Returns true -> inserted new = [] ->
     exists feishu_cfg to_sync,
       feishu_cfg_of cfg = Ok feishu_cfg /\
       rows_to_sync papers feishu_cfg = Ok to_sync /\
       (to_sync = [] \/
        exists step,
          int_of (batch_size_of feishu_cfg) = Ok step /\ (step < 0)%Z)) /\
    (forall feishu_cfg to_sync step,
       feishu_cfg_of cfg = Ok feishu_cfg ->
       rows_to_sync papers feishu_cfg = Ok to_sync ->
       to_sync <> [] ->
       int_of (batch_size_of feishu_cfg) = Ok step ->
       (step = 0%Z -> r <> Returns true) /\
       (r = Returns true -> (step < 0)%Z -> inserted new = [])).
Proof.
  destruct (sync_to_feishu_run papers cfg st) as (r & st' & new & E & Hc & Hk).
  exists r, st', new. split; [exact E|]. split; [exact Hc|].
  destruct Hk as [Hf|e Hf He|feishu_cfg Hcfg He|pre c b Hnone| |env1 w1 Hd Hconf|
                 |feishu_cfg e Hcfg Hrows|feishu_cfg Hpassed
                 |feishu_cfg to_sync e Hcfg Hto Hne Hbad
                 |p done flags b Hplan Hp Hl Hlast
                 |p flags relation r4 Hpassed Hplan Hl Hrel Hr4];
    try (split; [discriminate|]; intros feishu_cfg' to_sync' step' _ _ _ _;
         split; [discriminate|discriminate]).
  - destruct Hpassed as (_ & Hcfg & _ & _ & Hto). split.
    + intros _ _. exists feishu_cfg, []. split; [exact Hcfg|].
      split; [exact Hto|now left].
    + intros feishu_cfg' to_sync' step' Hcfg' Hto'. congruence.
  - assert (Hins : inserted ([(LoadDotenv, true); (Connect, true)]
                             ++ logged (plan_rows p) (plan_step p) (plan_starts p) flags
                             ++ relation)
                   = batches p).
    { rewrite !inserted_app, Hrel, app_nil_r, (inserted_logged _ _ _ _ Hl).
      reflexivity. }
    rewrite Hins.
    destruct Hplan as (Hcfg & Hen & Hto & Hne & Hstep & Hrange).
    unfold range_from_zero in Hrange.
    destruct (plan_step p =? 0)%Z eqn:H0; [discriminate|]. apply Z.eqb_neq in H0.
    split.
    + intros _ Hnone. exists (plan_cfg p), (plan_rows p).
      split; [exact Hcfg|]. split; [exact Hto|]. right.
      exists (plan_step p). split; [exact Hstep|].
      destruct (plan_step p <? 0)%Z eqn:Hneg; [now apply Z.ltb_lt in Hneg|].
      exfalso. unfold batches in Hnone. injection Hrange as Hstarts.
      rewrite <- Hstarts in Hnone.
      destruct (plan_rows p) as [|row rest]; [congruence|].
      unfold Engine.len in Hnone. cbn [length] in Hnone.
      rewrite Nat2Z.id in Hnone. cbn [range_up] in Hnone.
      replace (0 <? Z.of_nat (S (length rest)))%Z with true in Hnone
        by (symmetry; apply Z.ltb_lt; lia).
      discriminate.
    + intros feishu_cfg' to_sync' step' Hcfg' Hto' _ Hstep'.
      rewrite Hcfg in Hcfg'. injection Hcfg' as <-.
      rewrite Hto in Hto'. injection Hto' as <-.
      rewrite Hstep in Hstep'. injection Hstep' as <-.
      split; [congruence|]. intros _ Hneg.
      apply Z.ltb_lt in Hneg. rewrite Hneg in Hrange. unfold batches.
      now injection Hrange as <-.
Qed.

End Sync.

End TableSync.

(** ** Runs on a small world

    Collaborators fixed to simple ones, to run the engine on: the world is
    the list of the documents on disk, every document on disk is the same
    profile, the archive has five recent papers of which three rank, and the
    sync ends as the scenario says. *)

Module Scenario.

Import Engine.

Definition Paper := nat.
Definition World := list pystr.

Definition profile_doc : dict :=
  [ (py "user_profile",
      VDict [ (py "name", VStr (py "Robotics"));
              (py "research_area", VStr (py "robotics")) ]);
    (py "interest_keywords",
      VList [ VStr (py "# manipulation"); VStr (py " grasping "); VStr (py "") ]) ].

Definition path_exists (p : pystr) (w : World) : bool := bool_decide (p ∈ w).

Definition glob_glob (pattern : pystr) : ext (World := World) (list pystr) :=
  fun env w => (Ok w, env, w).

Definition profile_document : document := mk_document profile_doc eq_refl.

Definition load_yaml (p : pystr) : ext (World := World) document :=
  fun env w => (Ok profile_document, env, w).

Definition returns {A} (a : A) : ext (World := World) A :=
  fun env w => (Ok a, env, w).

Definition ends {A} (r : res A) : ext (World := World) A :=
  fun env w => (r, env, w).

(** The runner with a sync that ends as [sync_outcome]. *)
Definition run_profile (sync_outcome : res value) (name : pystr)
  : M (World := World) (ProfileResult (Paper := Paper)) :=
  process_single_config true path_exists load_yaml
    (fun _ => returns tt) (returns tt)
    (fun _ _ _ _ _ => returns [1; 2; 3; 4; 5])
    (fun _ _ _ _ => returns [1; 2; 3; 4; 5])
    (fun _ _ _ _ _ _ _ _ => returns [3; 1; 2])
    (fun _ _ => ends sync_outcome)
    name.

(** The aggregator over the same collaborators, with a chat that accepts
    every notification. *)
Definition run_batch (sync_outcome : res value) : M (World := World) bool :=
  process_all_configs (Paper := Paper) true (py "/app") path_exists glob_glob load_yaml
    (fun _ => returns tt) (returns tt)
    (fun _ _ _ _ _ => returns [1; 2; 3; 4; 5])
    (fun _ _ _ _ => returns [1; 2; 3; 4; 5])
    (fun _ _ _ _ _ _ _ _ => returns [3; 1; 2])
    (fun _ _ => ends sync_outcome)
    (fun _ => returns tt)
    (fun _ => returns None)
    (fun _ _ _ => returns true).

(** A start with the given documents on disk, an empty environment and an
    empty record. *)
Definition start (files : World) : state := mk_state ∅ files [].

Definition two_profiles : World :=
  [ py "conf/sync_robotics.yaml"; py "conf/sync_vision.yaml" ].

(** The state after the discovery of the two profiles. *)
Definition discovered : state :=
  mk_state ∅ two_profiles [EvCall c_glob (Ok None)].

Definition result_of (name : pystr) (ok : bool) (new total : Z) (table : pystr)
  : ProfileResult (Paper := Paper) :=
  {| config_name := name;
     success := ok;
     error := None;
     new_papers := PInt new;
     total_papers := total;
     research_area := area_of_name name;
     table_name := table;
     ranked_papers := [] |}.

(** Two profiles with the table name of the topic Robotics, a failed one
    and one without new papers. *)
Definition four_results : list (ProfileResult (Paper := Paper)) :=
  [ result_of (py "sync_robotics") true 2 5 (py "Robotics" ++ table_token);
    result_of (py "sync_vision") false 0 0 [];
    result_of (py "sync_robots") true 2 9 (py "Robotics" ++ table_token);
    result_of (py "sync_nlp") true 0 4 (py "NLP" ++ table_token) ].

(** A profile that sets intelligent matching both in the canonical and in
    the legacy section. *)
Definition legacy_profile : dict :=
  [ (py "user_profile", VDict [ (py "name", VStr (py "Robotics")) ]);
    (py "intelligent_matching", VDict [ (py "enabled", VBool false) ]);
    (py "intelligent_matching_config",
      VDict [ (py "enabled", VBool true);
              (py "score_weights", VDict [ (py "base", VFloat 20 (-1)) ]) ]) ].

(** The merge of [legacy_profile] into the base defaults. Under
    [score_weights], a mapping on both sides, the legacy [base] stands beside
    the default [semantic]. *)
Definition legacy_profile_merged : dict :=
  [ (py "search",
      VDict [ (py "days", VInt 7); (py "max_results", VInt 300);
              (py "max_display", VInt 10); (py "min_score", VFloat 1 (-1));
              (py "field", VStr (py "all")) ]);
    (py "download",
      VDict [ (py "enabled", VBool false); (py "max_downloads", VInt 10);
              (py "download_dir", VStr (py "downloads")) ]);
    (py "intelligent_matching",
      VDict [ (py "enabled", VBool true);
              (py "score_weights",
                VDict [ (py "base", VFloat 20 (-1)); (py "semantic", VFloat 3 (-1)) ]) ]);
    (py "display",
      VDict [ (py "show_ranking", VBool true); (py "show_scores", VBool true);
              (py "show_breakdown", VBool false); (py "stats", VBool true) ]);
    (py "output",
      VDict [ (py "save", VBool true); (py "save_keywords", VBool false);
              (py "include_scores", VBool true);
              (py "format", VStr (py "markdown")) ]);
    (py "user_profile", VDict [ (py "name", VStr (py "Robotics")) ]);
    (py "intelligent_matching_config",
      VDict [ (py "enabled", VBool true);
              (py "score_weights", VDict [ (py "base", VFloat 20 (-1)) ]) ]) ].

(** The path operations on the values Python gives on a POSIX system. *)
Example path_examples :
  path_join (py "conf") (py "sync_a.yaml") = py "conf/sync_a.yaml" /\
  path_join (py "conf") (py "/x.yaml") = py "/x.yaml" /\
  path_join (py "conf/") (py "x") = py "conf/x" /\
  basename (py "/app/conf/sync_a.yaml") = py "sync_a.yaml" /\
  basename (py "a/") = [] /\
  basename (py "abc") = py "abc".
Proof. repeat split. Qed.

(** *** The runner on a missing document *)

(** C1, at the profile [sync_robotics] with no document on disk: the runner
    returns a failure with zero counts and no paper, but with an empty
    research area and an empty table name, where the handler of the same
    function derives both from the profile identifier. *)
Theorem missing_document_result_has_empty_labels :
  exists r st',
    run_profile (Ok (VInt 0)) (py "sync_robotics") (start []) = (Ok r, st') /\
    r = not_found_result (py "sync_robotics") /\
    success r = false /\
    new_papers r = PInt 0 /\
    total_papers r = 0%Z /\
    ranked_papers r = [] /\
    research_area r = [] /\
    table_name r = [] /\
    area_of_name (py "sync_robotics") = py "robotics" /\
    research_area (exception_result (Paper := Paper) (py "sync_robotics") TypeError)
      = py "robotics" /\
    table_name (exception_result (Paper := Paper) (py "sync_robotics") TypeError)
      = py "robotics" ++ table_token.
Proof.
  eexists _, _. split.
  - unfold run_profile. apply process_single_config_missing. reflexivity.
  - repeat split.
Qed.

(** *** The runner on a document that ranks three papers *)

(** With five papers retrieved and three ranked, the result counts the three
    and carries the best one alone. *)
Example ranked_run_counts_ranked_papers :
  exists r st',
    run_profile (Ok (VInt 3)) (py "sync_robotics") (start two_profiles) = (Ok r, st') /\
    success r = true /\ new_papers r = PInt 3 /\ total_papers r = 3%Z /\
    ranked_papers r = [3] /\
    research_area r = py "robotics" /\
    table_name r = py "Robotics" ++ table_token.
Proof. eexists _, _. split; [vm_compute; reflexivity|]. repeat split. Qed.

(** A run whose sync call raises, from a state in which the toggle was
    already set. *)
Definition toggle_set : state :=
  mk_state {[ BATCH_MODE := py "1" ]} two_profiles [].







Lemma batch_mode_is_set_and_cleared_witness :
  exists r st',
    run_profile (Raise (Failure (py "table unreachable"))) (py "sync_robotics")
      toggle_set = (Ok r, st') /\
    clears (trace st') = 1 /\
    environ st' !! BATCH_MODE = None.
Proof.
  unfold run_profile.
  destruct (proj2 (batch_mode_is_set_and_cleared true path_exists load_yaml
              (fun _ => returns tt) (returns tt)
              (fun _ _ _ _ _ => returns [1; 2; 3; 4; 5])
              (fun _ _ _ _ => returns [1; 2; 3; 4; 5])
              (fun _ _ _ _ _ _ _ _ => returns [3; 1; 2])
              (fun _ _ => ends (Raise (Failure (py "table unreachable")))))
              (py "sync_robotics") toggle_set)
    as (r & st' & new & Hrun & Ht & H).
  exists r, st'. split; [exact Hrun|].
  vm_compute in Hrun. injection Hrun as <- <-.
  cbn [trace toggle_set app] in Ht. subst new.
  match type of H with
  | forall _, _ ∈ ?l -> _ =>
      assert (Hin : EvCall c_sync_papers_to_feishu
                      (Raise (Failure (py "table unreachable"))) ∈ l)
        by (rewrite !elem_of_cons; tauto)
  end.
  destruct (H _ Hin) as (_ & Hclears & _ & Henv). split; [exact Hclears|exact Henv].
Defined.

(** The exceptions outside class [Exception]. *)
Inductive interrupt :=
| KeyboardInterrupt
| SystemExit
| GeneratorExit.

(** A sync call that a [KeyboardInterrupt] leaves, after it changed the
    environment: the sync step lets the exception through, with the toggle
    cleared and the rest of the environment as the call left it. *)
Example interrupted_sync_clears_the_toggle :
  sync_step_any (World := World)
    (fun env w => (Control.Leaves KeyboardInterrupt,
                   <[py "LANG" := py "C"]> env, w))
    toggle_set =
  (Control.Leaves KeyboardInterrupt,
   mk_state {[ py "LANG" := py "C" ]} two_profiles
     [ EvSetEnv BATCH_MODE (py "1");
       EvLeft c_sync_papers_to_feishu;
       EvPopEnv BATCH_MODE ]).
Proof.
  rewrite (sync_step_any_run _ _ (Control.Leaves KeyboardInterrupt)
             (<[py "LANG" := py "C"]> (<[BATCH_MODE := py "1"]> (environ toggle_set)))
             two_profiles eq_refl).
  unfold after_sync_step. cbn [environ world trace toggle_set event_of app].
  reflexivity.
Qed.



(** *** The aggregator on two profiles *)

Lemma every_discovered_profile_is_run_once_witness :
  exists b st' new,
    run_batch (Ok (VInt 2)) (start two_profiles) = (Ok b, st') /\
    trace st' = trace (start two_profiles) ++ new /\
    runs new = [py "sync_robotics"; py "sync_vision"] /\
    ([py "sync_robotics"; py "sync_vision"] = [] -> b = false).
Proof.
  unfold run_batch.
  apply (every_discovered_profile_is_run_once true (py "/app") path_exists
           glob_glob load_yaml _ _ _ _ _ _ _ _ _
           (start two_profiles) [py "sync_robotics"; py "sync_vision"] discovered).
  reflexivity.
Defined.

Lemma notifier_runs_iff_new_papers_witness :
  exists results successful st1 b st' new,
    batch_loop true path_exists load_yaml
      (fun _ => returns tt) (returns tt)
      (fun _ _ _ _ _ => returns [1; 2; 3; 4; 5])
      (fun _ _ _ _ => returns [1; 2; 3; 4; 5])
      (fun _ _ _ _ _ _ _ _ => returns [3; 1; 2])
      (fun _ _ => ends (Ok (VInt 2)))
      [py "sync_robotics"; py "sync_vision"] ([], 0%Z, 0%Z) discovered =
      (Ok (results, sum_new results, successful), st1) /\
    length results = length [py "sync_robotics"; py "sync_vision"] /\
    run_batch (Ok (VInt 2)) (start two_profiles) = (Ok b, st') /\
    trace st' = trace (start two_profiles) ++ new /\
    (EvNotify ∈ new <-> (0 < sum_new results)%Z) /\
    ((sum_new results <= 0)%Z -> b = true /\ st' = st1).
Proof.
  unfold run_batch.
  apply (notifier_runs_iff_new_papers true (py "/app") path_exists
           glob_glob load_yaml _ _ _ _ _ _ _ _ _
           (start two_profiles) [py "sync_robotics"; py "sync_vision"] discovered).
  - reflexivity.
  - discriminate.
Defined.

(** A batch in which every sync wrote nothing: both profiles succeed, the
    notifier is not entered, and the run returns [True]. *)
Example batch_without_new_papers_is_silent :
  exists st',
    run_batch (Ok (VInt 0)) (start two_profiles) = (Ok true, st') /\
    runs (trace st') = [py "sync_robotics"; py "sync_vision"] /\
    EvNotify ∉ trace st'.
Proof.
  eexists. split; [vm_compute; reflexivity|]. split; [reflexivity|].
  cbn [trace]. rewrite !not_elem_of_cons.
  repeat split; try discriminate. apply not_elem_of_nil.
Qed.

(** A batch in which no profile has a document: both runs fail, both are
    made, the notifier is not entered. *)
Example batch_of_failures_runs_every_profile :
  exists st',
    process_all_configs (Paper := Paper) true (py "/app")
      (fun _ _ => false) glob_glob load_yaml
      (fun _ => returns tt) (returns tt)
      (fun _ _ _ _ _ => returns [])
      (fun _ _ _ _ => returns [])
      (fun _ _ _ _ _ _ _ _ => returns [])
      (fun _ _ => returns (VInt 0))
      (fun _ => returns tt) (fun _ => returns None) (fun _ _ _ => returns true)
      (start two_profiles) = (Ok true, st') /\
    runs (trace st') = [py "sync_robotics"; py "sync_vision"] /\
    EvNotify ∉ trace st'.
Proof.
  eexists. split; [vm_compute; reflexivity|]. split; [reflexivity|].
  cbn [trace]. rewrite !not_elem_of_cons.
  repeat split; try discriminate. apply not_elem_of_nil.
Qed.

(** *** The notifier on two results with one label *)


(** *** The merger on the base defaults and a legacy section *)

Example legacy_profile_merge :
  Merger.merge_configs base_cfg legacy_profile = Ok legacy_profile_merged.
Proof. reflexivity. Qed.


End Scenario.

(** ** Further runs on the small world *)

Module Cases.

Import Engine Scenario.

(** *** The merger *)

Lemma merge_configs_keeps_base_keys_witness :
  has_key (py "download") legacy_profile_merged = true.
Proof.
  apply (Merger.merge_configs_keeps_base_keys base_cfg legacy_profile
           legacy_profile_merged (py "download")); reflexivity.
Defined.

#[local] Ltac untouched := apply Merger.untouched_by_test; reflexivity.

Lemma merge_configs_keeps_base_only_values_witness :
  assoc (py "download") legacy_profile_merged =
    Some (VDict [ (py "enabled", VBool false); (py "max_downloads", VInt 10);
                  (py "download_dir", VStr (py "downloads")) ]).
Proof.
  apply (Merger.merge_configs_keeps_base_only_values base_cfg legacy_profile
           legacy_profile_merged (py "download")); try reflexivity.
  untouched.
Defined.

Lemma merge_configs_override_wins_witness :
  exists v',
    assoc (py "user_profile") legacy_profile_merged = Some v' /\
    v' = VDict [ (py "name", VStr (py "Robotics")) ].
Proof.
  destruct (Merger.merge_configs_override_wins base_cfg legacy_profile
              legacy_profile_merged (py "user_profile")
              (VDict [ (py "name", VStr (py "Robotics")) ]))
    as (v' & Hv & _ & _ & Hnew); [reflexivity|reflexivity|untouched|].
  exists v'. split; [exact Hv|]. now apply Hnew.
Defined.

Lemma merge_configs_search_config_without_search_witness :
  exists e,
    Merger.merge_configs [] [ (py "search_config", VDict [ (py "days", VInt 3) ]) ]
      = Raise e.
Proof.
  apply (Merger.merge_configs_search_config_without_search []
           [ (py "search_config", VDict [ (py "days", VInt 3) ]) ]
           (VDict [ (py "days", VInt 3) ])); reflexivity.
Defined.

Lemma merge_configs_creates_missing_section_witness :
  exists merged,
    Merger.merge_configs []
      [ (py "download_config", VDict [ (py "enabled", VBool true) ]) ]
      = Ok merged /\
    assoc (py "download") merged = Some (VDict [ (py "enabled", VBool true) ]).
Proof.
  destruct (Merger.merge_configs []
              [ (py "download_config", VDict [ (py "enabled", VBool true) ]) ])
    as [merged|e] eqn:E; [|vm_compute in E; discriminate].
  exists merged. split; [reflexivity|].
  apply (Merger.merge_configs_creates_missing_section []
           [ (py "download_config", VDict [ (py "enabled", VBool true) ]) ]
           merged (py "download_config") (py "download")
           [ (py "enabled", VBool true) ] E); try reflexivity.
  unfold Merger.config_mappings. apply list_elem_of_further, list_elem_of_here.
Defined.

(** *** The runner *)

(** The runner on a document that cannot be loaded. *)
Definition run_unreadable (name : pystr)
  : M (World := World) (ProfileResult (Paper := Paper)) :=
  process_single_config true path_exists
    (fun _ => ends (Raise (Failure (py "bad document"))))
    (fun _ => returns tt) (returns tt)
    (fun _ _ _ _ _ => returns [1; 2; 3; 4; 5])
    (fun _ _ _ _ => returns [1; 2; 3; 4; 5])
    (fun _ _ _ _ _ _ _ _ => returns [3; 1; 2])
    (fun _ _ => returns (VInt 3))
    name.

Lemma raising_call_gives_exception_result_witness :
  exists r st',
    run_unreadable (py "sync_robotics") (start two_profiles) = (Ok r, st') /\
    r = exception_result (py "sync_robotics") (Failure (py "bad document")).
Proof.
  destruct (run_unreadable (py "sync_robotics") (start two_profiles))
    as [[r|e] st'] eqn:E; [|vm_compute in E; discriminate].
  exists r, st'. split; [reflexivity|].
  pose proof E as E'. vm_compute in E'. injection E' as _ Hst.
  unfold run_unreadable in E.
  apply (raising_call_gives_exception_result _ _ _ _ _ _ _ _ _ _ _ _ _
           [ EvRun (py "sync_robotics"); EvCall c_exists (Ok None);
             EvCall c_load_yaml (Raise (Failure (py "bad document"))) ]
           c_load_yaml _ E).
  - now rewrite <- Hst.
  - apply list_elem_of_further, list_elem_of_further, list_elem_of_here.
  - discriminate.
Defined.

(** The runner on the document [doc]. *)
Definition run_on (doc : document) (name : pystr)
  : M (World := World) (ProfileResult (Paper := Paper)) :=
  process_single_config true path_exists (fun _ => returns doc)
    (fun _ => returns tt) (returns tt)
    (fun _ _ _ _ _ => returns [1; 2; 3; 4; 5])
    (fun _ _ _ _ => returns [1; 2; 3; 4; 5])
    (fun _ _ _ _ _ _ _ _ => returns [3; 1; 2])
    (fun _ _ => returns (VInt 3))
    name.

(** An empty [download] entry, which YAML reads as [None], has no [get]:
    the run fails at line 94, before the archive client is built. An empty
    [search] entry fails at line 107, after the keywords were loaded. *)
Example sections_of_other_types :
  run_on (mk_document [ (py "download", VNull) ] eq_refl) (py "sync_robotics")
    (start two_profiles) =
  (Ok (exception_result (py "sync_robotics") AttributeError),
   mk_state ∅ two_profiles
     [ EvRun (py "sync_robotics"); EvCall c_exists (Ok None);
       EvCall c_load_yaml (Ok None) ]) /\
  run_on (mk_document [ (py "search", VNull) ] eq_refl) (py "sync_robotics")
    (start two_profiles) =
  (Ok (exception_result (py "sync_robotics") AttributeError),
   mk_state ∅ two_profiles
     [ EvRun (py "sync_robotics"); EvCall c_exists (Ok None);
       EvCall c_load_yaml (Ok None); EvCall c_ArxivAPI (Ok None);
       EvCall c_PaperRanker (Ok None) ]).
Proof. split; vm_compute; reflexivity. Qed.

Lemma without_connector_nothing_is_synced_witness :
  exists r st' body,
    process_single_config (Paper := Paper) false path_exists load_yaml
      (fun _ => returns tt) (returns tt)
      (fun _ _ _ _ _ => returns [1; 2; 3; 4; 5])
      (fun _ _ _ _ => returns [1; 2; 3; 4; 5])
      (fun _ _ _ _ _ _ _ _ => returns [3; 1; 2])
      (fun _ _ => returns (VInt 3))
      (py "sync_robotics") (start two_profiles) = (Ok r, st') /\
    trace st' = trace (start two_profiles) ++ EvRun (py "sync_robotics") :: body /\
    Forall plain body /\
    new_papers r = PInt 0.
Proof.
  apply without_connector_nothing_is_synced. reflexivity.
Defined.

(** *** The notifier *)

Lemma summary_tables_agree_witness :
  exists t st',
    summary_loop (fun _ => returns (Some (py "https://tables/robotics")))
      four_results (mk_tables ∅ ∅ ∅) (start []) = (Ok t, st') /\
    papers_by_field t !! py "Robotics" =
      Some (MadeUp (py "Robotics") (py "sync_robots") (PInt 2)) /\
    is_Some (update_stats t !! py "Robotics") /\
    count_qualifying four_results = 2.
Proof.
  destruct (summary_loop (fun _ => returns (Some (py "https://tables/robotics")))
              four_results (mk_tables ∅ ∅ ∅) (start []))
    as [[t|e] st'] eqn:E; [|vm_compute in E; discriminate].
  exists t, st'. split; [reflexivity|].
  destruct (summary_tables_agree _ _ _ _ _ E) as (Hpapers & Hsame & _ & _).
  split; [now rewrite Hpapers|]. split; [|reflexivity].
  apply Hsame. rewrite Hpapers. now eexists.
Defined.

(** *** The discovery *)

Definition documents_of_app : World :=
  [ py "/app/conf/sync_robotics.yaml"; py "/app/conf/sync_vision.yaml" ].

Lemma find_sync_configs_recovers_names_witness :
  find_sync_configs (py "/app") glob_glob (start documents_of_app) =
    (Ok [py "sync_robotics"; py "sync_vision"],
     mk_state ∅ documents_of_app [EvCall c_glob (Ok None)]) /\
  Forall (fun name =>
            replace (py ".yaml") [] (basename (config_path_of name)) = name)
    [py "sync_robotics"; py "sync_vision"].
Proof.
  apply (find_sync_configs_recovers_names (py "/app") glob_glob
           (start documents_of_app) [py "sync_robotics"; py "sync_vision"]
           ∅ documents_of_app).
  - repeat constructor; compute_done.
  - reflexivity.
Defined.

(** *** The keywords *)

Lemma loaded_keywords_are_matchable_witness :
  load_keywords_from_config profile_doc =
    Ok ([py "grasping"], [],
        VList [ VStr (py "# manipulation"); VStr (py " grasping "); VStr (py "") ],
        VDict []) /\
  Forall matchable [py "grasping"] /\
  length [py "grasping"] <= 3.
Proof.
  split; [reflexivity|].
  destruct (loaded_keywords_are_matchable profile_doc [py "grasping"] []
              (VList [ VStr (py "# manipulation"); VStr (py " grasping ");
                       VStr (py "") ])
              (VDict []) eq_refl)
    as (Hinterest & _ & Hlen & _).
  split; [exact Hinterest|]. exact (Hlen _ eq_refl).
Defined.

(** An empty [keywords] entry, which YAML reads as [None], has no [get]; an
    entry of a list that is a number other than zero has no [strip]; zero
    and [None] are skipped as the empty string is; a string in the place of
    a list is gone through character by character. *)
Example keywords_of_other_types :
  load_keywords_from_config [ (py "keywords", VNull) ] = Raise AttributeError /\
  load_keywords_from_config [ (py "interest_keywords", VList [ VInt 5 ]) ]
    = Raise AttributeError /\
  load_keywords_from_config
    [ (py "interest_keywords", VList [ VInt 0; VNull; VStr (py "slam") ]) ]
    = Ok ([py "slam"], [], VList [ VInt 0; VNull; VStr (py "slam") ], VDict []) /\
  load_keywords_from_config [ (py "interest_keywords", VStr (py "ab")) ]
    = Ok ([py "a"; py "b"], [], VStr (py "ab"), VDict []).
Proof. repeat split. Qed.

(** *** The entry point *)

(** The aggregator over the collaborators of [run_batch], none of which is
    left, and a discovery [glob] that may be. *)
Definition batch_over (glob : pystr -> gext (World := World) interrupt (list pystr))
  : G (World := World) interrupt bool :=
  Interruptible.process_all_configs (Paper := Paper) true (py "/app") path_exists
    glob (fun p => raising (load_yaml p))
    (fun _ => raising (returns tt)) (raising (returns tt))
    (fun _ _ _ _ _ => raising (returns [1; 2; 3; 4; 5]))
    (fun _ _ _ _ => raising (returns [1; 2; 3; 4; 5]))
    (fun _ _ _ _ _ _ _ _ => raising (returns [3; 1; 2]))
    (fun _ _ => raising (ends (Ok (VInt 2))))
    (fun _ => raising (returns tt))
    (fun _ => raising (returns None))
    (fun _ _ _ => raising (returns true)).

(** [main] over the same collaborators, under the configuration name [all]
    and with a single run that would raise. *)
Definition main_under_all (glob : pystr -> gext (World := World) interrupt (list pystr))
  : G (World := World) interrupt unit :=
  Interruptible.main (Paper := Paper) true (py "/app") path_exists
    glob (fun p => raising (load_yaml p))
    (fun _ => raising (returns tt)) (raising (returns tt))
    (fun _ _ _ _ _ => raising (returns [1; 2; 3; 4; 5]))
    (fun _ _ _ _ => raising (returns [1; 2; 3; 4; 5]))
    (fun _ _ _ _ _ _ _ _ => raising (returns [3; 1; 2]))
    (fun _ _ => raising (ends (Ok (VInt 2))))
    (fun _ => raising (returns tt))
    (fun _ => raising (returns None))
    (fun _ _ _ => raising (returns true))
    (raising (returns (VStr (py "all"))))
    (fun _ => Control.lift (Raise (Failure (py "single run"))))
    profile_doc.

Lemma main_runs_the_batch_under_all_witness :
  (exists b st',
     batch_over (fun p => raising (glob_glob p))
       (mk_state ∅ two_profiles (trace (start two_profiles)))
       = (Control.Returns b, st') /\
     main_under_all (fun p => raising (glob_glob p)) (start two_profiles)
       = (Control.Returns tt, st')) \/
  (exists x st',
     batch_over (fun p => raising (glob_glob p))
       (mk_state ∅ two_profiles (trace (start two_profiles)))
       = (Control.Leaves x, st') /\
     Interruptible.left_at st' /\
     main_under_all (fun p => raising (glob_glob p)) (start two_profiles)
       = Control.lift (Raise (Failure (py "single run"))) st').
Proof.
  exact (Interruptible.main_runs_the_batch_under_all (Paper := Paper)
           true (py "/app") path_exists
           (fun p => raising (glob_glob p)) (fun p => raising (load_yaml p))
           (fun _ => raising (returns tt)) (raising (returns tt))
           (fun _ _ _ _ _ => raising (returns [1; 2; 3; 4; 5]))
           (fun _ _ _ _ => raising (returns [1; 2; 3; 4; 5]))
           (fun _ _ _ _ _ _ _ _ => raising (returns [3; 1; 2]))
           (fun _ _ => raising (ends (Ok (VInt 2))))
           (fun _ => raising (returns tt))
           (fun _ => raising (returns None))
           (fun _ _ _ => raising (returns true))
           (raising (returns (VStr (py "all"))))
           (fun _ => Control.lift (Raise (Failure (py "single run"))))
           profile_doc (start two_profiles) ∅ two_profiles eq_refl).
Defined.

(** The batch of two profiles returns, and [main] with it, without the
    single run. *)
Example main_returns_after_the_batch :
  exists st',
    main_under_all (fun p => raising (glob_glob p)) (start two_profiles)
      = (Control.Returns tt, st') /\
    runs (trace st') = [py "sync_robotics"; py "sync_vision"].
Proof. eexists. split; [vm_compute; reflexivity|reflexivity]. Qed.

(** A [KeyboardInterrupt] in the discovery leaves the aggregator; the bare
    [except] of [main] catches it, and [main] goes on with the single run,
    which here raises. *)
Example interrupted_batch_goes_on_with_the_single_run :
  batch_over (fun _ env w => (Control.Leaves KeyboardInterrupt, env, w))
    (start two_profiles)
    = (Control.Leaves KeyboardInterrupt,
       mk_state ∅ two_profiles [EvLeft c_glob]) /\
  main_under_all (fun _ env w => (Control.Leaves KeyboardInterrupt, env, w))
    (start two_profiles)
    = (Control.Raises (Failure (py "single run")),
       mk_state ∅ two_profiles [EvLeft c_glob]).
Proof. split; vm_compute; reflexivity. Qed.

(** *** The table sync *)

(** An environment with the four variables and a user token. *)
Definition configured_env : gmap pystr pystr :=
  <[py "FEISHU_APP_ID" := py "cli_1"]>
  (<[py "FEISHU_APP_SECRET" := py "s3cret"]>
  (<[py "FEISHU_BITABLE_APP_TOKEN" := py "bascn"]>
  (<[py "FEISHU_PAPERS_TABLE_ID" := py "tbl1"]>
  (<[py "FEISHU_USER_ACCESS_TOKEN" := py "u-1234"]> ∅)))).

(** The table sync on papers that are their own rows, with a connector whose
    every insert ends as [insert]. *)
Definition sync_with (insert : Control.ending interrupt value) (cfg : dict)
    (papers : list nat)
  : TableSync.M (Row := nat) (World := unit) (Interrupt := interrupt) bool :=
  TableSync.sync_to_feishu (Paper := nat) true
    (fun env w => (Control.Returns tt, env, w))
    (fun env w => (Control.Returns tt, env, w))
    (fun _ env w => (insert, env, w))
    (fun _ _ _ env w => (Control.Returns tt, env, w))
    (fun paper => Ok paper)
    (fun _ _ => Ok false)
    papers cfg.

(** The same with every insert raising and the batch size [batch_size]. *)
Definition sync_with_failing_inserts (batch_size : Z) (papers : list nat)
  : TableSync.M (Row := nat) (World := unit) (Interrupt := interrupt) bool :=
  sync_with (Control.Raises (Failure (py "table unreachable")))
    [ (py "feishu", VDict [ (py "batch_size", VInt batch_size) ]) ] papers.

(** How the sync ended and the batches and flags of its record. *)
Definition outcome_of_sync
    (run : Control.ending interrupt bool
           * TableSync.state (Row := nat) (World := unit))
  : Control.ending interrupt bool * list (list nat) * list bool :=
  (fst run, TableSync.inserted (TableSync.calls (snd run)),
   List.map snd (TableSync.calls (snd run))).

(** Five papers in batches of two: three batches are handed over although
    each insert raises, and the sync returns [True]. *)
Example failing_inserts_still_succeed :
  outcome_of_sync
    (sync_with_failing_inserts 2 [1; 2; 3; 4; 5]
       (TableSync.mk_state configured_env tt [])) =
  (Control.Returns true, [[1; 2]; [3; 4]; [5]], [true; true; false; false; false]).
Proof. vm_compute. reflexivity. Qed.

(** A negative batch size: nothing is handed over and the sync returns
    [True]; with the batch size zero it returns [False]. *)
Example negative_batch_size_writes_nothing :
  outcome_of_sync
    (sync_with_failing_inserts (-5) [1; 2; 3]
       (TableSync.mk_state configured_env tt [])) =
  (Control.Returns true, [], [true; true]) /\
  outcome_of_sync
    (sync_with_failing_inserts 0 [1; 2; 3]
       (TableSync.mk_state configured_env tt [])) =
  (Control.Returns false, [], [true; true]).
Proof. vm_compute. split; reflexivity. Qed.

(** With a placeholder for the only token the sync stops after
    [load_dotenv]. *)
Example placeholder_token_is_no_token :
  outcome_of_sync
    (sync_with_failing_inserts 2 [1; 2; 3]
       (TableSync.mk_state
          (<[py "FEISHU_USER_ACCESS_TOKEN" := py "u-xxxx-1"]> configured_env)
          tt [])) =
  (Control.Returns false, [], [true]).
Proof. vm_compute. reflexivity. Qed.

(** An empty [feishu] entry, which YAML reads as [None]: the sync raises at
    line 375, before it calls anything. *)
Example empty_feishu_entry_raises :
  outcome_of_sync
    (sync_with (Control.Returns VNull) [ (py "feishu", VNull) ] [1; 2; 3]
       (TableSync.mk_state configured_env tt [])) =
  (Control.Raises AttributeError, [], []).
Proof. vm_compute. reflexivity. Qed.

(** An empty [user_profile] entry: the batches are handed over, then line
    482 raises inside the [try] and the sync returns [False]. *)
Example empty_user_profile_gives_False :
  outcome_of_sync
    (sync_with (Control.Returns VNull)
       [ (py "feishu", VDict [ (py "batch_size", VInt 2) ]);
         (py "user_profile", VNull) ]
       [1; 2; 3]
       (TableSync.mk_state configured_env tt [])) =
  (Control.Returns false, [[1; 2]; [3]], [true; true; true; true]).
Proof. vm_compute. reflexivity. Qed.

(** An insert left by a [KeyboardInterrupt]: the loop stops at the first
    batch and the exception leaves the sync. *)
Example interrupted_insert_leaves_the_sync :
  outcome_of_sync
    (sync_with (Control.Leaves KeyboardInterrupt)
       [ (py "feishu", VDict [ (py "batch_size", VInt 2) ]) ]
       [1; 2; 3]
       (TableSync.mk_state configured_env tt [])) =
  (Control.Leaves KeyboardInterrupt, [[1; 2]], [true; true; false]).
Proof. vm_compute. reflexivity. Qed.

End Cases.
